(** * Enact security library: signing service, PEM codec and key store

    A shallow embedding of the TypeScript sources of the two packages
    (the host package [packages/security] and the browser package
    [packages/security-web]) together with the properties that the
    written specification states about them and further properties that
    the code itself shows.

    Conventions.
    - A JavaScript string is a [string]: a sequence of code units, all
      below 256.
    - A [Uint8Array] or [Buffer] is a [list byte].
    - A function that may throw returns an [outcome]; [Throw] carries the
      error that the source constructs.
    - Functions of the runtime and of the [@noble] libraries whose
      result the sources only pass along (SHA-256, the curve operations,
      [JSON.stringify], Node's lenient base64 reader) are the fields of
      a [Platform]. *)

From Stdlib Require Import ZArith Lia Bool List Ascii String Sorted Permutation.
From Stdlib.Strings Require Import Byte.
From stdpp Require Import base option list gmap propset strings.
Import ListNotations.

(* ================================================================== *)
(** * Part I. The model                                                *)
(* ================================================================== *)

(** ** Errors and outcomes *)

Inductive error : Type :=
| MissingRequiredField (name : string)
    (* fieldConfig.ts: Required field '<name>' is missing or empty *)
| UnsupportedPublicKeyFormat (len : nat)
    (* browser crypto.ts: Unsupported public key format: <len> bytes *)
| PrivateKeyNotFound (derHexHead : string)
    (* browser crypto.ts: Could not find private key in DER structure *)
| InvalidPrivateKeyLength (len : nat)
    (* browser crypto.ts: Invalid private key length *)
| KeyAlreadyExists (keyId : string)
    (* keyManager.ts: Key with ID '<keyId>' already exists *)
| FailedToStoreKey (keyId : string) (cause : error)
    (* keyManager.ts: Failed to store key '<keyId>': <cause> *)
| HexDecodeError          (* @noble/hashes hexToBytes *)
| CurveError              (* @noble/curves secp256k1 *)
| InvalidCharacterError   (* atob *)
| SyntaxError             (* BigInt *)
| TypeError               (* a property that holds data, called as a method *)
| IOError (path : string) (* fs *).

Inductive outcome (A : Type) : Type :=
| Ret (a : A)
| Throw (e : error).
Arguments Ret {A} a.
Arguments Throw {A} e.

#[global] Instance outcome_ret : MRet outcome := fun A a => Ret a.
#[global] Instance outcome_bind : MBind outcome := fun A B k m =>
  match m with
  | Ret a => k a
  | Throw e => Throw e
  end.

Definition returns {A} (m : outcome A) : bool :=
  match m with Ret _ => true | Throw _ => false end.

(** ** JavaScript strings: the [String.prototype] methods the sources call *)

Module JsString.

(** [s.startsWith(needle)]. *)
Fixpoint startsWith (s needle : string) {struct needle} : bool :=
  match needle with
  | EmptyString => true
  | String a needle' =>
      match s with
      | EmptyString => false
      | String b s' => Ascii.eqb a b && startsWith s' needle'
      end
  end.

(** Position of the first occurrence of [needle] in [s]. *)
Fixpoint index_from (needle s : string) : option nat :=
  if startsWith s needle then Some 0
  else match s with
       | EmptyString => None
       | String _ r => S <$> index_from needle r
       end.

(** [s.indexOf(needle)]: -1 when there is no occurrence. *)
Definition indexOf (s needle : string) : Z :=
  match index_from needle s with
  | Some i => Z.of_nat i
  | None => (-1)%Z
  end.

Fixpoint drop (n : nat) (s : string) : string :=
  match n, s with
  | O, _ => s
  | S _, EmptyString => EmptyString
  | S n', String _ r => drop n' r
  end.

Fixpoint take (n : nat) (s : string) : string :=
  match n, s with
  | O, _ => EmptyString
  | S _, EmptyString => EmptyString
  | S n', String c r => String c (take n' r)
  end.

(** [s.substring(start, stop)]: negative arguments count as 0, the
    arguments are swapped when out of order, and both are clamped to the
    length. *)
Definition substring (s : string) (start stop : Z) : string :=
  let a := Z.to_nat (Z.min start stop) in
  let b := Z.to_nat (Z.max start stop) in
  take (b - a) (drop a s).

(** [s.replace(pattern, '')] with a string pattern: the first occurrence
    only. *)
Definition replace_first (s pattern : string) : string :=
  match index_from pattern s with
  | Some i => take i s +:+ drop (i + String.length pattern) s
  | None => s
  end.

(** The class [\s] on code units below 256: TAB, LF, VT, FF, CR, SP and
    NBSP. *)
Definition is_space (c : ascii) : bool :=
  let n := nat_of_ascii c in
  (9 <=? n) && (n <=? 13) || (n =? 32) || (n =? 160).

(** [s.replace(/\s+/g, '')]. *)
Fixpoint remove_spaces (s : string) : string :=
  match s with
  | EmptyString => EmptyString
  | String c r =>
      if is_space c then remove_spaces r else String c (remove_spaces r)
  end.

Fixpoint all_spaces (s : string) : bool :=
  match s with
  | EmptyString => true
  | String c r => is_space c && all_spaces r
  end.

(** [s.trim() !== '']: some code unit of [s] is not white space. *)
Definition trim_nonempty (s : string) : bool := negb (all_spaces s).

(** [s.includes(needle)]. *)
Definition includes (s needle : string) : bool :=
  match index_from needle s with Some _ => true | None => false end.

(** [l.join(sep)]. *)
Fixpoint join (sep : string) (l : list string) : string :=
  match l with
  | [] => EmptyString
  | [x] => x
  | x :: r => x +:+ sep +:+ join sep r
  end.

(** [s.match(/.{1,64}/g) || []] on a string without line terminators:
    consecutive pieces of 64 code units, the last one possibly shorter.
    The fuel is the length of the string, which always suffices. *)
Fixpoint pieces (width fuel : nat) (s : string) : list string :=
  match fuel with
  | O => []
  | S fuel' =>
      match s with
      | EmptyString => []
      | String _ _ => take width s :: pieces width fuel' (drop width s)
      end
  end.

Definition match_1_64 (s : string) : list string :=
  pieces 64 (String.length s) s.

(** A test that holds of every code unit of a string. *)
Fixpoint every (p : ascii -> bool) (s : string) : bool :=
  match s with
  | EmptyString => true
  | String c r => p c && every p r
  end.

(** The lines of a text, each followed by the separator. *)
Fixpoint terminated (sep : string) (l : list string) : string :=
  match l with
  | [] => EmptyString
  | x :: r => x +:+ sep +:+ terminated sep r
  end.

End JsString.

(** ** Hexadecimal codec of [@noble/hashes/utils] *)

Module Hex.

Definition hexes : string := "0123456789abcdef".

Definition digit (n : N) : ascii :=
  match String.get (N.to_nat n) hexes with
  | Some c => c
  | None => "0"%char
  end.

(** Value of a hexadecimal digit, in either case. *)
Definition asciiToBase16 (c : ascii) : option N :=
  let n := N_of_ascii c in
  if (48 <=? n)%N && (n <=? 57)%N then Some (n - 48)%N
  else if (65 <=? n)%N && (n <=? 70)%N then Some (n - 55)%N
  else if (97 <=? n)%N && (n <=? 102)%N then Some (n - 87)%N
  else None.

Definition byteToHex (b : byte) : string :=
  let n := Byte.to_N b in
  String (digit (n / 16)) (String (digit (n mod 16)) EmptyString).

(** [bytesToHex]: two lower-case digits per byte. *)
Fixpoint bytesToHex (bs : list byte) : string :=
  match bs with
  | [] => EmptyString
  | b :: r => byteToHex b +:+ bytesToHex r
  end.

(** [hexToBytes]: throws on an odd length and on a character that is not
    a hexadecimal digit. *)
Fixpoint hexToBytes (hex : string) : outcome (list byte) :=
  match hex with
  | EmptyString => Ret []
  | String _ EmptyString => Throw HexDecodeError
  | String c1 (String c2 r) =>
      match asciiToBase16 c1, asciiToBase16 c2 with
      | Some n1, Some n2 =>
          match Byte.of_N (n1 * 16 + n2), hexToBytes r with
          | Some b, Ret bs => Ret (b :: bs)
          | _, _ => Throw HexDecodeError
          end
      | _, _ => Throw HexDecodeError
      end
  end.

(** [BigInt('0x' + digits)]. *)
Fixpoint parse_digits (acc : N) (digits : string) : outcome N :=
  match digits with
  | EmptyString => Ret acc
  | String c r =>
      match asciiToBase16 c with
      | Some d => parse_digits (acc * 16 + d)%N r
      | None => Throw SyntaxError
      end
  end.

Definition BigInt_0x (digits : string) : outcome N :=
  match digits with
  | EmptyString => Throw SyntaxError
  | String _ _ => parse_digits 0%N digits
  end.

End Hex.

(** ** Base64: [btoa], [atob] and [Buffer.prototype.toString('base64')] *)

Module Base64.

(** Six bits, most significant first. *)
Definition sextet : Type := (bool * bool * bool * bool * bool * bool)%type.

Definition alphabet : string :=
  "ABCDEFGHIJKLMNOPQRSTUVWXYZabcdefghijklmnopqrstuvwxyz0123456789+/".

Definition pad : ascii := "="%char.

Definition nat_of_sextet (s : sextet) : nat :=
  let '(b5, b4, b3, b2, b1, b0) := s in
  32 * Nat.b2n b5 + 16 * Nat.b2n b4 + 8 * Nat.b2n b3
  + 4 * Nat.b2n b2 + 2 * Nat.b2n b1 + Nat.b2n b0.

Definition sextet_of_nat (n : nat) : sextet :=
  (Nat.testbit n 5, Nat.testbit n 4, Nat.testbit n 3,
   Nat.testbit n 2, Nat.testbit n 1, Nat.testbit n 0).

Definition char (s : sextet) : ascii :=
  match String.get (nat_of_sextet s) alphabet with
  | Some c => c
  | None => pad
  end.

Definition value (c : ascii) : option sextet :=
  sextet_of_nat <$> JsString.index_from (String c EmptyString) alphabet.

Definition enc1 (a : byte) : string :=
  let '(a0, (a1, (a2, (a3, (a4, (a5, (a6, a7))))))) := Byte.to_bits a in
  String (char (a7, a6, a5, a4, a3, a2))
    (String (char (a1, a0, false, false, false, false))
       (String pad (String pad EmptyString))).

Definition enc2 (a b : byte) : string :=
  let '(a0, (a1, (a2, (a3, (a4, (a5, (a6, a7))))))) := Byte.to_bits a in
  let '(b0, (b1, (b2, (b3, (b4, (b5, (b6, b7))))))) := Byte.to_bits b in
  String (char (a7, a6, a5, a4, a3, a2))
    (String (char (a1, a0, b7, b6, b5, b4))
       (String (char (b3, b2, b1, b0, false, false))
          (String pad EmptyString))).

Definition enc3 (a b c : byte) (k : string) : string :=
  let '(a0, (a1, (a2, (a3, (a4, (a5, (a6, a7))))))) := Byte.to_bits a in
  let '(b0, (b1, (b2, (b3, (b4, (b5, (b6, b7))))))) := Byte.to_bits b in
  let '(c0, (c1, (c2, (c3, (c4, (c5, (c6, c7))))))) := Byte.to_bits c in
  String (char (a7, a6, a5, a4, a3, a2))
    (String (char (a1, a0, b7, b6, b5, b4))
       (String (char (b3, b2, b1, b0, c7, c6))
          (String (char (c5, c4, c3, c2, c1, c0)) k))).

(** RFC 4648 encoding with padding: the output of [btoa] on a binary
    string and of [Buffer.toString('base64')]. *)
Fixpoint encode (bs : list byte) : string :=
  match bs with
  | [] => EmptyString
  | [a] => enc1 a
  | [a; b] => enc2 a b
  | a :: b :: c :: r => enc3 a b c (encode r)
  end.

Definition dec2 (c1 c2 : ascii) : option (list byte) :=
  match value c1, value c2 with
  | Some (a7, a6, a5, a4, a3, a2), Some (a1, a0, _, _, _, _) =>
      Some [Byte.of_bits (a0, (a1, (a2, (a3, (a4, (a5, (a6, a7)))))))]
  | _, _ => None
  end.

Definition dec3 (c1 c2 c3 : ascii) : option (list byte) :=
  match value c1, value c2, value c3 with
  | Some (a7, a6, a5, a4, a3, a2), Some (a1, a0, b7, b6, b5, b4),
    Some (b3, b2, b1, b0, _, _) =>
      Some [Byte.of_bits (a0, (a1, (a2, (a3, (a4, (a5, (a6, a7)))))));
            Byte.of_bits (b0, (b1, (b2, (b3, (b4, (b5, (b6, b7)))))))]
  | _, _, _ => None
  end.

Definition dec4 (c1 c2 c3 c4 : ascii) : option (list byte) :=
  match value c1, value c2, value c3, value c4 with
  | Some (a7, a6, a5, a4, a3, a2), Some (a1, a0, b7, b6, b5, b4),
    Some (b3, b2, b1, b0, c7, c6), Some (c5, c4, c3, c2, c1, c0) =>
      Some [Byte.of_bits (a0, (a1, (a2, (a3, (a4, (a5, (a6, a7)))))));
            Byte.of_bits (b0, (b1, (b2, (b3, (b4, (b5, (b6, b7)))))));
            Byte.of_bits (c0, (c1, (c2, (c3, (c4, (c5, (c6, c7)))))))]
  | _, _, _, _ => None
  end.

(** The forgiving decoder of the HTML standard, after white space has
    been removed: one or two trailing [=] are dropped when the length is
    a multiple of four, a remainder of one character is a failure, and so
    is any character outside the alphabet. *)
Fixpoint decode_groups (s : string) : option (list byte) :=
  match s with
  | EmptyString => Some []
  | String _ EmptyString => None
  | String c1 (String c2 EmptyString) => dec2 c1 c2
  | String c1 (String c2 (String c3 EmptyString)) => dec3 c1 c2 c3
  | String c1 (String c2 (String c3 (String c4 r))) =>
      match r with
      | EmptyString =>
          if Ascii.eqb c4 pad
          then (if Ascii.eqb c3 pad then dec2 c1 c2 else dec3 c1 c2 c3)
          else dec4 c1 c2 c3 c4
      | String _ _ =>
          match dec4 c1 c2 c3 c4, decode_groups r with
          | Some d, Some bs => Some (d ++ bs)
          | _, _ => None
          end
      end
  end.

Definition is_ascii_whitespace (c : ascii) : bool :=
  let n := nat_of_ascii c in
  (n =? 9) || (n =? 10) || (n =? 12) || (n =? 13) || (n =? 32).

Fixpoint strip_ascii_whitespace (s : string) : string :=
  match s with
  | EmptyString => EmptyString
  | String c r =>
      if is_ascii_whitespace c then strip_ascii_whitespace r
      else String c (strip_ascii_whitespace r)
  end.

(** What the PEM reader relies on: a character of the alphabet is not
    white space and not a dash. *)
Definition plain (c : ascii) : bool :=
  negb (JsString.is_space c) && negb (is_ascii_whitespace c)
  && negb (Ascii.eqb c "-").

(** [btoa(String.fromCharCode(...bytes))]. *)
Definition btoa (bs : list byte) : string := encode bs.

(** [atob(s)], read back as bytes with [charCodeAt]. *)
Definition atob (s : string) : outcome (list byte) :=
  match decode_groups (strip_ascii_whitespace s) with
  | Some bs => Ret bs
  | None => Throw InvalidCharacterError
  end.

End Base64.

(** ** Documents and their values ([types.ts]) *)

(** A JavaScript value as a document can hold it.  Numbers are the
    integers; an object is the list of its own properties in insertion
    order. *)
#[warnings="-register-all"] Inductive value : Type :=
| VUndefined
| VNull
| VBool (b : bool)
| VNum (n : Z)
| VStr (s : string)
| VArr (items : list value)
| VObj (props : list (string * value)).

Definition object : Type := list (string * value).

(** [o[key]] on own properties. *)
Fixpoint get (o : object) (key : string) : value :=
  match o with
  | [] => VUndefined
  | (k, v) :: r => if String.eqb k key then v else get r key
  end.

(** The own-property test of [Object.prototype.hasOwnProperty], applied to
    [o] and [key]. *)
Fixpoint hasOwnProperty (o : object) (key : string) : bool :=
  match o with
  | [] => false
  | (k, _) :: r => String.eqb k key || hasOwnProperty r key
  end.

(** [o[key] = v]: an existing property keeps its place, a new one goes
    last.  (Names that are array indices, which the engine enumerates
    first, and inherited names such as [__proto__] are outside the
    model.) *)
Fixpoint set (o : object) (key : string) (v : value) : object :=
  match o with
  | [] => [(key, v)]
  | (k, w) :: r =>
      if String.eqb k key then (k, v) :: r else (k, w) :: set r key v
  end.

(** An optional property of an object literal: left out, written with the
    value [undefined], or given. *)
Inductive optional (A : Type) : Type :=
| Absent
| Undefined
| Present (a : A).
Arguments Absent {A}.
Arguments Undefined {A}.
Arguments Present {A} a.

(** [{ ...base, prop: over }] for one property. *)
Definition spread {A} (base over : optional A) : optional A :=
  match over with
  | Absent => base
  | _ => over
  end.

(** [x ?? d]. *)
Definition nullish {A} (x : optional A) (d : A) : A :=
  match x with
  | Present a => a
  | _ => d
  end.

Record Signature : Type := {
  signature : string;
  publicKey : value;   (* declared a string; the verifier tests its type *)
  algorithm : string;
  timestamp : Z
}.

Definition Signature_value (s : Signature) : value :=
  VObj [("signature", VStr (signature s)); ("publicKey", publicKey s);
        ("algorithm", VStr (algorithm s)); ("timestamp", VNum (timestamp s))].

(** [EnactDocument]: the declared property [signatures?: Signature[]] and
    the open rest [[key: string]: any]. *)
Record EnactDocument : Type := {
  signatures : option (list Signature);
  fields : object
}.

Definition document_get (d : EnactDocument) (key : string) : value :=
  if String.eqb key "signatures" then
    match signatures d with
    | Some l => VArr (map Signature_value l)
    | None => VUndefined
    end
  else get (fields d) key.

(** The own-property test on a document. *)
Definition document_hasOwnProperty (d : EnactDocument) (key : string) : bool :=
  if String.eqb key "signatures" then bool_decide (is_Some (signatures d))
  else hasOwnProperty (fields d) key.

(** [document.hasOwnProperty(key)], the method call of the sources.  The
    method is looked up on the document first: an own property named
    [hasOwnProperty] shadows the one of [Object.prototype], and as it holds
    data and no function, calling it throws a [TypeError]. *)
Definition document_call_hasOwnProperty (d : EnactDocument) (key : string)
  : outcome bool :=
  if document_hasOwnProperty d "hasOwnProperty" then Throw TypeError
  else Ret (document_hasOwnProperty d key).

Record SigningOptions : Type := {
  opt_algorithm : option string;
  useEnactDefaults : option bool;
  includeFields : option (list string);
  excludeFields : option (list string);
  additionalCriticalFields : option (list string)
}.

Record KeyPair : Type := {
  privateKey : string;
  kp_publicKey : string
}.

Record SecurityConfig : Type := {
  allowLocalUnsigned : optional bool;
  minimumSignatures : optional Z
}.

Definition DEFAULT_SECURITY_CONFIG : SecurityConfig :=
  {| allowLocalUnsigned := Present true; minimumSignatures := Present 1%Z |}.

(** [{ ...a, ...b }] on security configurations. *)
Definition merge_config (a b : SecurityConfig) : SecurityConfig :=
  {| allowLocalUnsigned := spread (allowLocalUnsigned a) (allowLocalUnsigned b);
     minimumSignatures := spread (minimumSignatures a) (minimumSignatures b) |}.

Record KeyMetadata : Type := {
  md_keyId : string;
  md_created : string;
  md_algorithm : string;
  md_description : option string
}.

(** ** The platform *)

Record Platform : Type := {
  (* @noble/hashes: the digest of the UTF-8 bytes of a string *)
  sha256 : string -> list byte;
  (* @noble/curves: secp256k1.verify(signatureHex, hash, publicKey) *)
  secp256k1_verify : string -> list byte -> list byte -> outcome bool;
  (* secp256k1.sign(hash, privateKey).toCompactHex() *)
  secp256k1_sign : list byte -> list byte -> outcome string;
  (* secp256k1.getPublicKey(privateKey) *)
  secp256k1_getPublicKey : list byte -> outcome (list byte);
  (* JSON.stringify(canonicalDocument) *)
  JSON_stringify : object -> string;
  (* JSON.stringify(metadata, null, 2) *)
  JSON_stringify_metadata : KeyMetadata -> string;
  (* Buffer.from(text, 'base64'), which never throws *)
  Buffer_from_base64 : string -> list byte
}.

(** What the host codec needs of Node's reader: it inverts the writer. *)
Definition reads_base64 (P : Platform) : Prop :=
  forall bs, Buffer_from_base64 P (Base64.encode bs) = bs.

(** ** PEM labels shared by both codecs *)

Inductive KeyType : Type := PUBLIC | PRIVATE.

Definition keyTypeLabel (type : KeyType) : string :=
  match type with
  | PUBLIC => "PUBLIC KEY"
  | PRIVATE => "PRIVATE KEY"
  end.

Definition beginMarker (type : KeyType) : string :=
  "-----BEGIN " +:+ keyTypeLabel type +:+ "-----".

Definition endMarker (type : KeyType) : string :=
  "-----END " +:+ keyTypeLabel type +:+ "-----".

Definition newline : string := String (ascii_of_nat 10) EmptyString.

(** The last statements of both [hexToPem]: wrap at 64 columns and put the
    markers around the lines. *)
Definition formatPem (base64Key : string) (type : KeyType) : string :=
  let pemLines := JsString.match_1_64 base64Key in
  JsString.join newline ([beginMarker type] ++ pemLines ++ [endMarker type]).

(** The first statements of both [pemToHex]: drop the markers and all
    white space. *)
Definition base64Content (pemKey : string) (type : KeyType) : string :=
  JsString.remove_spaces
    (JsString.replace_first
       (JsString.replace_first pemKey (beginMarker type)) (endMarker type)).

(** ** [CryptoUtils] of the host package ([packages/security/src/crypto.ts]) *)

Module CryptoUtils.
Section WithPlatform.
Context (P : Platform).

Definition generateKeyPair (randomPrivateKey : list byte) : outcome KeyPair :=
  publicKey ← secp256k1_getPublicKey P randomPrivateKey;
  Ret {| privateKey := Hex.bytesToHex randomPrivateKey;
         kp_publicKey := Hex.bytesToHex publicKey |}.

Definition getPublicKeyFromPrivate (privateKeyHex : string) : outcome string :=
  privateKey ← Hex.hexToBytes privateKeyHex;
  publicKey ← secp256k1_getPublicKey P privateKey;
  Ret (Hex.bytesToHex publicKey).

Definition hash (data : string) : string :=
  Hex.bytesToHex (sha256 P data).

Definition sign (privateKeyHex messageHash : string) : outcome string :=
  privateKey ← Hex.hexToBytes privateKeyHex;
  hash ← Hex.hexToBytes messageHash;
  secp256k1_sign P hash privateKey.

(** The body of the [try]; the [catch] is in [verify]. *)
Definition verify_try (publicKeyHex messageHash signatureHex : string)
  : outcome bool :=
  publicKey ← Hex.hexToBytes publicKeyHex;
  hash ← Hex.hexToBytes messageHash;
  secp256k1_verify P signatureHex hash publicKey.

Definition verify (publicKeyHex messageHash signatureHex : string) : bool :=
  match verify_try publicKeyHex messageHash signatureHex with
  | Ret b => b
  | Throw _ => false
  end.

Definition publicDerPrefix : string :=
  "3056301006072a8648ce3d020106052b8104000a034200".

Definition privateDerPrefix : string :=
  "308184020100301006072a8648ce3d020106052b8104000a046d306b0201010420".

Definition hexToPem (hexKey : string) (type : KeyType) : outcome string :=
  derKey ←
    match type with
    | PUBLIC =>
        publicKeyBytes ← Hex.hexToBytes hexKey;
        Ret (publicDerPrefix +:+ hexKey)
    | PRIVATE =>
        privateKeyBytes ← Hex.hexToBytes hexKey;
        publicKeyHex ← getPublicKeyFromPrivate hexKey;
        let derSuffix := "a144034200" +:+ publicKeyHex in
        Ret ((privateDerPrefix +:+ hexKey) +:+ derSuffix)
    end;
  derBytes ← Hex.hexToBytes derKey;
  let base64Key := Base64.encode derBytes in
  Ret (formatPem base64Key type).

(** The host reader has no shape test and no failure path: when the
    marker is missing, [indexOf] is -1 and the slice starts at 5 (public)
    or 3 (private). *)
Definition pemToHex (pemKey : string) (type : KeyType) : string :=
  let derBytes := Buffer_from_base64 P (base64Content pemKey type) in
  let derHex := Hex.bytesToHex derBytes in
  match type with
  | PUBLIC =>
      let publicKeyStart := (JsString.indexOf derHex "034200" + 6)%Z in
      JsString.substring derHex publicKeyStart (publicKeyStart + 66)%Z
  | PRIVATE =>
      let privateKeyStart := (JsString.indexOf derHex "0420" + 4)%Z in
      JsString.substring derHex privateKeyStart (privateKeyStart + 64)%Z
  end.

Definition isPemFormat (key : string) : bool :=
  JsString.includes key "-----BEGIN" && JsString.includes key "-----END".

End WithPlatform.
End CryptoUtils.

(** ** [CryptoUtils] of the browser package (the tolerant reader) *)

Module WebCryptoUtils.
Section WithPlatform.
Context (P : Platform).

Definition publicDerPrefix : string :=
  "3056301006072a8648ce3d020106052b8104000a034200".

Definition privateDerPrefix : string :=
  "308184020100301306072a8648ce3d020106082a8648ce3d030107046d306b0201010420".

Definition hexToPem (hexKey : string) (type : KeyType) : outcome string :=
  derKey ←
    match type with
    | PUBLIC =>
        publicKeyBytes ← Hex.hexToBytes hexKey;
        Ret (publicDerPrefix +:+ hexKey)
    | PRIVATE =>
        privateKeyBytes ← Hex.hexToBytes hexKey;
        publicKeyHex ← CryptoUtils.getPublicKeyFromPrivate P hexKey;
        let derSuffix := "a144034200" +:+ publicKeyHex in
        Ret ((privateDerPrefix +:+ hexKey) +:+ derSuffix)
    end;
  derBytes ← Hex.hexToBytes derKey;
  let base64Key := Base64.btoa derBytes in
  Ret (formatPem base64Key type).

Definition first_is (derBytes : list byte) (b : byte) : bool :=
  match derBytes with
  | b0 :: _ => Byte.eqb b0 b
  | [] => false
  end.

Definition pemToHex (pemKey : string) (type : KeyType) : outcome string :=
  derBytes ← Base64.atob (base64Content pemKey type);
  let derHex := Hex.bytesToHex derBytes in
  match type with
  | PUBLIC =>
      let standardPrefixIndex := JsString.indexOf derHex "034200" in
      if negb (standardPrefixIndex =? -1)%Z then
        let publicKeyStart := (standardPrefixIndex + 6)%Z in
        Ret (JsString.substring derHex publicKeyStart (publicKeyStart + 66)%Z)
      else if (length derBytes =? 33)
              && (first_is derBytes x02 || first_is derBytes x03) then
        Ret derHex
      else if length derBytes =? 32 then
        Ret ("02" +:+ derHex)
      else if (length derBytes =? 65) && first_is derBytes x04 then
        let x := JsString.substring derHex 2 66 in
        let y := JsString.substring derHex 66 130 in
        yBigInt ← Hex.BigInt_0x y;
        let prefix := if (yBigInt mod 2 =? 0)%N then "02" else "03" in
        Ret (prefix +:+ x)
      else if (32 <=? length derBytes) && (length derBytes <=? 65) then
        Ret derHex
      else Throw (UnsupportedPublicKeyFormat (length derBytes))
  | PRIVATE =>
      let privateKeyStart := (JsString.indexOf derHex "0420" + 4)%Z in
      if (privateKeyStart =? 3)%Z then
        if length derBytes =? 32 then Ret derHex
        else Throw (PrivateKeyNotFound (JsString.substring derHex 0 50))
      else
        let extractedKey :=
          JsString.substring derHex privateKeyStart (privateKeyStart + 64)%Z in
        if negb (String.length extractedKey =? 64) then
          Throw (InvalidPrivateKeyLength (String.length extractedKey))
        else Ret extractedKey
  end.

End WithPlatform.
End WebCryptoUtils.

(** ** Field selection ([fieldConfig.ts]) *)

Record FieldConfig : Type := {
  name : string;
  required : bool;
  securityCritical : bool;
  description : option string
}.

Record SigningFieldOptions : Type := {
  sf_includeFields : option (list string);
  sf_excludeFields : option (list string);
  sf_additionalCriticalFields : option (list string);
  customFieldConfig : option (list FieldConfig)
}.

Definition ENACT_DEFAULT_CRITICAL_FIELDS : list FieldConfig :=
  [ {| name := "annotations"; required := false; securityCritical := true;
       description := Some "Security behavior hints" |};
    {| name := "command"; required := true; securityCritical := true;
       description := Some "The actual execution payload" |};
    {| name := "description"; required := true; securityCritical := true;
       description := Some "What the tool claims to do" |};
    {| name := "enact"; required := false; securityCritical := true;
       description := Some "Protocol version security" |};
    {| name := "env"; required := false; securityCritical := true;
       description := Some "Environment variables" |};
    {| name := "from"; required := false; securityCritical := true;
       description := Some "Container image (critical for security)" |};
    {| name := "inputSchema"; required := false; securityCritical := true;
       description := Some "Defines the attack surface" |};
    {| name := "name"; required := true; securityCritical := true;
       description := Some "Tool identity (prevents impersonation)" |};
    {| name := "timeout"; required := false; securityCritical := true;
       description := Some "Prevents DoS attacks" |};
    {| name := "version"; required := false; securityCritical := true;
       description := Some "Tool version for compatibility" |} ].

Definition GENERIC_DEFAULT_FIELDS : list FieldConfig :=
  [ {| name := "id"; required := true; securityCritical := true;
       description := Some "Document identifier" |};
    {| name := "content"; required := true; securityCritical := true;
       description := Some "Document content" |};
    {| name := "timestamp"; required := true; securityCritical := true;
       description := Some "Creation timestamp" |};
    {| name := "metadata"; required := false; securityCritical := false;
       description := Some "Additional metadata" |} ].

(** [l.includes(x)] on an array of strings. *)
Definition includes (l : list string) (x : string) : bool :=
  bool_decide (x ∈ l).

(** [l.sort()]: ascending by code units. *)
Fixpoint insert_sorted (x : string) (l : list string) : list string :=
  match l with
  | [] => [x]
  | y :: r => if String.leb x y then x :: l else y :: insert_sorted x r
  end.

Fixpoint sort (l : list string) : list string :=
  match l with
  | [] => []
  | x :: r => insert_sorted x (sort r)
  end.

Module FieldSelector.

Record t : Type := { fieldConfigs : list FieldConfig }.

Definition isEmpty (v : value) : bool :=
  match v with
  | VUndefined | VNull => true
  | VStr s => bool_decide (s = EmptyString)
  | VArr items => bool_decide (items = [])
  | VObj props => bool_decide (props = [])
  | VBool _ | VNum _ => false
  end.

Definition isNonEmpty (v : value) : bool := negb (isEmpty v).

(** A field that the document does not own, or owns with an empty value. *)
Definition missingOrEmpty (document : EnactDocument) (field : string) : bool :=
  negb (document_hasOwnProperty document field)
  || isEmpty (document_get document field).

(** [!document.hasOwnProperty(field) || this.isEmpty(document[field])]: the
    call comes first and may throw. *)
Definition lacks (document : EnactDocument) (field : string) : outcome bool :=
  own ← document_call_hasOwnProperty document field;
  Ret (negb own || isEmpty (document_get document field)).

(** The [for] loop of [validateRequiredFields]: the first required field
    that the document lacks is the one reported. *)
Fixpoint check_required (document : EnactDocument) (requiredFields : list string)
  : outcome unit :=
  match requiredFields with
  | [] => Ret tt
  | requiredField :: r =>
      match lacks document requiredField with
      | Throw e => Throw e
      | Ret true => Throw (MissingRequiredField requiredField)
      | Ret false => check_required document r
      end
  end.

Definition validateRequiredFields (document : EnactDocument)
    (config : list FieldConfig) (fieldsToInclude : list string) : outcome unit :=
  let requiredFieldsToInclude :=
    map name
      (List.filter (fun field => required field && includes fieldsToInclude (name field))
         config) in
  check_required document requiredFieldsToInclude.

(** The fields that enter the projection, before they are sorted. *)
Definition fieldsToInclude (self : t) (options : SigningFieldOptions)
  : list string :=
  let excludeFields := default [] (sf_excludeFields options) in
  let additionalCriticalFields := default [] (sf_additionalCriticalFields options) in
  let activeConfig := default (fieldConfigs self) (customFieldConfig options) in
  let selected :=
    match sf_includeFields options with
    | Some includeFields => includeFields
    | None =>
        let criticalFields :=
          map name (List.filter (fun config => securityCritical config) activeConfig) in
        criticalFields ++ additionalCriticalFields
    end in
  List.filter (fun field => negb (includes excludeFields field)) selected.

(** The [forEach] that fills the canonical object. *)
Definition project (document : EnactDocument) (sorted : list string) : object :=
  fold_left
    (fun canonical fieldName =>
       let v := document_get document fieldName in
       if isNonEmpty v then set canonical fieldName v else canonical)
    sorted [].

Definition createCanonicalObject (self : t) (document : EnactDocument)
    (options : SigningFieldOptions) : outcome object :=
  let activeConfig := default (fieldConfigs self) (customFieldConfig options) in
  let fieldsToInclude := fieldsToInclude self options in
  _ ← validateRequiredFields document activeConfig fieldsToInclude;
  Ret (project document (sort fieldsToInclude)).

Definition getSecurityCriticalFields (self : t) : list string :=
  sort (map name (List.filter (fun config => securityCritical config) (fieldConfigs self))).

Definition getRequiredFields (self : t) : list string :=
  sort (map name (List.filter (fun config => required config) (fieldConfigs self))).

End FieldSelector.

Definition EnactFieldSelector : FieldSelector.t :=
  {| FieldSelector.fieldConfigs := ENACT_DEFAULT_CRITICAL_FIELDS |}.

Definition GenericFieldSelector : FieldSelector.t :=
  {| FieldSelector.fieldConfigs := GENERIC_DEFAULT_FIELDS |}.

(** ** The signing service of the host package ([signing.ts]) *)

(** What [verifyDocument] reads from the host at the time of the call. *)
Record HostState : Type := {
  (* SecurityConfigManager.loadConfig() *)
  loadConfig : SecurityConfig;
  (* KeyManager.getAllTrustedPublicKeys() *)
  getAllTrustedPublicKeys : list string
}.

Module SigningService.
Section WithPlatform.
Context (P : Platform).

Definition fieldSelector (options : SigningOptions) : FieldSelector.t :=
  if default false (useEnactDefaults options)
  then EnactFieldSelector else GenericFieldSelector.

Definition fieldOptions (options : SigningOptions) : SigningFieldOptions :=
  {| sf_includeFields := includeFields options;
     sf_excludeFields := excludeFields options;
     sf_additionalCriticalFields := additionalCriticalFields options;
     customFieldConfig := None |}.

Definition getCanonicalDocument (document : EnactDocument)
    (options : SigningOptions) : outcome object :=
  FieldSelector.createCanonicalObject (fieldSelector options) document
    (fieldOptions options).

(** [JSON.stringify(canonicalDocument)]: the text that is hashed. *)
Definition documentString (document : EnactDocument) (options : SigningOptions)
  : outcome string :=
  canonicalDocument ← getCanonicalDocument document options;
  Ret (JSON_stringify P canonicalDocument).

Definition createDocumentHash (document : EnactDocument)
    (options : SigningOptions) : outcome string :=
  documentString ← documentString document options;
  Ret (CryptoUtils.hash P documentString).

Definition signDocument (document : EnactDocument) (privateKey : string)
    (options : SigningOptions) (now : Z) : outcome Signature :=
  messageHash ← createDocumentHash document options;
  signature ← CryptoUtils.sign P privateKey messageHash;
  publicKey ← CryptoUtils.getPublicKeyFromPrivate P privateKey;
  Ret {| signature := signature;
         publicKey := VStr publicKey;
         algorithm := default "secp256k1" (opt_algorithm options);
         timestamp := now |}.

(** [document.signatures || [signature]]: an array is truthy, the empty
    one too. *)
Definition signaturesToVerify (document : EnactDocument) (signature : Signature)
  : list Signature :=
  match signatures document with
  | Some l => l
  | None => [signature]
  end.

(** [{ ...DEFAULT_SECURITY_CONFIG, ...(securityConfig ?? loadConfig()) }]. *)
Definition effectiveConfig (host : HostState)
    (securityConfig : option SecurityConfig) : SecurityConfig :=
  let loadedConfig := default (loadConfig host) securityConfig in
  merge_config DEFAULT_SECURITY_CONFIG loadedConfig.

(** [config.minimumSignatures ?? 1]. *)
Definition threshold (config : SecurityConfig) : Z :=
  nullish (minimumSignatures config) 1%Z.

(** Truthiness of [config.allowLocalUnsigned]. *)
Definition allowsUnsigned (config : SecurityConfig) : bool :=
  nullish (allowLocalUnsigned config) false.

(** [sig.publicKey && typeof sig.publicKey === 'string' &&
    sig.publicKey.trim() !== '']. *)
Definition hasValidPublicKey (sig : Signature) : bool :=
  match publicKey sig with
  | VStr s => JsString.trim_nonempty s
  | _ => false
  end.

(** The fallback: [trustedPublicKeys.some(...)]. *)
Definition verifyAgainstAny (trustedPublicKeys : list string)
    (messageHash signature : string) : bool :=
  existsb (fun trustedKey => CryptoUtils.verify P trustedKey messageHash signature)
    trustedPublicKeys.

(** [sig.publicKey] where the source uses it as a string. *)
Definition publicKeyString (sig : Signature) : string :=
  match publicKey sig with
  | VStr s => s
  | _ => EmptyString
  end.

(** The callback of [signatures.every(...)]. *)
Definition signatureIsValid (trustedPublicKeys : list string)
    (messageHash : string) (sig : Signature) : bool :=
  if hasValidPublicKey sig && includes trustedPublicKeys (publicKeyString sig)
  then CryptoUtils.verify P (publicKeyString sig) messageHash (signature sig)
  else verifyAgainstAny trustedPublicKeys messageHash (signature sig).

Definition verifyDocument (host : HostState) (document : EnactDocument)
    (signature : Signature) (options : SigningOptions)
    (securityConfig : option SecurityConfig) : outcome bool :=
  let config := effectiveConfig host securityConfig in
  let signatures := signaturesToVerify document signature in
  if (Z.of_nat (length signatures) <? threshold config)%Z then
    if allowsUnsigned config && (length signatures =? 0)
    then Ret true
    else Ret false
  else
    messageHash ← createDocumentHash document options;
    let trustedPublicKeys := getAllTrustedPublicKeys host in
    Ret (forallb (signatureIsValid trustedPublicKeys messageHash) signatures).

(** The number of signatures of the verified list that pass, counted
    against the digest that [verifyDocument] computes. *)
Definition validCount (host : HostState) (document : EnactDocument)
    (signature : Signature) (options : SigningOptions) : outcome nat :=
  messageHash ← createDocumentHash document options;
  Ret (length (List.filter
                 (signatureIsValid (getAllTrustedPublicKeys host) messageHash)
                 (signaturesToVerify document signature))).

Definition getSignedFields (options : SigningOptions) : list string :=
  FieldSelector.getSecurityCriticalFields (fieldSelector options).

End WithPlatform.
End SigningService.


(** ** The file system, as far as the key store uses it *)

Record File : Type := {
  content : string;
  mode : N
}.

(** [files] maps a path to the file there.  Directories are not
    represented: a file is known by its full path, and a directory is there
    when a file lies below it.  The three sets say what the system refuses:
    a file of [writeProtected] cannot be written, a file of
    [unlinkProtected] cannot be removed, and below a directory of
    [lockedDirectories] nothing can be made, written or removed. *)
Record FileSystem : Type := {
  files : gmap string File;
  writeProtected : gset string;
  unlinkProtected : gset string;
  lockedDirectories : gset string
}.

(** The same protection around other files. *)
Definition withFiles (fs : FileSystem) (m : gmap string File) : FileSystem :=
  {| files := m;
     writeProtected := writeProtected fs;
     unlinkProtected := unlinkProtected fs;
     lockedDirectories := lockedDirectories fs |}.

(** [path] lies below the directory [dir]. *)
Definition below (dir path : string) : bool :=
  JsString.startsWith path (dir +:+ "/").

Definition inLockedDirectory (fs : FileSystem) (path : string) : bool :=
  existsb (fun dir => below dir path) (elements (lockedDirectories fs)).

(** The paths where [writeFileSync] fails, and those where [unlinkSync]
    fails. *)
Definition readOnly (fs : FileSystem) : propset string :=
  {[ path | bool_decide (path ∈ writeProtected fs) || inLockedDirectory fs path = true ]}.

Definition pinned (fs : FileSystem) : propset string :=
  {[ path | bool_decide (path ∈ unlinkProtected fs) || inLockedDirectory fs path = true ]}.

#[global] Instance readOnly_dec (fs : FileSystem) (path : string)
  : Decision (path ∈ readOnly fs) :=
  decide (bool_decide (path ∈ writeProtected fs) || inLockedDirectory fs path = true).

#[global] Instance pinned_dec (fs : FileSystem) (path : string)
  : Decision (path ∈ pinned fs) :=
  decide (bool_decide (path ∈ unlinkProtected fs) || inLockedDirectory fs path = true).

(** A directory is there when a file lies below it. *)
Definition isThere (fs : FileSystem) (dir : string) : bool :=
  existsb (below dir) (map fst (map_to_list (files fs))).

(** A computation that reads and writes the file system and may throw. *)
Definition io (A : Type) : Type := FileSystem -> outcome A * FileSystem.

Definition io_ret {A} (a : A) : io A := fun fs => (Ret a, fs).

Definition io_throw {A} (e : error) : io A := fun fs => (Throw e, fs).

Definition io_bind {A B} (m : io A) (k : A -> io B) : io B := fun fs =>
  match m fs with
  | (Ret a, fs') => k a fs'
  | (Throw e, fs') => (Throw e, fs')
  end.

(** [try { body } catch (error) { handler }]. *)
Definition try_catch {A} (body : io A) (handler : error -> io A) : io A := fun fs =>
  match body fs with
  | (Ret a, fs') => (Ret a, fs')
  | (Throw e, fs') => handler e fs'
  end.

Definition io_lift {A} (m : outcome A) : io A := fun fs => (m, fs).

Notation "x <~ m ;; k" := (io_bind m (fun x => k))
  (at level 100, m at next level, k at level 200, right associativity).

Definition existsSync (path : string) : io bool := fun fs =>
  (Ret (bool_decide (is_Some (files fs !! path))), fs).

(** [fs.writeFileSync(path, data, { mode })]: the mode is that of a file
    the call creates; a file that is already there keeps its own. *)
Definition writeFileSync (path data : string) (m : N) : io unit := fun fs =>
  if bool_decide (path ∈ readOnly fs) then (Throw (IOError path), fs)
  else
    let keep := match files fs !! path with Some f => mode f | None => m end in
    (Ret tt, withFiles fs (<[path := {| content := data; mode := keep |}]> (files fs))).

Definition unlinkSync (path : string) : io unit := fun fs =>
  if bool_decide (path ∈ pinned fs) then (Throw (IOError path), fs)
  else
    match files fs !! path with
    | Some _ => (Ret tt, withFiles fs (delete path (files fs)))
    | None => (Throw (IOError path), fs)
    end.

(** [fs.mkdirSync(dir, { recursive: true })]: nothing to do when the
    directory is there; when it is not, it is made, unless it is locked or
    lies below a locked directory, and then the call throws.  A directory
    that is made holds no file, and so leaves no trace in the model. *)
Definition mkdirSync (dir : string) : io unit := fun fs =>
  if negb (isThere fs dir)
     && (bool_decide (dir ∈ lockedDirectories fs) || inLockedDirectory fs dir)
  then (Throw (IOError dir), fs)
  else (Ret tt, fs).

Definition readFileSync (path : string) : io string := fun fs =>
  match files fs !! path with
  | Some f => (Ret (content f), fs)
  | None => (Throw (IOError path), fs)
  end.

(** ** The key store of the host package ([keyManager.ts]) *)

Module KeyManager.
Section WithPlatform.
Context (P : Platform).

Definition mode_0o644 : N := 420.
Definition mode_0o600 : N := 384.

Definition TRUSTED_KEYS_DIR : string := "~/.enact/trusted-keys".
Definition PRIVATE_KEYS_DIR : string := "~/.enact/private-keys".

(** [mkdirSync(..., { recursive: true })] on both directories, outside every
    [try]. *)
Definition ensureDirectories : io unit :=
  _ <~ mkdirSync TRUSTED_KEYS_DIR;;
  mkdirSync PRIVATE_KEYS_DIR.

Definition getPublicKeyPath (keyId : string) : string :=
  TRUSTED_KEYS_DIR +:+ "/" +:+ keyId +:+ "-public.pem".

Definition getPrivateKeyPath (keyId : string) : string :=
  PRIVATE_KEYS_DIR +:+ "/" +:+ keyId +:+ "-private.pem".

Definition getMetadataPath (keyId : string) : string :=
  TRUSTED_KEYS_DIR +:+ "/" +:+ keyId +:+ ".meta".

Definition keyExists (keyId : string) : io bool :=
  publicThere <~ existsSync (getPublicKeyPath keyId);;
  if publicThere then existsSync (getPrivateKeyPath keyId) else io_ret false.

(** One of the three blocks of [removeKey]. *)
Definition removeIfThere (path : string) (removed : bool) : io bool :=
  there <~ existsSync path;;
  if there then (_ <~ unlinkSync path;; io_ret true) else io_ret removed.

Definition removeKey (keyId : string) : io bool :=
  try_catch
    (removed <~ removeIfThere (getPublicKeyPath keyId) false;;
     removed <~ removeIfThere (getPrivateKeyPath keyId) removed;;
     removeIfThere (getMetadataPath keyId) removed)
    (fun _ => io_ret false).

Definition storeKey (keyId : string) (keyPair : KeyPair)
    (description : option string) (now : string) : io unit :=
  _ <~ ensureDirectories;;
  try_catch
    (publicKeyPem <~ io_lift (CryptoUtils.hexToPem P (kp_publicKey keyPair) PUBLIC);;
     _ <~ writeFileSync (getPublicKeyPath keyId) publicKeyPem mode_0o644;;
     privateKeyPem <~ io_lift (CryptoUtils.hexToPem P (privateKey keyPair) PRIVATE);;
     _ <~ writeFileSync (getPrivateKeyPath keyId) privateKeyPem mode_0o600;;
     let metadata :=
       {| md_keyId := keyId; md_created := now; md_algorithm := "secp256k1";
          md_description := description |} in
     writeFileSync (getMetadataPath keyId) (JSON_stringify_metadata P metadata) mode_0o644)
    (fun error =>
       _ <~ removeKey keyId;;
       io_throw (FailedToStoreKey keyId error)).

(** [randomPrivateKey] is the draw of [secp256k1.utils.randomPrivateKey()]
    and [now] the text of [new Date().toISOString()]. *)
Definition generateAndStoreKey (keyId : string) (description : option string)
    (randomPrivateKey : list byte) (now : string) : io KeyPair :=
  _ <~ ensureDirectories;;
  exists_ <~ keyExists keyId;;
  if exists_ then io_throw (KeyAlreadyExists keyId)
  else
    keyPair <~ io_lift (CryptoUtils.generateKeyPair P randomPrivateKey);;
    _ <~ storeKey keyId keyPair description now;;
    io_ret keyPair.

Definition importKey (keyId privateKey : string) (description : option string)
    (now : string) : io KeyPair :=
  publicKey <~ io_lift (CryptoUtils.getPublicKeyFromPrivate P privateKey);;
  let keyPair := {| privateKey := privateKey; kp_publicKey := publicKey |} in
  _ <~ storeKey keyId keyPair description now;;
  io_ret keyPair.

End WithPlatform.
End KeyManager.


(** ** A small platform and concrete inputs for the examples

    [demo] is a platform on which everything computes.  Its curve is a
    toy: the public key of [k] is the byte 02 followed by [k], and the
    signature of a digest [h] under [k] is the text of [k ++ h]. *)

Definition demo_render (v : value) : string :=
  match v with
  | VStr s => s
  | VNum _ => "#"
  | VBool b => if b then "true" else "false"
  | VNull | VUndefined => "null"
  | VArr _ => "[]"
  | VObj _ => "{}"
  end.

Definition demo_stringify (o : object) : string :=
  JsString.join "," (map (fun kv => fst kv +:+ "=" +:+ demo_render (snd kv)) o).

Definition demo : Platform :=
  {| sha256 := fun data => map byte_of_ascii (list_ascii_of_string data);
     secp256k1_verify := fun signatureHex hash publicKey =>
       match publicKey with
       | x02 :: k => Ret (String.eqb signatureHex (Hex.bytesToHex (k ++ hash)))
       | _ => Throw CurveError
       end;
     secp256k1_sign := fun hash k => Ret (Hex.bytesToHex (k ++ hash));
     secp256k1_getPublicKey := fun k => Ret (x02 :: k);
     JSON_stringify := demo_stringify;
     JSON_stringify_metadata := fun md => md_keyId md +:+ " " +:+ md_created md;
     Buffer_from_base64 := fun text =>
       default [] (Base64.decode_groups (Base64.strip_ascii_whitespace text)) |}.

Definition noOptions : SigningOptions :=
  {| opt_algorithm := None; useEnactDefaults := None; includeFields := None;
     excludeFields := None; additionalCriticalFields := None |}.

Definition enactDefaults : SigningOptions :=
  {| opt_algorithm := None; useEnactDefaults := Some true; includeFields := None;
     excludeFields := None; additionalCriticalFields := None |}.

Definition only (fieldNames : list string) : SigningOptions :=
  {| opt_algorithm := None; useEnactDefaults := None;
     includeFields := Some fieldNames;
     excludeFields := None; additionalCriticalFields := None |}.

(** The tool of the test suites. *)
Definition testTool : object :=
  [("name", VStr "test-tool"); ("description", VStr "A test tool");
   ("command", VStr "echo 'test'"); ("enact", VStr "1.0.0")].

(** The dummy signature of the test suites. *)
Definition dummySignature : Signature :=
  {| signature := ""; publicKey := VStr ""; algorithm := "secp256k1";
     timestamp := 0 |}.

Definition emptyHost : HostState :=
  {| loadConfig := DEFAULT_SECURITY_CONFIG; getAllTrustedPublicKeys := [] |}.

Definition emptyDisk : FileSystem :=
  {| files := ∅; writeProtected := ∅; unlinkProtected := ∅; lockedDirectories := ∅ |}.

(** A document with nothing but a command, as in the verification script. *)
Definition commandOnly : EnactDocument :=
  {| signatures := None; fields := [("command", VStr "mytools/fun")] |}.

(** The same document with a property named [hasOwnProperty]. *)
Definition shadowedCommand : EnactDocument :=
  {| signatures := None;
     fields := [("hasOwnProperty", VStr "x"); ("command", VStr "mytools/fun")] |}.

(** The test tool carrying the signatures [sigs]. *)
Definition signedBy (sigs : list Signature) : EnactDocument :=
  {| signatures := Some sigs; fields := testTool |}.

Definition unsignedTool : EnactDocument := signedBy [].

Definition bareTool : EnactDocument :=
  {| signatures := None; fields := testTool |}.

Definition strictTwo : SecurityConfig :=
  {| allowLocalUnsigned := Present false; minimumSignatures := Present 2%Z |}.

(** A key of the toy curve, a host that trusts it, and the signature it
    puts on the test tool. *)
Definition demoKey : KeyPair := {| privateKey := "01"; kp_publicKey := "0201" |}.

Definition trustingHost : HostState :=
  {| loadConfig := DEFAULT_SECURITY_CONFIG;
     getAllTrustedPublicKeys := [kp_publicKey demoKey] |}.

Definition demoSignature : Signature :=
  match SigningService.signDocument demo bareTool (privateKey demoKey)
          enactDefaults 0 with
  | Ret s => s
  | Throw _ => dummySignature
  end.

(** The same signature with its public key cleared. *)
Definition strippedSignature : Signature :=
  {| signature := signature demoSignature; publicKey := VStr "";
     algorithm := algorithm demoSignature; timestamp := timestamp demoSignature |}.

(** The key of the PEM test suites, as bytes: the compressed point and the
    scalar. *)
Definition samplePublicKey : list byte :=
  [x02; x8f; x49; xcb; x15; xb4; x64; x9d; x57; x82; x8c; x2b; xad;
  xd6; xe6; xc3; x2b; xdc; xc0; x10; xf3; x75; x3c; x61; x77; x64;
  x3e; xc8; x59; x59; xec; x42; xac].

Definition samplePrivateKey : list byte :=
  [x8f; x49; xcb; x15; xb4; x64; x9d; x57; x82; x8c; x2b; xad; xd6;
  xe6; xc3; x2b; xdc; xc0; x10; xf3; x75; x3c; x61; x77; x64; x3e;
  xc8; x59; x59; xec; x42; xac].

(** The scalar in upper case, as [hexToBytes] also reads it. *)
Definition upperCaseKey : string :=
  "8F49CB15B4649D57828C2BADD6E6C32BDCC010F3753C6177643EC85959EC42AC".

(** A 33-byte body that starts with 02 and goes on with 03 42 00. *)
Definition markerKey : list byte :=
  [x02; x03; x42; x00; x8f; x49; xcb; x15; xb4; x64; x9d; x57; x82;
  x8c; x2b; xad; xd6; xe6; xc3; x2b; xdc; xc0; x10; xf3; x75; x3c;
  x61; x77; x64; x3e; xc8; x59; x59].

Definition pemOf (body : string) : string :=
  "-----BEGIN PUBLIC KEY-----" +:+ newline +:+ body +:+ newline
  +:+ "-----END PUBLIC KEY-----".

Definition markerKeyPem : string := pemOf "AgNCAI9JyxW0ZJ1XgowrrdbmwyvcwBDzdTxhd2Q+yFlZ".

(** The raw compressed key and the two-byte body of the PEM test suite. *)
Definition rawKeyPem : string := pemOf "Ao9JyxW0ZJ1XgowrrdbmwyvcwBDzdTxhd2Q+yFlZ7EKs".

Definition shortPem : string := pemOf "EjQ=".

(** A store in which [k] has a public-key file and no private-key file. *)
Definition importedOnly : FileSystem :=
  {| files := {[ KeyManager.getPublicKeyPath "k" :=
                   {| content := "imported"; mode := KeyManager.mode_0o644 |} ]};
     writeProtected := ∅; unlinkProtected := ∅; lockedDirectories := ∅ |}.

(** ** Vocabulary of the further properties *)

(** [Object.keys(o)]. *)
Definition keys (o : object) : list string := map fst o.

(** Strictly ascending by code units. *)
Definition ascending (l : list string) : Prop :=
  StronglySorted (fun a b => String.leb a b = true /\ a <> b) l.

(** A plain object read as a document. *)
Definition asDocument (o : object) : EnactDocument :=
  {| signatures := None; fields := o |}.

(** One round of the [forEach] of [createCanonicalObject]. *)
Definition step (document : EnactDocument) (canonical : object) (fieldName : string)
  : object :=
  let v := document_get document fieldName in
  if FieldSelector.isNonEmpty v then set canonical fieldName v else canonical.

(** The canonical object of the test tool under the Enact defaults. *)
Definition testToolCanonical : object :=
  [("command", VStr "echo 'test'"); ("description", VStr "A test tool");
   ("enact", VStr "1.0.0"); ("name", VStr "test-tool")].


(** What the round trips need of the curve library: a signature made with
    a private key verifies under the public key derived from it. *)
Definition curve_sound (P : Platform) : Prop :=
  forall privateKey hash signatureHex publicKey,
    secp256k1_sign P hash privateKey = Ret signatureHex ->
    secp256k1_getPublicKey P privateKey = Ret publicKey ->
    secp256k1_verify P signatureHex hash publicKey = Ret true.

(** ** The signing service of the browser package
    ([packages/security-web/src/signing.ts])

    The [fieldConfig.ts] that this file imports is not among the sources.
    Its two selectors enter as the function [createCanonicalObject], which
    takes the value of [useEnactDefaults] first; the [CryptoUtils] that the
    file calls are, method for method, those of the host package. *)

Module WebSigningService.
Section WithPlatform.
Context (P : Platform).
Context (createCanonicalObject :
           bool -> EnactDocument -> SigningFieldOptions -> outcome object).

Definition getCanonicalDocument (document : EnactDocument)
    (options : SigningOptions) : outcome object :=
  createCanonicalObject (default false (useEnactDefaults options)) document
    {| sf_includeFields := includeFields options;
       sf_excludeFields := excludeFields options;
       sf_additionalCriticalFields := additionalCriticalFields options;
       customFieldConfig := None |}.

Definition signDocument (document : EnactDocument) (privateKey : string)
    (options : SigningOptions) (now : Z) : outcome Signature :=
  canonicalDocument ← getCanonicalDocument document options;
  let documentString := JSON_stringify P canonicalDocument in
  let messageHash := CryptoUtils.hash P documentString in
  signature ← CryptoUtils.sign P privateKey messageHash;
  publicKey ← CryptoUtils.getPublicKeyFromPrivate P privateKey;
  Ret {| signature := signature;
         publicKey := VStr publicKey;
         algorithm := default "secp256k1" (opt_algorithm options);
         timestamp := now |}.

(** No policy and no trusted keys: the signature is checked against the
    public key it carries.  A [publicKey] that is not a string makes
    [hexToBytes] throw inside [CryptoUtils.verify], which answers [false]. *)
Definition verifyDocument (document : EnactDocument) (sig : Signature)
    (options : SigningOptions) : outcome bool :=
  canonicalDocument ← getCanonicalDocument document options;
  let documentString := JSON_stringify P canonicalDocument in
  let messageHash := CryptoUtils.hash P documentString in
  Ret (match publicKey sig with
       | VStr publicKeyHex =>
           CryptoUtils.verify P publicKeyHex messageHash (signature sig)
       | _ => false
       end).

End WithPlatform.
End WebSigningService.

(** The selectors of [fieldConfig.ts], as the browser service takes them. *)
Definition sharedSelectors (useEnactDefaults : bool) (document : EnactDocument)
    (options : SigningFieldOptions) : outcome object :=
  FieldSelector.createCanonicalObject
    (if useEnactDefaults then EnactFieldSelector else GenericFieldSelector)
    document options.


(** ** [String.prototype.trim] and [endsWith] *)

Module JsTrim.

Fixpoint trimStart (s : string) : string :=
  match s with
  | EmptyString => EmptyString
  | String c r => if JsString.is_space c then trimStart r else s
  end.

Fixpoint trimEnd (s : string) : string :=
  match s with
  | EmptyString => EmptyString
  | String c r =>
      match trimEnd r with
      | EmptyString => if JsString.is_space c then EmptyString else String c EmptyString
      | r' => String c r'
      end
  end.

(** [s.trim()]. *)
Definition trim (s : string) : string := trimEnd (trimStart s).

(** [s.endsWith(suffix)]. *)
Definition endsWith (s suffix : string) : bool :=
  (String.length suffix <=? String.length s)
  && String.eqb (JsString.drop (String.length s - String.length suffix) s) suffix.

End JsTrim.

(** ** The rest of the key store: reading, listing and importing
    ([keyManager.ts]) *)

(** What [importPublicKey] ends with: it returns nothing, throws one of
    its two errors, or lets the error of [ensureDirectories] through as it
    is. *)
Inductive ImportResult : Type :=
| Imported
| DirectoryError (e : error)
    (* what [mkdirSync] threw, not wrapped *)
| PublicKeyAlreadyExists (keyId : string)
    (* Public key with ID '<keyId>' already exists *)
| FailedToImportPublicKey (keyId : string) (cause : error)
    (* Failed to import public key '<keyId>': <cause> *).

Module KeyStore.
Section WithPlatform.
Context (P : Platform).

(** [fs.readdirSync(dir)]: the names of the files of [dir].  The order is
    that of the map; the sources do not rely on one. *)
Definition entryOf (dir path : string) : option string :=
  let prefix := dir +:+ "/" in
  if JsString.startsWith path prefix then
    let name := JsString.drop (String.length prefix) path in
    if JsString.includes name "/" then None else Some name
  else None.

Definition readdirSync (dir : string) : io (list string) := fun fs =>
  (Ret (omap (entryOf dir) (map fst (map_to_list (files fs)))), fs).

Definition getKey (keyId : string) : io (option KeyPair) :=
  try_catch
    (let publicKeyPath := KeyManager.getPublicKeyPath keyId in
     let privateKeyPath := KeyManager.getPrivateKeyPath keyId in
     publicThere <~ existsSync publicKeyPath;;
     bothThere <~ (if publicThere then existsSync privateKeyPath else io_ret false);;
     if negb bothThere then io_ret None
     else
       publicKeyText <~ readFileSync publicKeyPath;;
       let publicKeyPem := JsTrim.trim publicKeyText in
       privateKeyText <~ readFileSync privateKeyPath;;
       let privateKeyPem := JsTrim.trim privateKeyText in
       let publicKey := CryptoUtils.pemToHex P publicKeyPem PUBLIC in
       let privateKey := CryptoUtils.pemToHex P privateKeyPem PRIVATE in
       io_ret (Some {| privateKey := privateKey; kp_publicKey := publicKey |}))
    (fun _ => io_ret None).

Definition getPublicKey (keyId : string) : io (option string) :=
  try_catch
    (let publicKeyPath := KeyManager.getPublicKeyPath keyId in
     there <~ existsSync publicKeyPath;;
     if negb there then io_ret None
     else
       publicKeyText <~ readFileSync publicKeyPath;;
       let publicKeyPem := JsTrim.trim publicKeyText in
       io_ret (Some (CryptoUtils.pemToHex P publicKeyPem PUBLIC)))
    (fun _ => io_ret None).

(** The callback of [map] in [getAllTrustedPublicKeys]: [null] is [None]. *)
Definition readTrustedKey (file : string) : io (option string) :=
  try_catch
    (text <~ readFileSync (KeyManager.TRUSTED_KEYS_DIR +:+ "/" +:+ file);;
     let publicKeyPem := JsTrim.trim text in
     io_ret (Some (CryptoUtils.pemToHex P publicKeyPem PUBLIC)))
    (fun _ => io_ret None).

(** [files.map(callback)], the file system threaded through. *)
Fixpoint mapM {A B} (f : A -> io B) (l : list A) : io (list B) :=
  match l with
  | [] => io_ret []
  | x :: r => y <~ f x;; ys <~ mapM f r;; io_ret (y :: ys)
  end.

Definition getAllTrustedPublicKeys : io (list string) :=
  try_catch
    (_ <~ KeyManager.ensureDirectories;;
     names <~ readdirSync KeyManager.TRUSTED_KEYS_DIR;;
     let pemFiles := List.filter (fun file => JsTrim.endsWith file ".pem") names in
     keys <~ mapM readTrustedKey pemFiles;;
     io_ret (omap id keys))
    (fun _ => io_ret []).

(** [ids.filter(callback)], the file system threaded through. *)
Fixpoint filterM {A} (f : A -> io bool) (l : list A) : io (list A) :=
  match l with
  | [] => io_ret []
  | x :: r =>
      keep <~ f x;; kept <~ filterM f r;;
      io_ret (if keep then x :: kept else kept)
  end.

(** The identifiers of the public-key files: the file names without the
    first [-public.pem] in them. *)
Definition publicKeyIds (names : list string) : list string :=
  map (fun file => JsString.replace_first file "-public.pem")
    (List.filter (fun file => JsTrim.endsWith file "-public.pem") names).

Definition listTrustedKeys : io (list string) :=
  try_catch
    (_ <~ KeyManager.ensureDirectories;;
     names <~ readdirSync KeyManager.TRUSTED_KEYS_DIR;;
     io_ret (publicKeyIds names))
    (fun _ => io_ret []).

Definition listKeys : io (list string) :=
  try_catch
    (_ <~ KeyManager.ensureDirectories;;
     names <~ readdirSync KeyManager.TRUSTED_KEYS_DIR;;
     let publicFiles := publicKeyIds names in
     filterM KeyManager.keyExists publicFiles)
    (fun _ => io_ret []).

(** Truthiness of [this.getPublicKey(keyId)]: [undefined] and the empty
    string are falsy. *)
Definition truthy (found : option string) : bool :=
  match found with
  | Some (String _ _) => true
  | _ => false
  end.

(** [description || 'Imported public key']. *)
Definition importDescription (description : option string) : string :=
  match description with
  | Some (String c r) => String c r
  | _ => "Imported public key"
  end.

(** [ensureDirectories] runs first, before the guard and outside the
    [try]: what it throws leaves the function as it is. *)
Definition importPublicKey (keyId publicKey : string) (description : option string)
    (now : string) : FileSystem -> ImportResult * FileSystem := fun fs =>
  match KeyManager.ensureDirectories fs with
  | (Throw e, fs) => (DirectoryError e, fs)
  | (Ret _, fs) =>
      match getPublicKey keyId fs with
      | (found, fs) =>
          if match found with Ret f => truthy f | Throw _ => false end
          then (PublicKeyAlreadyExists keyId, fs)
          else
            let body :=
              publicKeyPem <~ io_lift (CryptoUtils.hexToPem P publicKey PUBLIC);;
              _ <~ writeFileSync (KeyManager.getPublicKeyPath keyId) publicKeyPem
                     KeyManager.mode_0o644;;
              let metadata :=
                {| md_keyId := keyId; md_created := now; md_algorithm := "secp256k1";
                   md_description := Some (importDescription description) |} in
              writeFileSync (KeyManager.getMetadataPath keyId)
                (JSON_stringify_metadata P metadata) KeyManager.mode_0o644 in
            match body fs with
            | (Ret _, fs) => (Imported, fs)
            | (Throw cause, fs) =>
                let cleanup :=
                  try_catch
                    (_ <~ unlinkSync (KeyManager.getPublicKeyPath keyId);;
                     unlinkSync (KeyManager.getMetadataPath keyId))
                    (fun _ => io_ret tt) in
                (FailedToImportPublicKey keyId cause, snd (cleanup fs))
            end
      end
  end.

End WithPlatform.
End KeyStore.

(** The host as the key store on disk gives it: the trusted keys are those
    that [KeyManager.getAllTrustedPublicKeys] reads. *)
Definition hostOf (P : Platform) (config : SecurityConfig) (fs : FileSystem) : HostState :=
  {| loadConfig := config;
     getAllTrustedPublicKeys :=
       match fst (KeyStore.getAllTrustedPublicKeys P fs) with
       | Ret keys => keys
       | Throw _ => []
       end |}.


(** ** Vocabulary of the key-store properties *)

(** The three files of a key. *)
Definition keyPaths (keyId : string) : list string :=
  [KeyManager.getPublicKeyPath keyId; KeyManager.getPrivateKeyPath keyId;
   KeyManager.getMetadataPath keyId].

(** [fs'] has the protection of [fs]: what cannot be written, what cannot
    be removed, and where no directory can be made. *)
Definition sameProtection (fs fs' : FileSystem) : Prop :=
  writeProtected fs' = writeProtected fs
  /\ unlinkProtected fs' = unlinkProtected fs
  /\ lockedDirectories fs' = lockedDirectories fs.

(** [fs'] comes from [fs] by removing files among [paths], and by nothing
    else: no file is created or rewritten, and the protection is as
    before. *)
Definition onlyRemoves (paths : list string) (fs fs' : FileSystem) : Prop :=
  sameProtection fs fs'
  /\ (forall p, files fs' !! p = None \/ files fs' !! p = files fs !! p)
  /\ (forall p, p ∉ paths -> files fs' !! p = files fs !! p).

(** A pair whose private key is not hexadecimal, and a disk that holds a
    complete key [k]. *)
Definition brokenPair : KeyPair :=
  {| privateKey := "zz"; kp_publicKey := Hex.bytesToHex samplePublicKey |}.

(** A disk where the public-key file of [k] can be written but not
    removed. *)
Definition stuckDisk : FileSystem :=
  {| files := ∅;
     writeProtected := ∅;
     unlinkProtected := {[ KeyManager.getPublicKeyPath "k" ]};
     lockedDirectories := ∅ |}.

(** An empty disk where the directory of the private keys is not there
    and cannot be made. *)
Definition lockedDisk : FileSystem :=
  {| files := ∅;
     writeProtected := ∅;
     unlinkProtected := ∅;
     lockedDirectories := {[ KeyManager.PRIVATE_KEYS_DIR ]} |}.

Definition sampleDisk : FileSystem :=
  snd (KeyManager.generateAndStoreKey demo "k" None samplePrivateKey
         "2025-01-01" emptyDisk).

(** What the toy curve signs on the test tool with the sample scalar. *)
Definition sampleSignature : Signature :=
  match SigningService.signDocument demo bareTool (Hex.bytesToHex samplePrivateKey)
          enactDefaults 0 with
  | Ret s => s
  | Throw _ => dummySignature
  end.

(** What the callback of [getAllTrustedPublicKeys] makes of a file name. *)
Definition keyOfFile (P : Platform) (fs : FileSystem) (file : string) : option string :=
  match files fs !! (KeyManager.TRUSTED_KEYS_DIR +:+ "/" +:+ file) with
  | Some f => Some (CryptoUtils.pemToHex P (JsTrim.trim (content f)) PUBLIC)
  | None => None
  end.


(** ** Vocabulary of the PEM properties *)

(** The DER text that [hexToPem] builds for a private key, by its prefix. *)
Definition privateDer (prefix : string) (k pub : list byte) : string :=
  (prefix +:+ Hex.bytesToHex k) +:+ ("a144034200" +:+ Hex.bytesToHex pub).

(** A code unit that [hexToBytes] accepts. *)
Definition isHexDigit (c : ascii) : bool :=
  match Hex.asciiToBase16 c with
  | Some _ => true
  | None => false
  end.

(** An uncompressed point whose two coordinates are the sample scalar, and
    the sample scalar as the browser writes it. *)
Definition uncompressedPem : string :=
  pemOf (Base64.btoa (x04 :: samplePrivateKey ++ samplePrivateKey)).

Definition samplePrivatePem : string :=
  match WebCryptoUtils.hexToPem demo (Hex.bytesToHex samplePrivateKey) PRIVATE with
  | Ret pem => pem
  | Throw _ => EmptyString
  end.


(** ** Vocabulary of the policy properties *)

(** A policy that asks for [m] signatures and accepts no unsigned
    document. *)
Definition requiring (m : Z) : SecurityConfig :=
  {| allowLocalUnsigned := Present false; minimumSignatures := Present m |}.

(** Options that name no field list of their own. *)
Definition plainOptions (options : SigningOptions) : Prop :=
  includeFields options = None
  /\ excludeFields options = None
  /\ additionalCriticalFields options = None.


(** ** [PemUtils] of the browser package: key pairs as PEM
    (the class [PemUtils], as far as it does not touch the browser's
    storage) *)

(** What [validateKeyPair] answers: [{ isValid: true }], or [isValid: false]
    with one of its two kinds of error text. *)
Inductive Validation : Type :=
| Valid
| FailedValidationTest          (* Key pair failed validation test *)
| ValidationError (cause : error).

Record PemKeyPair : Type := {
  privateKeyPem : string;
  publicKeyPem : string
}.

Module PemUtils.
Section WithPlatform.
Context (P : Platform).

Definition keyPairToPem (keyPair : KeyPair) : outcome PemKeyPair :=
  privateKeyPem ← WebCryptoUtils.hexToPem P (privateKey keyPair) PRIVATE;
  publicKeyPem ← WebCryptoUtils.hexToPem P (kp_publicKey keyPair) PUBLIC;
  Ret {| privateKeyPem := privateKeyPem; publicKeyPem := publicKeyPem |}.

(** [randomPrivateKey] is the draw of [secp256k1.utils.randomPrivateKey()]. *)
Definition generateKeyPairAsPem (randomPrivateKey : list byte)
  : outcome (PemKeyPair * KeyPair) :=
  keyPair ← CryptoUtils.generateKeyPair P randomPrivateKey;
  privateKeyPem ← WebCryptoUtils.hexToPem P (privateKey keyPair) PRIVATE;
  publicKeyPem ← WebCryptoUtils.hexToPem P (kp_publicKey keyPair) PUBLIC;
  Ret ({| privateKeyPem := privateKeyPem; publicKeyPem := publicKeyPem |}, keyPair).

(** [if (publicKeyPem)]: [undefined] and the empty string are falsy. *)
Definition pemToKeyPair (privateKeyPem : string) (publicKeyPem : option string)
  : outcome KeyPair :=
  privateKey ← WebCryptoUtils.pemToHex privateKeyPem PRIVATE;
  publicKey ←
    match publicKeyPem with
    | Some (String c r) => WebCryptoUtils.pemToHex (String c r) PUBLIC
    | _ => CryptoUtils.getPublicKeyFromPrivate P privateKey
    end;
  Ret {| privateKey := privateKey; kp_publicKey := publicKey |}.

(** The body of the [try] of [validateKeyPair], up to the test. *)
Definition validationTest (privateKeyPem : string) (publicKeyPem : option string)
  : outcome bool :=
  keyPair ← pemToKeyPair privateKeyPem publicKeyPem;
  let testMessage := "test-message-for-validation" in
  let messageHash := CryptoUtils.hash P testMessage in
  signature ← CryptoUtils.sign P (privateKey keyPair) messageHash;
  Ret (CryptoUtils.verify P (kp_publicKey keyPair) messageHash signature).

Definition validateKeyPair (privateKeyPem : string) (publicKeyPem : option string)
  : Validation :=
  match validationTest privateKeyPem publicKeyPem with
  | Ret true => Valid
  | Ret false => FailedValidationTest
  | Throw cause => ValidationError cause
  end.

End WithPlatform.
End PemUtils.

(** The curve signs with the scalar [k], whatever the digest. *)
Definition curve_signs (P : Platform) (k : list byte) : Prop :=
  forall hash, exists signatureHex, secp256k1_sign P hash k = Ret signatureHex.


(* ================================================================== *)
(** * Part II. Properties                                              *)
(* ================================================================== *)

(** ** Strings *)

Module StringFacts.
Import JsString.

Lemma app_cons (c : ascii) (s t : string) : String c s +:+ t = String c (s +:+ t).
Proof. reflexivity. Qed.

Lemma app_nil_l (t : string) : "" +:+ t = t.
Proof. reflexivity. Qed.

Lemma app_nil_r (s : string) : s +:+ "" = s.
Proof.
  induction s as [|c s IH]; [reflexivity|]. now rewrite app_cons, IH.
Qed.

Lemma app_assoc (a b c : string) : (a +:+ b) +:+ c = a +:+ (b +:+ c).
Proof.
  induction a as [|x a IH]; [reflexivity|]. now rewrite !app_cons, IH.
Qed.

Lemma length_app (a b : string) :
  String.length (a +:+ b) = String.length a + String.length b.
Proof.
  induction a as [|x a IH]; [reflexivity|]. rewrite app_cons. simpl. now rewrite IH.
Qed.

Lemma startsWith_app (a b : string) : startsWith (a +:+ b) a = true.
Proof.
  induction a as [|x a IH]; [reflexivity|].
  rewrite app_cons. simpl. now rewrite Ascii.eqb_refl, IH.
Qed.

Lemma drop_app_length (a b : string) : drop (String.length a) (a +:+ b) = b.
Proof.
  induction a as [|x a IH]; [now destruct b|]. rewrite app_cons. exact IH.
Qed.

Lemma take_app_length (a b : string) : take (String.length a) (a +:+ b) = a.
Proof.
  induction a as [|x a IH]; [reflexivity|]. rewrite app_cons. simpl. now rewrite IH.
Qed.

Lemma take_length (a : string) : take (String.length a) a = a.
Proof. induction a as [|x a IH]; simpl; [reflexivity | now rewrite IH]. Qed.

Lemma take_drop (n : nat) (s : string) : take n s +:+ drop n s = s.
Proof.
  revert s; induction n as [|n IH]; intros [|c s]; simpl; try reflexivity.
  now rewrite app_cons, IH.
Qed.

Lemma length_drop (n : nat) (s : string) :
  String.length (drop n s) = String.length s - n.
Proof.
  revert s; induction n as [|n IH]; intros [|c s]; simpl; try reflexivity.
  apply IH.
Qed.

Lemma every_app p a b : every p (a +:+ b) = every p a && every p b.
Proof.
  induction a as [|x a IH]; [reflexivity|].
  rewrite app_cons. simpl. now rewrite IH, andb_assoc.
Qed.

Lemma every_take p n s : every p s = true -> every p (take n s) = true.
Proof.
  revert s; induction n as [|n IH]; intros [|c s]; simpl; try reflexivity.
  intros [Hc Hs]%andb_true_iff. rewrite Hc. simpl. now apply IH.
Qed.

Lemma every_drop p n s : every p s = true -> every p (drop n s) = true.
Proof.
  revert s; induction n as [|n IH]; intros [|c s]; simpl; try tauto.
  intros [Hc Hs]%andb_true_iff. now apply IH.
Qed.

Lemma every_weaken (p q : ascii -> bool) s :
  (forall c, p c = true -> q c = true) -> every p s = true -> every q s = true.
Proof.
  intros Hpq. induction s as [|c s IH]; simpl; [reflexivity|].
  intros [Hc Hs]%andb_true_iff. now rewrite (Hpq _ Hc), IH.
Qed.

Lemma remove_spaces_app a b :
  remove_spaces (a +:+ b) = remove_spaces a +:+ remove_spaces b.
Proof.
  induction a as [|x a IH]; [reflexivity|].
  rewrite app_cons. simpl. destruct (is_space x); [exact IH|].
  now rewrite app_cons, IH.
Qed.

Lemma remove_spaces_id s :
  every (fun c => negb (is_space c)) s = true -> remove_spaces s = s.
Proof.
  induction s as [|c s IH]; simpl; [reflexivity|].
  intros [Hc Hs]%andb_true_iff.
  apply negb_true_iff in Hc. rewrite Hc. now rewrite IH.
Qed.

Lemma index_from_eq (needle s : string) :
  index_from needle s =
  if startsWith s needle then Some 0
  else match s with
       | EmptyString => None
       | String _ r => S <$> index_from needle r
       end.
Proof. now destruct s. Qed.

(** The first occurrence of a pattern lies behind a text that has no code
    unit equal to the first one of the pattern. *)
Lemma index_from_behind (c : ascii) (pat x rest : string) :
  every (fun d => negb (Ascii.eqb d c)) x = true ->
  index_from (String c pat) (x +:+ String c pat +:+ rest)
  = Some (String.length x).
Proof.
  induction x as [|d x IH]; intros Hx.
  - rewrite app_nil_l, app_cons. cbn [String.length index_from startsWith].
    now rewrite Ascii.eqb_refl, startsWith_app.
  - simpl in Hx. apply andb_true_iff in Hx as [Hd Hx].
    apply negb_true_iff, Ascii.eqb_neq in Hd.
    rewrite app_cons. cbn [String.length index_from startsWith].
    rewrite Ascii.eqb_sym, (proj2 (Ascii.eqb_neq d c) Hd). cbn [andb].
    now rewrite (IH Hx).
Qed.

Lemma replace_first_prefix (pat rest : string) :
  replace_first (pat +:+ rest) pat = rest.
Proof.
  unfold replace_first.
  assert (H : index_from pat (pat +:+ rest) = Some 0).
  { rewrite index_from_eq. now rewrite startsWith_app. }
  rewrite H. cbn [take Nat.add]. rewrite app_nil_l. apply drop_app_length.
Qed.

Lemma replace_first_behind (c : ascii) (pat x : string) :
  every (fun d => negb (Ascii.eqb d c)) x = true ->
  replace_first (x +:+ String c pat) (String c pat) = x.
Proof.
  intros Hx. unfold replace_first.
  pose proof (index_from_behind c pat x "" Hx) as H.
  rewrite app_nil_r in H. rewrite H.
  rewrite take_app_length.
  rewrite <- (app_nil_r (x +:+ String c pat)) at 1.
  rewrite <- length_app, drop_app_length.
  apply app_nil_r.
Qed.

Lemma join_cons sep x r :
  r <> [] -> join sep (x :: r) = x +:+ sep +:+ join sep r.
Proof. now destruct r. Qed.

Lemma join_snoc sep l y : join sep (l ++ [y]) = terminated sep l +:+ y.
Proof.
  induction l as [|x l IH]; [reflexivity|].
  change ((x :: l) ++ [y]) with (x :: (l ++ [y])).
  rewrite join_cons by now destruct l.
  cbn [terminated]. now rewrite IH, !app_assoc.
Qed.

Lemma concat_pieces width fuel s :
  0 < width -> String.length s <= fuel ->
  terminated "" (pieces width fuel s) = s.
Proof.
  intros Hw. revert s; induction fuel as [|fuel IH]; intros s Hs.
  - destruct s; [reflexivity | simpl in Hs; lia].
  - destruct s as [|c s]; [reflexivity|].
    cbn [pieces terminated]. rewrite IH.
    + rewrite app_nil_l. apply take_drop.
    + rewrite length_drop. simpl in *. lia.
Qed.

Lemma every_pieces p width fuel s :
  every p s = true -> Forall (fun l => every p l = true) (pieces width fuel s).
Proof.
  revert s; induction fuel as [|fuel IH]; intros s Hs; [constructor|].
  destruct s as [|c s]; [constructor|].
  cbn [pieces]. constructor.
  - now apply every_take.
  - apply IH. now apply every_drop.
Qed.

Lemma every_terminated p sep l :
  every p sep = true -> Forall (fun x => every p x = true) l ->
  every p (terminated sep l) = true.
Proof.
  intros Hsep. induction 1 as [|x l Hx _ IH]; [reflexivity|].
  cbn [terminated]. now rewrite !every_app, Hx, Hsep, IH.
Qed.

Lemma remove_spaces_terminated sep l :
  remove_spaces sep = "" ->
  remove_spaces (terminated sep l) = remove_spaces (terminated "" l).
Proof.
  intros Hsep. induction l as [|x l IH]; [reflexivity|].
  cbn [terminated]. now rewrite !remove_spaces_app, Hsep, IH.
Qed.

End StringFacts.

(** ** The hexadecimal and base64 codecs *)

Module HexFacts.
Import JsString StringFacts Hex.

Lemma hexToBytes_byteToHex (b : byte) (r : string) :
  hexToBytes (byteToHex b +:+ r) =
  match hexToBytes r with
  | Ret bs => Ret (b :: bs)
  | Throw _ => Throw HexDecodeError
  end.
Proof. destruct b; reflexivity. Qed.

Lemma hexToBytes_bytesToHex_app (bs : list byte) (r : string) (rs : list byte) :
  hexToBytes r = Ret rs -> hexToBytes (bytesToHex bs +:+ r) = Ret (bs ++ rs).
Proof.
  intros Hr. induction bs as [|b bs IH]; [exact Hr|].
  cbn [bytesToHex]. now rewrite app_assoc, hexToBytes_byteToHex, IH.
Qed.

Lemma hexToBytes_bytesToHex (bs : list byte) : hexToBytes (bytesToHex bs) = Ret bs.
Proof.
  rewrite <- (app_nil_r (bytesToHex bs)).
  rewrite (hexToBytes_bytesToHex_app bs "" []); [|reflexivity].
  now rewrite List.app_nil_r.
Qed.

(** Decoding goes through a concatenation, byte by byte. *)
Lemma hexToBytes_app (x : list byte) :
  forall a b y,
    hexToBytes a = Ret x -> hexToBytes b = Ret y ->
    hexToBytes (a +:+ b) = Ret (x ++ y).
Proof.
  induction x as [|c x IH]; intros a b y Ha Hb.
  - destruct a as [|c1 [|c2 r]]; [now rewrite app_nil_l | discriminate |].
    cbn [hexToBytes] in Ha.
    destruct (asciiToBase16 c1), (asciiToBase16 c2); try discriminate.
    destruct (Byte.of_N _); [|discriminate].
    destruct (hexToBytes r); discriminate.
  - destruct a as [|c1 [|c2 r]]; [discriminate | discriminate |].
    cbn [hexToBytes] in Ha. rewrite !app_cons. cbn [hexToBytes].
    destruct (asciiToBase16 c1), (asciiToBase16 c2); try discriminate.
    destruct (Byte.of_N _) as [d|]; [|discriminate].
    destruct (hexToBytes r) as [rs|] eqn:Hr; [|discriminate].
    injection Ha as -> ->. now rewrite (IH r b y Hr Hb).
Qed.

Lemma bytesToHex_app (a b : list byte) :
  bytesToHex (a ++ b) = bytesToHex a +:+ bytesToHex b.
Proof.
  induction a as [|x a IH]; [reflexivity|].
  cbn [bytesToHex app]. now rewrite IH, app_assoc.
Qed.

Lemma length_bytesToHex (bs : list byte) :
  String.length (bytesToHex bs) = 2 * length bs.
Proof.
  induction bs as [|b bs IH]; [reflexivity|].
  cbn [bytesToHex]. rewrite length_app, IH. simpl. lia.
Qed.

End HexFacts.

Module Base64Facts.
Import JsString StringFacts Base64.

Lemma value_char (s : sextet) : value (char s) = Some s.
Proof.
  destruct s as [[[[[b5 b4] b3] b2] b1] b0].
  destruct b5, b4, b3, b2, b1, b0; vm_compute; reflexivity.
Qed.

Lemma char_not_pad (s : sextet) : Ascii.eqb (char s) pad = false.
Proof.
  destruct s as [[[[[b5 b4] b3] b2] b1] b0].
  destruct b5, b4, b3, b2, b1, b0; vm_compute; reflexivity.
Qed.

Lemma char_plain (s : sextet) : plain (char s) = true.
Proof.
  destruct s as [[[[[b5 b4] b3] b2] b1] b0].
  destruct b5, b4, b3, b2, b1, b0; vm_compute; reflexivity.
Qed.

Lemma list_ind3 {A} (Q : list A -> Prop) :
  Q [] -> (forall a, Q [a]) -> (forall a b, Q [a; b]) ->
  (forall a b c r, Q r -> Q (a :: b :: c :: r)) ->
  forall l, Q l.
Proof.
  intros H0 H1 H2 H3.
  fix IH 1. intros [|a [|b [|c r]]];
    [exact H0 | apply H1 | apply H2 | apply H3; apply IH].
Qed.

Lemma dec2_enc1 (a : byte) :
  decode_groups (enc1 a) = Some [a].
Proof.
  unfold enc1. destruct (Byte.to_bits a) as [a0 [a1 [a2 [a3 [a4 [a5 [a6 a7]]]]]]] eqn:Ha.
  cbn [decode_groups]. change (Ascii.eqb pad pad) with true. cbn iota.
  unfold dec2. rewrite !value_char. now rewrite <- Ha, Byte.of_bits_to_bits.
Qed.

Lemma dec3_enc2 (a b : byte) :
  decode_groups (enc2 a b) = Some [a; b].
Proof.
  unfold enc2.
  destruct (Byte.to_bits a) as [a0 [a1 [a2 [a3 [a4 [a5 [a6 a7]]]]]]] eqn:Ha.
  destruct (Byte.to_bits b) as [b0 [b1 [b2 [b3 [b4 [b5 [b6 b7]]]]]]] eqn:Hb.
  cbn [decode_groups]. change (Ascii.eqb pad pad) with true. cbn iota.
  rewrite char_not_pad.
  unfold dec3. rewrite !value_char.
  now rewrite <- Ha, <- Hb, !Byte.of_bits_to_bits.
Qed.

Lemma dec4_enc3 (a b c : byte) (k : string) :
  exists c1 c2 c3 c4,
    enc3 a b c k = String c1 (String c2 (String c3 (String c4 k)))
    /\ dec4 c1 c2 c3 c4 = Some [a; b; c]
    /\ Ascii.eqb c4 pad = false
    /\ plain c1 && plain c2 && plain c3 && plain c4 = true.
Proof.
  unfold enc3.
  destruct (Byte.to_bits a) as [a0 [a1 [a2 [a3 [a4 [a5 [a6 a7]]]]]]] eqn:Ha.
  destruct (Byte.to_bits b) as [b0 [b1 [b2 [b3 [b4 [b5 [b6 b7]]]]]]] eqn:Hb.
  destruct (Byte.to_bits c) as [c0 [c1 [c2 [c3 [c4 [c5 [c6 c7]]]]]]] eqn:Hc.
  do 4 eexists. split; [reflexivity|]. split; [|split].
  - unfold dec4. rewrite !value_char.
    now rewrite <- Ha, <- Hb, <- Hc, !Byte.of_bits_to_bits.
  - apply char_not_pad.
  - now rewrite !char_plain.
Qed.

Lemma encode_empty (bs : list byte) : encode bs = "" -> bs = [].
Proof.
  destruct bs as [|a [|b [|c r]]]; [reflexivity| | |]; cbn [encode].
  - unfold enc1. now destruct (Byte.to_bits a) as [? [? [? [? [? [? [? ?]]]]]]].
  - unfold enc2. destruct (Byte.to_bits a) as [? [? [? [? [? [? [? ?]]]]]]].
    now destruct (Byte.to_bits b) as [? [? [? [? [? [? [? ?]]]]]]].
  - destruct (dec4_enc3 a b c (encode r)) as (? & ? & ? & ? & -> & _). discriminate.
Qed.

(** Reading back what the writer wrote. *)
Lemma decode_encode (bs : list byte) : decode_groups (encode bs) = Some bs.
Proof.
  induction bs as [|a|a b|a b c r IH] using list_ind3.
  - reflexivity.
  - apply dec2_enc1.
  - apply dec3_enc2.
  - cbn [encode].
    destruct (dec4_enc3 a b c (encode r)) as (c1 & c2 & c3 & c4 & -> & Hd & Hp & _).
    cbn [decode_groups]. destruct (encode r) as [|x k] eqn:E.
    + apply encode_empty in E as ->. now rewrite Hp, Hd.
    + now rewrite Hd, IH.
Qed.

Lemma encode_plain_or_pad (bs : list byte) :
  every (fun c => plain c || Ascii.eqb c pad) (encode bs) = true.
Proof.
  induction bs as [|a|a b|a b c r IH] using list_ind3.
  - reflexivity.
  - cbn [encode]. unfold enc1.
    destruct (Byte.to_bits a) as [? [? [? [? [? [? [? ?]]]]]]].
    cbn [every]. now rewrite !char_plain.
  - cbn [encode]. unfold enc2.
    destruct (Byte.to_bits a) as [? [? [? [? [? [? [? ?]]]]]]].
    destruct (Byte.to_bits b) as [? [? [? [? [? [? [? ?]]]]]]].
    cbn [every]. now rewrite !char_plain.
  - cbn [encode].
    destruct (dec4_enc3 a b c (encode r)) as (c1 & c2 & c3 & c4 & -> & _ & _ & Hp).
    apply andb_true_iff in Hp as [Hp H4]. apply andb_true_iff in Hp as [Hp H3].
    apply andb_true_iff in Hp as [H1 H2].
    cbn [every]. now rewrite H1, H2, H3, H4, IH.
Qed.

Lemma encode_every (q : ascii -> bool) (bs : list byte) :
  (forall c, plain c || Ascii.eqb c pad = true -> q c = true) ->
  every q (encode bs) = true.
Proof.
  intros Hq. eapply every_weaken; [|apply encode_plain_or_pad]. exact Hq.
Qed.

Lemma strip_ascii_whitespace_id (s : string) :
  every (fun c => negb (is_ascii_whitespace c)) s = true ->
  strip_ascii_whitespace s = s.
Proof.
  induction s as [|c s IH]; simpl; [reflexivity|].
  intros [Hc Hs]%andb_true_iff.
  apply negb_true_iff in Hc. rewrite Hc. now rewrite IH.
Qed.

Lemma plain_or_pad_cases (c : ascii) :
  plain c || Ascii.eqb c pad = true ->
  is_space c = false /\ is_ascii_whitespace c = false /\ Ascii.eqb c "-" = false.
Proof.
  intros [H|H]%orb_true_iff.
  - unfold plain in H. apply andb_true_iff in H as [H H3].
    apply andb_true_iff in H as [H1 H2].
    now rewrite !negb_true_iff in *.
  - apply Ascii.eqb_eq in H as ->. now vm_compute.
Qed.

(** [atob] reads back what [btoa] wrote. *)
Lemma atob_btoa (bs : list byte) : atob (btoa bs) = Ret bs.
Proof.
  unfold atob, btoa. rewrite strip_ascii_whitespace_id.
  - now rewrite decode_encode.
  - apply encode_every. intros c Hc.
    apply plain_or_pad_cases in Hc as (_ & -> & _). reflexivity.
Qed.

End Base64Facts.

(** ** PEM texts *)

Module PemFacts.
Import JsString StringFacts Hex HexFacts Base64 Base64Facts.

Lemma endMarker_dash (type : KeyType) :
  endMarker type = String "-" (drop 1 (endMarker type)).
Proof. now destruct type. Qed.

Lemma newline_not_dash :
  every (fun d => negb (Ascii.eqb d "-")) newline = true.
Proof. reflexivity. Qed.

(** The reader finds between the markers what the writer put there. *)
Lemma base64Content_formatPem (der : list byte) (type : KeyType) :
  base64Content (formatPem (encode der) type) type = encode der.
Proof.
  unfold base64Content, formatPem, match_1_64.
  set (b64 := encode der).
  set (lines := pieces 64 (String.length b64) b64).
  assert (Hplain : forall q : ascii -> bool,
             (forall c, plain c || Ascii.eqb c pad = true -> q c = true) ->
             every q b64 = true) by (intros q Hq; now apply encode_every).
  change ([beginMarker type] ++ lines ++ [endMarker type])
    with (beginMarker type :: (lines ++ [endMarker type])).
  rewrite join_cons by now destruct lines.
  rewrite replace_first_prefix, join_snoc, <- app_assoc.
  rewrite (endMarker_dash type).
  rewrite replace_first_behind.
  - rewrite remove_spaces_app.
    rewrite (remove_spaces_terminated newline) by reflexivity.
    unfold lines. rewrite concat_pieces by lia.
    change (remove_spaces newline) with "". rewrite app_nil_l.
    apply remove_spaces_id, Hplain.
    intros c Hc. apply plain_or_pad_cases in Hc as (-> & _ & _). reflexivity.
  - rewrite every_app, newline_not_dash. cbn [andb].
    apply every_terminated; [reflexivity|].
    apply every_pieces, Hplain.
    intros c Hc. apply plain_or_pad_cases in Hc as (_ & _ & ->). reflexivity.
Qed.

Lemma public_prefix_bytes :
  exists pb, hexToBytes CryptoUtils.publicDerPrefix = Ret pb
             /\ bytesToHex pb = CryptoUtils.publicDerPrefix.
Proof. eexists. split; vm_compute; reflexivity. Qed.

Lemma host_private_prefix_bytes :
  exists pb, hexToBytes CryptoUtils.privateDerPrefix = Ret pb
             /\ bytesToHex pb = CryptoUtils.privateDerPrefix.
Proof. eexists. split; vm_compute; reflexivity. Qed.

Lemma web_private_prefix_bytes :
  exists pb, hexToBytes WebCryptoUtils.privateDerPrefix = Ret pb
             /\ bytesToHex pb = WebCryptoUtils.privateDerPrefix.
Proof. eexists. split; vm_compute; reflexivity. Qed.

Lemma suffix_bytes :
  exists sb, hexToBytes "a144034200" = Ret sb /\ bytesToHex sb = "a144034200".
Proof. eexists. split; vm_compute; reflexivity. Qed.

(** The DER text of a public key is the text of some bytes. *)
Lemma public_der (pub : list byte) :
  exists der, bytesToHex der = CryptoUtils.publicDerPrefix +:+ bytesToHex pub.
Proof.
  destruct public_prefix_bytes as (pb & _ & Hpb).
  exists (pb ++ pub). now rewrite bytesToHex_app, Hpb.
Qed.

Lemma private_der (prefix : string) (k pub : list byte) :
  (exists pb, hexToBytes prefix = Ret pb /\ bytesToHex pb = prefix) ->
  exists der,
    bytesToHex der =
    (prefix +:+ bytesToHex k) +:+ ("a144034200" +:+ bytesToHex pub).
Proof.
  intros (pb & _ & Hpb). destruct suffix_bytes as (sb & _ & Hsb).
  exists ((pb ++ k) ++ (sb ++ pub)). now rewrite !bytesToHex_app, Hpb, Hsb.
Qed.

Lemma slice_after_prefix (prefix body rest : string) (a b : Z) :
  a = Z.of_nat (String.length prefix) ->
  b = (a + Z.of_nat (String.length body))%Z ->
  substring ((prefix +:+ body) +:+ rest) a b = body.
Proof.
  intros -> ->. unfold substring.
  rewrite Z.min_l, Z.max_r by lia.
  rewrite Nat2Z.id.
  replace (Z.to_nat _ - _) with (String.length body) by lia.
  now rewrite app_assoc, drop_app_length, take_app_length.
Qed.

Lemma public_marker_index (r : string) :
  indexOf (CryptoUtils.publicDerPrefix +:+ r) "034200" = 40%Z.
Proof. vm_compute. reflexivity. Qed.

Lemma host_private_marker_index (r : string) :
  indexOf (CryptoUtils.privateDerPrefix +:+ r) "0420" = 62%Z.
Proof. vm_compute. reflexivity. Qed.

Lemma web_private_marker_index (r : string) :
  indexOf (WebCryptoUtils.privateDerPrefix +:+ r) "0420" = 68%Z.
Proof. vm_compute. reflexivity. Qed.

End PemFacts.

Module PemRoundTrip.
Import JsString StringFacts Hex HexFacts Base64 Base64Facts PemFacts.

Lemma bind_Ret {A B} (a : A) (k : A -> outcome B) : (Ret a ≫= k) = k a.
Proof. reflexivity. Qed.

Lemma host_public (P : Platform) (pub : list byte) :
  reads_base64 P -> length pub = 33 ->
  exists pem,
    CryptoUtils.hexToPem P (bytesToHex pub) PUBLIC = Ret pem
    /\ CryptoUtils.pemToHex P pem PUBLIC = bytesToHex pub.
Proof.
  intros Hread Hlen. destruct (public_der pub) as (der & Hder).
  exists (formatPem (encode der) PUBLIC). split.
  - unfold CryptoUtils.hexToPem.
    now rewrite hexToBytes_bytesToHex, !bind_Ret, <- Hder, hexToBytes_bytesToHex.
  - unfold CryptoUtils.pemToHex.
    rewrite base64Content_formatPem, Hread, Hder, public_marker_index.
    rewrite <- (app_nil_r (_ +:+ _)). apply slice_after_prefix; [reflexivity|].
    rewrite length_bytesToHex, Hlen. reflexivity.
Qed.

Lemma web_public (P : Platform) (pub : list byte) :
  length pub = 33 ->
  exists pem,
    WebCryptoUtils.hexToPem P (bytesToHex pub) PUBLIC = Ret pem
    /\ WebCryptoUtils.pemToHex pem PUBLIC = Ret (bytesToHex pub).
Proof.
  intros Hlen. destruct (public_der pub) as (der & Hder).
  exists (formatPem (btoa der) PUBLIC). split.
  - unfold WebCryptoUtils.hexToPem.
    rewrite hexToBytes_bytesToHex, !bind_Ret.
    change WebCryptoUtils.publicDerPrefix with CryptoUtils.publicDerPrefix.
    now rewrite <- Hder, hexToBytes_bytesToHex.
  - unfold WebCryptoUtils.pemToHex, btoa.
    rewrite base64Content_formatPem. fold (btoa der). rewrite atob_btoa, bind_Ret.
    rewrite Hder, public_marker_index. cbn [Z.eqb negb].
    f_equal. rewrite <- (app_nil_r (_ +:+ _)). apply slice_after_prefix; [reflexivity|].
    rewrite length_bytesToHex, Hlen. reflexivity.
Qed.

Lemma host_private (P : Platform) (k pub : list byte) :
  reads_base64 P -> length k = 32 -> secp256k1_getPublicKey P k = Ret pub ->
  exists pem,
    CryptoUtils.hexToPem P (bytesToHex k) PRIVATE = Ret pem
    /\ CryptoUtils.pemToHex P pem PRIVATE = bytesToHex k.
Proof.
  intros Hread Hlen Hpub.
  destruct (private_der _ k pub host_private_prefix_bytes) as (der & Hder).
  exists (formatPem (encode der) PRIVATE). split.
  - unfold CryptoUtils.hexToPem, CryptoUtils.getPublicKeyFromPrivate.
    rewrite hexToBytes_bytesToHex, !bind_Ret, Hpub, !bind_Ret.
    now rewrite <- Hder, hexToBytes_bytesToHex.
  - unfold CryptoUtils.pemToHex.
    rewrite base64Content_formatPem, Hread, Hder.
    rewrite app_assoc, host_private_marker_index, <- app_assoc.
    apply slice_after_prefix; [reflexivity|].
    rewrite length_bytesToHex, Hlen. reflexivity.
Qed.

Lemma web_private (P : Platform) (k pub : list byte) :
  length k = 32 -> secp256k1_getPublicKey P k = Ret pub ->
  exists pem,
    WebCryptoUtils.hexToPem P (bytesToHex k) PRIVATE = Ret pem
    /\ WebCryptoUtils.pemToHex pem PRIVATE = Ret (bytesToHex k).
Proof.
  intros Hlen Hpub.
  destruct (private_der _ k pub web_private_prefix_bytes) as (der & Hder).
  exists (formatPem (btoa der) PRIVATE). split.
  - unfold WebCryptoUtils.hexToPem, CryptoUtils.getPublicKeyFromPrivate.
    rewrite hexToBytes_bytesToHex, !bind_Ret, Hpub, !bind_Ret.
    now rewrite <- Hder, hexToBytes_bytesToHex.
  - unfold WebCryptoUtils.pemToHex, btoa.
    rewrite base64Content_formatPem. fold (btoa der). rewrite atob_btoa, bind_Ret.
    rewrite Hder.
    rewrite app_assoc, web_private_marker_index, <- app_assoc.
    change (68 + 4)%Z with 72%Z. change (72 =? 3)%Z with false. cbn iota.
    rewrite slice_after_prefix with (body := bytesToHex k).
    + now rewrite length_bytesToHex, Hlen.
    + reflexivity.
    + now rewrite length_bytesToHex, Hlen.
Qed.

(** Both writers read their argument as bytes: a hex text in upper case
    is written as the same text in lower case is. *)
Lemma host_writer_by_bytes (P : Platform) (h : string) (bytes : list byte)
    (type : KeyType) :
  hexToBytes h = Ret bytes ->
  CryptoUtils.hexToPem P h type = CryptoUtils.hexToPem P (bytesToHex bytes) type.
Proof.
  intros Hh. unfold CryptoUtils.hexToPem, CryptoUtils.getPublicKeyFromPrivate.
  rewrite Hh, hexToBytes_bytesToHex, !bind_Ret.
  destruct type.
  - destruct public_prefix_bytes as (pb & Hpb & _).
    rewrite !bind_Ret.
    rewrite (hexToBytes_app pb _ _ bytes Hpb Hh).
    now rewrite (hexToBytes_app pb _ _ bytes Hpb (hexToBytes_bytesToHex bytes)).
  - destruct (secp256k1_getPublicKey P bytes) as [pub|e]; [|reflexivity].
    rewrite !bind_Ret.
    destruct host_private_prefix_bytes as (pb & Hpb & _).
    destruct suffix_bytes as (sb & Hsb & _).
    pose proof (hexToBytes_app sb _ _ pub Hsb (hexToBytes_bytesToHex pub)) as Htail.
    rewrite (hexToBytes_app (pb ++ bytes) _ _ _ (hexToBytes_app pb _ _ bytes Hpb Hh) Htail).
    now rewrite (hexToBytes_app (pb ++ bytes) _ _ _
                   (hexToBytes_app pb _ _ bytes Hpb (hexToBytes_bytesToHex bytes)) Htail).
Qed.

Lemma web_writer_by_bytes (P : Platform) (h : string) (bytes : list byte)
    (type : KeyType) :
  hexToBytes h = Ret bytes ->
  WebCryptoUtils.hexToPem P h type = WebCryptoUtils.hexToPem P (bytesToHex bytes) type.
Proof.
  intros Hh. unfold WebCryptoUtils.hexToPem, CryptoUtils.getPublicKeyFromPrivate.
  rewrite Hh, hexToBytes_bytesToHex, !bind_Ret.
  destruct type.
  - destruct public_prefix_bytes as (pb & Hpb & _).
    change CryptoUtils.publicDerPrefix with WebCryptoUtils.publicDerPrefix in Hpb.
    rewrite !bind_Ret.
    rewrite (hexToBytes_app pb _ _ bytes Hpb Hh).
    now rewrite (hexToBytes_app pb _ _ bytes Hpb (hexToBytes_bytesToHex bytes)).
  - destruct (secp256k1_getPublicKey P bytes) as [pub|e]; [|reflexivity].
    rewrite !bind_Ret.
    destruct web_private_prefix_bytes as (pb & Hpb & _).
    destruct suffix_bytes as (sb & Hsb & _).
    pose proof (hexToBytes_app sb _ _ pub Hsb (hexToBytes_bytesToHex pub)) as Htail.
    rewrite (hexToBytes_app (pb ++ bytes) _ _ _ (hexToBytes_app pb _ _ bytes Hpb Hh) Htail).
    now rewrite (hexToBytes_app (pb ++ bytes) _ _ _
                   (hexToBytes_app pb _ _ bytes Hpb (hexToBytes_bytesToHex bytes)) Htail).
Qed.

End PemRoundTrip.

(** C7, as the code has it.  Writing a key as PEM and reading it back with
    the same codec gives the bytes of the key again, as hex text in lower
    case: for any hex text of a 33-byte public key and of a 32-byte private
    scalar that the curve accepts, in the host codec and in the browser
    codec alike.  The text that is read back is the text that was written
    when that was in lower case, as [bytesToHex] makes it. *)
Theorem pem_round_trip (P : Platform) :
  reads_base64 P ->
  (forall (h : string) (pub : list byte),
     Hex.hexToBytes h = Ret pub -> length pub = 33 ->
     (exists pem, CryptoUtils.hexToPem P h PUBLIC = Ret pem
                  /\ CryptoUtils.pemToHex P pem PUBLIC = Hex.bytesToHex pub)
     /\ (exists pem, WebCryptoUtils.hexToPem P h PUBLIC = Ret pem
                     /\ WebCryptoUtils.pemToHex pem PUBLIC = Ret (Hex.bytesToHex pub)))
  /\ (forall (h : string) (k pub : list byte),
        Hex.hexToBytes h = Ret k ->
        length k = 32 -> secp256k1_getPublicKey P k = Ret pub ->
        (exists pem, CryptoUtils.hexToPem P h PRIVATE = Ret pem
                     /\ CryptoUtils.pemToHex P pem PRIVATE = Hex.bytesToHex k)
        /\ (exists pem, WebCryptoUtils.hexToPem P h PRIVATE = Ret pem
                        /\ WebCryptoUtils.pemToHex pem PRIVATE = Ret (Hex.bytesToHex k)))
  /\ (forall bytes : list byte, Hex.hexToBytes (Hex.bytesToHex bytes) = Ret bytes).
Proof.
  intros Hread. split; [|split].
  - intros h pub Hh Hlen.
    rewrite (PemRoundTrip.host_writer_by_bytes P h pub PUBLIC Hh),
      (PemRoundTrip.web_writer_by_bytes P h pub PUBLIC Hh). split.
    + now apply PemRoundTrip.host_public.
    + now apply PemRoundTrip.web_public.
  - intros h k pub Hh Hlen Hpub.
    rewrite (PemRoundTrip.host_writer_by_bytes P h k PRIVATE Hh),
      (PemRoundTrip.web_writer_by_bytes P h k PRIVATE Hh). split.
    + now apply PemRoundTrip.host_private with pub.
    + now apply PemRoundTrip.web_private with pub.
  - apply HexFacts.hexToBytes_bytesToHex.
Qed.

(** ** Field selection *)

Module SelectorFacts.
Import FieldSelector.

Lemma includes_true (l : list string) (x : string) : includes l x = true <-> x ∈ l.
Proof. unfold includes. apply bool_decide_eq_true. Qed.

Lemma elem_of_insert_sorted (x y : string) (l : list string) :
  y ∈ insert_sorted x l <-> y = x \/ y ∈ l.
Proof.
  induction l as [|z l IH]; cbn [insert_sorted].
  - rewrite list_elem_of_singleton. split; [now left|].
    intros [Hy|Hy]; [exact Hy | now apply elem_of_nil in Hy].
  - destruct (String.leb x z); rewrite !elem_of_cons; [tauto|].
    rewrite IH. tauto.
Qed.

(** Sorting keeps the names that are there and adds none. *)
Lemma elem_of_sort (y : string) (l : list string) : y ∈ sort l <-> y ∈ l.
Proof.
  induction l as [|x l IH]; cbn [sort]; [reflexivity|].
  rewrite elem_of_insert_sorted, elem_of_cons, IH. tauto.
Qed.

Lemma hasOwnProperty_set (o : object) (key key' : string) (v : value) :
  hasOwnProperty (set o key v) key'
  = String.eqb key key' || hasOwnProperty o key'.
Proof.
  induction o as [|[k w] o IH]; cbn [set hasOwnProperty]; [reflexivity|].
  destruct (String.eqb k key) eqn:E; cbn [hasOwnProperty].
  - apply String.eqb_eq in E as ->. now destruct (String.eqb key key').
  - rewrite IH. now destruct (String.eqb k key'), (String.eqb key key').
Qed.

Lemma hasOwnProperty_fold (document : EnactDocument) (l : list string)
    (acc : object) (key : string) :
  hasOwnProperty
    (fold_left
       (fun canonical fieldName =>
          let v := document_get document fieldName in
          if isNonEmpty v then set canonical fieldName v else canonical)
       l acc) key = true ->
  key ∈ l \/ hasOwnProperty acc key = true.
Proof.
  revert acc; induction l as [|f l IH]; intros acc H; cbn [fold_left] in H.
  - now right.
  - apply IH in H as [H|H]; [left; now apply elem_of_cons; right|].
    cbv zeta in H. destruct (isNonEmpty (document_get document f)); [|now right].
    rewrite hasOwnProperty_set in H. apply orb_true_iff in H as [H|H]; [|now right].
    apply String.eqb_eq in H as ->. left. apply elem_of_cons. now left.
Qed.

(** The canonical object has no property beyond the selected names. *)
Lemma project_keys (document : EnactDocument) (l : list string) (key : string) :
  hasOwnProperty (project document l) key = true -> key ∈ l.
Proof.
  intros H. apply hasOwnProperty_fold in H as [H|H]; [exact H | discriminate].
Qed.

(** The projection reads the document at the selected names only. *)
Lemma project_ext (d1 d2 : EnactDocument) (l : list string) :
  (forall f, f ∈ l -> document_get d1 f = document_get d2 f) ->
  project d1 l = project d2 l.
Proof.
  unfold project. generalize (@nil (string * value)).
  induction l as [|f l IH]; intros acc H; [reflexivity|].
  cbn [fold_left]. rewrite (H f) by (apply elem_of_cons; now left).
  apply IH. intros g Hg. apply H, elem_of_cons. now right.
Qed.

(** What the test of one field comes to. *)
Lemma lacks_eq (document : EnactDocument) (field : string) :
  lacks document field
  = if document_hasOwnProperty document "hasOwnProperty" then Throw TypeError
    else Ret (missingOrEmpty document field).
Proof.
  unfold lacks, document_call_hasOwnProperty, missingOrEmpty.
  now destruct (document_hasOwnProperty document "hasOwnProperty").
Qed.

Lemma check_required_ext (d1 d2 : EnactDocument) (l : list string) :
  document_hasOwnProperty d1 "hasOwnProperty"
  = document_hasOwnProperty d2 "hasOwnProperty" ->
  (forall f, f ∈ l ->
     document_hasOwnProperty d1 f = document_hasOwnProperty d2 f
     /\ document_get d1 f = document_get d2 f) ->
  check_required d1 l = check_required d2 l.
Proof.
  intros Hcall. induction l as [|f l IH]; intros H; [reflexivity|].
  cbn [check_required]. rewrite !lacks_eq, Hcall. unfold missingOrEmpty.
  destruct (H f) as [-> ->]; [apply elem_of_cons; now left|].
  rewrite IH; [reflexivity|].
  intros g Hg. apply H, elem_of_cons. now right.
Qed.

Lemma check_required_throws (document : EnactDocument) (l : list string) (f : string) :
  document_hasOwnProperty document "hasOwnProperty" = false ->
  f ∈ l -> missingOrEmpty document f = true ->
  exists g, check_required document l = Throw (MissingRequiredField g)
            /\ g ∈ l /\ missingOrEmpty document g = true.
Proof.
  intros Hcall.
  induction l as [|x l IH]; intros Hf Hbad; [now apply elem_of_nil in Hf|].
  cbn [check_required]. rewrite lacks_eq, Hcall.
  destruct (missingOrEmpty document x) eqn:Hx.
  - exists x. split; [reflexivity|]. split; [apply elem_of_cons; now left | exact Hx].
  - apply elem_of_cons in Hf as [->|Hf]; [congruence|].
    destruct (IH Hf Hbad) as (g & Hg & Hin & Hl).
    exists g. split; [exact Hg|]. split; [apply elem_of_cons; now right | exact Hl].
Qed.

(** An own property named [hasOwnProperty] makes the first test throw. *)
Lemma check_required_shadowed (document : EnactDocument) (l : list string) :
  document_hasOwnProperty document "hasOwnProperty" = true ->
  l <> [] ->
  check_required document l = Throw TypeError.
Proof.
  intros Hcall Hl. destruct l as [|x l]; [contradiction|].
  cbn [check_required]. now rewrite lacks_eq, Hcall.
Qed.

Lemma check_required_passes (document : EnactDocument) (l : list string) :
  document_hasOwnProperty document "hasOwnProperty" = false ->
  (forall f, f ∈ l -> missingOrEmpty document f = false) ->
  check_required document l = Ret tt.
Proof.
  intros Hcall.
  induction l as [|x l IH]; intros H; [reflexivity|].
  cbn [check_required]. rewrite lacks_eq, Hcall.
  rewrite (H x) by (apply elem_of_cons; now left).
  apply IH. intros g Hg. apply H, elem_of_cons. now right.
Qed.

Lemma document_get_other (s : option (list Signature)) (o : object) (key : string) :
  key <> "signatures" ->
  document_get {| signatures := s; fields := o |} key = get o key.
Proof.
  intros H. unfold document_get. cbn [signatures fields].
  now rewrite (proj2 (String.eqb_neq key "signatures") H).
Qed.

Lemma document_hasOwnProperty_other (s : option (list Signature)) (o : object)
    (key : string) :
  key <> "signatures" ->
  document_hasOwnProperty {| signatures := s; fields := o |} key
  = hasOwnProperty o key.
Proof.
  intros H. unfold document_hasOwnProperty. cbn [signatures fields].
  now rewrite (proj2 (String.eqb_neq key "signatures") H).
Qed.

Lemma required_selected (config : list FieldConfig) (selected : list string)
    (f : string) :
  f ∈ map name
        (List.filter (fun field => required field && includes selected (name field))
           config)
  <-> exists fc, fc ∈ config /\ name fc = f /\ required fc = true /\ f ∈ selected.
Proof.
  rewrite list_elem_of_In, in_map_iff. split.
  - intros (fc & <- & Hin). apply filter_In in Hin as [Hin H].
    apply andb_true_iff in H as [Hr Hs]. apply includes_true in Hs.
    exists fc. now rewrite list_elem_of_In.
  - intros (fc & Hin & <- & Hr & Hs). exists fc. split; [reflexivity|].
    apply filter_In. split; [now apply list_elem_of_In|].
    rewrite Hr. now apply includes_true.
Qed.

End SelectorFacts.

(** ** The shape of [verifyDocument] *)

Module VerifyFacts.
Import FieldSelector SelectorFacts SigningService.

Section WithPlatform.
Context (P : Platform).

Lemma createDocumentHash_ret (document : EnactDocument) (options : SigningOptions)
    (canonical : object) :
  getCanonicalDocument document options = Ret canonical ->
  createDocumentHash P document options
  = Ret (CryptoUtils.hash P (JSON_stringify P canonical)).
Proof.
  intros H. unfold createDocumentHash, documentString. now rewrite H.
Qed.

Lemma createDocumentHash_throw (document : EnactDocument) (options : SigningOptions)
    (e : error) :
  getCanonicalDocument document options = Throw e ->
  createDocumentHash P document options = Throw e.
Proof.
  intros H. unfold createDocumentHash, documentString. now rewrite H.
Qed.

(** The fallback accepts exactly when some trusted key verifies. *)
Lemma verifyAgainstAny_true (T : list string) (messageHash signatureHex : string) :
  verifyAgainstAny P T messageHash signatureHex = true
  <-> exists pk, pk ∈ T /\ CryptoUtils.verify P pk messageHash signatureHex = true.
Proof.
  unfold verifyAgainstAny. rewrite existsb_exists.
  split; intros (pk & Hin & Hv); exists pk; split; auto; now apply list_elem_of_In.
Qed.


(** The shape of [verifyDocument] once the list and the policy are named. *)
Lemma verifyDocument_below (host : HostState) (document : EnactDocument)
    (provided : Signature) (options : SigningOptions)
    (securityConfig : option SecurityConfig) :
  let config := effectiveConfig host securityConfig in
  let l := signaturesToVerify document provided in
  (Z.of_nat (length l) < threshold config)%Z ->
  verifyDocument P host document provided options securityConfig
  = Ret (allowsUnsigned config && (length l =? 0)).
Proof.
  intros config l H. unfold verifyDocument. fold config. fold l.
  rewrite (proj2 (Z.ltb_lt _ _) H). now destruct (allowsUnsigned config && _).
Qed.

Lemma verifyDocument_reached (host : HostState) (document : EnactDocument)
    (provided : Signature) (options : SigningOptions)
    (securityConfig : option SecurityConfig) :
  let config := effectiveConfig host securityConfig in
  let l := signaturesToVerify document provided in
  (threshold config <= Z.of_nat (length l))%Z ->
  verifyDocument P host document provided options securityConfig
  = (createDocumentHash P document options ≫= fun messageHash =>
       Ret (forallb (signatureIsValid P (getAllTrustedPublicKeys host) messageHash) l)).
Proof.
  intros config l H. unfold verifyDocument. fold config. fold l.
  now rewrite (proj2 (Z.ltb_ge _ _) H).
Qed.

Lemma forallb_filter_length {A} (f : A -> bool) (l : list A) :
  forallb f l = true -> length (List.filter f l) = length l.
Proof.
  induction l as [|x l IH]; [reflexivity|]. cbn [forallb List.filter].
  intros [Hx Hl]%andb_true_iff. rewrite Hx. cbn [length]. now rewrite IH.
Qed.

End WithPlatform.
End VerifyFacts.

(** ** The signing service: the stated properties *)

(** C5. [CryptoUtils.verify] is a total function into the booleans: it is
    [true] exactly when both hex texts decode and the curve check returns
    [true]; a hex text that does not decode, and any error thrown by the
    curve library, give [false]. *)
Theorem verify_never_throws (P : Platform)
    (publicKeyHex messageHash signatureHex : string) :
  (CryptoUtils.verify P publicKeyHex messageHash signatureHex = true
   <-> exists publicKey hash,
         Hex.hexToBytes publicKeyHex = Ret publicKey
         /\ Hex.hexToBytes messageHash = Ret hash
         /\ secp256k1_verify P signatureHex hash publicKey = Ret true)
  /\ (forall e, CryptoUtils.verify_try P publicKeyHex messageHash signatureHex = Throw e ->
        CryptoUtils.verify P publicKeyHex messageHash signatureHex = false)
  /\ (returns (Hex.hexToBytes publicKeyHex) = false ->
        CryptoUtils.verify P publicKeyHex messageHash signatureHex = false)
  /\ (returns (Hex.hexToBytes messageHash) = false ->
        CryptoUtils.verify P publicKeyHex messageHash signatureHex = false)
  /\ (forall publicKey hash,
        Hex.hexToBytes publicKeyHex = Ret publicKey ->
        Hex.hexToBytes messageHash = Ret hash ->
        returns (secp256k1_verify P signatureHex hash publicKey) = false ->
        CryptoUtils.verify P publicKeyHex messageHash signatureHex = false).
Proof.
  unfold CryptoUtils.verify, CryptoUtils.verify_try.
  destruct (Hex.hexToBytes publicKeyHex) as [pk|e1] eqn:E1;
    destruct (Hex.hexToBytes messageHash) as [h|e2] eqn:E2; cbn.
  - destruct (secp256k1_verify P signatureHex h pk) as [b|e3] eqn:E3.
    + repeat split; try discriminate.
      * intros ->. now exists pk, h.
      * intros (pk' & h' & [= <-] & [= <-] & H). congruence.
      * intros pk' h' [= <-] [= <-]. now rewrite E3.
    + repeat split; try discriminate; try reflexivity.
      * intros (pk' & h' & [= <-] & [= <-] & H). congruence.
  - repeat split; try discriminate; try reflexivity.
    intros (pk' & h' & _ & H & _). discriminate.
  - repeat split; try discriminate; try reflexivity.
    intros (pk' & h' & H & _). discriminate.
  - repeat split; try discriminate; try reflexivity.
    intros (pk' & h' & H & _). discriminate.
Qed.

Lemma verify_never_throws_witness :
  CryptoUtils.verify demo "zz" "00" "00" = false
  /\ CryptoUtils.verify demo "0301" "00" "00" = false.
Proof.
  split.
  - destruct (verify_never_throws demo "zz" "00" "00") as (_ & _ & H & _).
    apply H. reflexivity.
  - destruct (verify_never_throws demo "0301" "00" "00") as (_ & _ & _ & _ & H).
    apply (H [x03; x01] [x00]); reflexivity.
Defined.




(** C2, as the code has it.  [verifyDocument] returns [true] only if the
    list is at least as long as the threshold and every signature of it
    is valid, or the list is empty, shorter than the threshold, and
    unsigned documents are allowed.  Below the threshold the result is
    decided by that allowance alone. *)
Theorem threshold_policy (P : Platform) (host : HostState)
    (document : EnactDocument) (provided : Signature) (options : SigningOptions)
    (securityConfig : option SecurityConfig) :
  let config := SigningService.effectiveConfig host securityConfig in
  let n := length (SigningService.signaturesToVerify document provided) in
  let m := SigningService.threshold config in
  (SigningService.verifyDocument P host document provided options securityConfig
   = Ret true ->
   ((m <= Z.of_nat n)%Z
    /\ SigningService.validCount P host document provided options = Ret n)
   \/ ((Z.of_nat n < m)%Z /\ SigningService.allowsUnsigned config = true /\ n = 0))
  /\ ((Z.of_nat n < m)%Z ->
      SigningService.verifyDocument P host document provided options securityConfig
      = Ret (SigningService.allowsUnsigned config && (n =? 0))).
Proof.
  intros config n m. split.
  - intros Hv. destruct (Z.lt_ge_cases (Z.of_nat n) m) as [Hlt|Hge].
    + right. rewrite VerifyFacts.verifyDocument_below in Hv by exact Hlt.
      injection Hv as Hv. apply andb_true_iff in Hv as [Ha Hn].
      split; [exact Hlt|]. split; [exact Ha|]. now apply Nat.eqb_eq.
    + left. split; [exact Hge|].
      rewrite VerifyFacts.verifyDocument_reached in Hv by exact Hge.
      unfold SigningService.validCount.
      destruct (SigningService.createDocumentHash P document options) as [h|e];
        [|discriminate].
      cbn in Hv |- *. injection Hv as Hv.
      now rewrite (VerifyFacts.forallb_filter_length _ _ Hv).
  - intros Hlt. now apply VerifyFacts.verifyDocument_below.
Qed.

Lemma threshold_policy_witness :
  SigningService.verifyDocument demo trustingHost (signedBy [demoSignature])
    dummySignature enactDefaults (Some strictTwo) = Ret false
  /\ SigningService.validCount demo trustingHost
       (signedBy [demoSignature; strippedSignature]) dummySignature enactDefaults
     = Ret 2.
Proof.
  split.
  - apply (threshold_policy demo trustingHost (signedBy [demoSignature])
             dummySignature enactDefaults (Some strictTwo)).
    vm_compute. reflexivity.
  - destruct (threshold_policy demo trustingHost
                (signedBy [demoSignature; strippedSignature])
                dummySignature enactDefaults (Some strictTwo)) as [H _].
    destruct H as [[_ H]|[H _]]; [reflexivity | exact H | vm_compute in H; discriminate].
Defined.

(** C2 as stated fails: under the default policy (one signature required,
    unsigned documents allowed) a document with an empty signature list is
    accepted, although no signature is valid and the threshold is not 0. *)
Lemma unsigned_accepted_below_threshold :
  SigningService.threshold (SigningService.effectiveConfig emptyHost None) = 1%Z
  /\ SigningService.validCount demo emptyHost unsignedTool dummySignature enactDefaults
     = Ret 0
  /\ ~ (SigningService.verifyDocument demo emptyHost unsignedTool dummySignature
          enactDefaults None = Ret true ->
        (exists count,
            SigningService.validCount demo emptyHost unsignedTool dummySignature
              enactDefaults = Ret count
            /\ (SigningService.threshold (SigningService.effectiveConfig emptyHost None)
                <= Z.of_nat count)%Z)
        \/ (SigningService.threshold (SigningService.effectiveConfig emptyHost None) = 0%Z
            /\ SigningService.allowsUnsigned (SigningService.effectiveConfig emptyHost None)
               = true
            /\ length (SigningService.signaturesToVerify unsignedTool dummySignature) = 0)).
Proof.
  split; [reflexivity|]. split; [reflexivity|].
  intros H. destruct H as [(count & Hc & Hle)|(Hm & _)].
  - reflexivity.
  - vm_compute in Hc. injection Hc as <-. vm_compute in Hle. now apply Hle.
  - vm_compute in Hm. discriminate.
Qed.




(** C10. When the document has a [signatures] property, the result of
    [verifyDocument] is the same for any two provided signatures. *)
Theorem provided_signature_ignored (P : Platform) (host : HostState)
    (document : EnactDocument) (s1 s2 : Signature) (options : SigningOptions)
    (securityConfig : option SecurityConfig) :
  is_Some (signatures document) ->
  SigningService.verifyDocument P host document s1 options securityConfig
  = SigningService.verifyDocument P host document s2 options securityConfig.
Proof.
  intros [l Hl]. unfold SigningService.verifyDocument, SigningService.signaturesToVerify.
  now rewrite Hl.
Qed.

Lemma provided_signature_ignored_witness :
  is_Some (signatures (signedBy [strippedSignature]))
  /\ SigningService.verifyDocument demo trustingHost (signedBy [strippedSignature])
       demoSignature enactDefaults None
     = SigningService.verifyDocument demo trustingHost (signedBy [strippedSignature])
         dummySignature enactDefaults None.
Proof.
  assert (H : is_Some (signatures (signedBy [strippedSignature]))) by (eexists; reflexivity).
  split; [exact H|].
  exact (provided_signature_ignored demo trustingHost (signedBy [strippedSignature])
           demoSignature dummySignature enactDefaults None H).
Defined.

(** When the options select [signatures]: it has to be named in
    [includeFields], or in [additionalCriticalFields] when there is no
    [includeFields], and not be excluded.  Neither default set names it. *)
Lemma signatures_selected_iff (options : SigningOptions) :
  "signatures" ∈ FieldSelector.fieldsToInclude (SigningService.fieldSelector options)
                   (SigningService.fieldOptions options)
  <-> ("signatures" ∉ default [] (excludeFields options))
      /\ "signatures" ∈ (match includeFields options with
                         | Some l => l
                         | None => default [] (additionalCriticalFields options)
                         end).
Proof.
  unfold FieldSelector.fieldsToInclude, SigningService.fieldOptions.
  cbn [sf_includeFields sf_excludeFields sf_additionalCriticalFields customFieldConfig].
  rewrite list_elem_of_In, filter_In, <- list_elem_of_In.
  rewrite negb_true_iff, <- not_true_iff_false, SelectorFacts.includes_true.
  destruct (includeFields options) as [l|]; [tauto|].
  rewrite elem_of_app.
  assert (Hd : "signatures" ∉
               map name (List.filter (fun config => securityCritical config)
                           (default (FieldSelector.fieldConfigs
                                       (SigningService.fieldSelector options)) None))).
  { unfold SigningService.fieldSelector.
    destruct (default false (useEnactDefaults options));
      apply (bool_decide_unpack _); vm_compute; exact I. }
  tauto.
Qed.

(** C4, as the code has it.  When the selected names do not include
    [signatures], the canonical object has no such property, and the
    object, the text that is hashed, the digest and the signature are the
    same whatever the document holds under [signatures]. *)
Theorem signatures_outside_projection (P : Platform) (options : SigningOptions)
    (o : object) (s1 s2 : option (list Signature)) :
  ("signatures" ∉ FieldSelector.fieldsToInclude (SigningService.fieldSelector options)
                    (SigningService.fieldOptions options)) ->
  SigningService.getCanonicalDocument {| signatures := s1; fields := o |} options
  = SigningService.getCanonicalDocument {| signatures := s2; fields := o |} options
  /\ SigningService.documentString P {| signatures := s1; fields := o |} options
     = SigningService.documentString P {| signatures := s2; fields := o |} options
  /\ SigningService.createDocumentHash P {| signatures := s1; fields := o |} options
     = SigningService.createDocumentHash P {| signatures := s2; fields := o |} options
  /\ (forall privateKey now,
        SigningService.signDocument P {| signatures := s1; fields := o |}
          privateKey options now
        = SigningService.signDocument P {| signatures := s2; fields := o |}
            privateKey options now)
  /\ (forall canonical,
        SigningService.getCanonicalDocument {| signatures := s1; fields := o |} options
        = Ret canonical ->
        hasOwnProperty canonical "signatures" = false).
Proof.
  intros Hsel.
  set (F := FieldSelector.fieldsToInclude (SigningService.fieldSelector options)
              (SigningService.fieldOptions options)) in *.
  assert (Hne : forall f, f ∈ F -> f <> "signatures") by (intros f Hf ->; contradiction).
  assert (Heq : SigningService.getCanonicalDocument {| signatures := s1; fields := o |} options
                = SigningService.getCanonicalDocument {| signatures := s2; fields := o |} options).
  { unfold SigningService.getCanonicalDocument, FieldSelector.createCanonicalObject.
    fold F. unfold FieldSelector.validateRequiredFields.
    rewrite (SelectorFacts.check_required_ext _ {| signatures := s2; fields := o |}).
    - rewrite (SelectorFacts.project_ext _ {| signatures := s2; fields := o |});
        [reflexivity|].
      intros f Hf. apply (proj1 (SelectorFacts.elem_of_sort _ _)) in Hf.
      now rewrite !SelectorFacts.document_get_other by (now apply Hne).
    - now rewrite !SelectorFacts.document_hasOwnProperty_other by discriminate.
    - intros f Hf. apply (proj1 (SelectorFacts.required_selected _ _ _)) in Hf.
      destruct Hf as (_ & _ & _ & _ & Hf).
      rewrite !SelectorFacts.document_get_other,
        !SelectorFacts.document_hasOwnProperty_other by (now apply Hne).
      now split. }
  split; [exact Heq|].
  split; [unfold SigningService.documentString; now rewrite Heq|].
  split; [unfold SigningService.createDocumentHash, SigningService.documentString;
          now rewrite Heq|].
  split; [intros privateKey now;
          unfold SigningService.signDocument, SigningService.createDocumentHash,
            SigningService.documentString; now rewrite Heq|].
  intros canonical Hc.
  unfold SigningService.getCanonicalDocument, FieldSelector.createCanonicalObject in Hc.
  fold F in Hc.
  destruct (FieldSelector.validateRequiredFields _ _ _); [|discriminate].
  cbn in Hc. injection Hc as <-.
  apply not_true_is_false. intros Hk. apply SelectorFacts.project_keys in Hk.
  apply (proj1 (SelectorFacts.elem_of_sort _ _)) in Hk. contradiction.
Qed.

Lemma signatures_outside_projection_witness :
  ("signatures" ∉ FieldSelector.fieldsToInclude (SigningService.fieldSelector enactDefaults)
                    (SigningService.fieldOptions enactDefaults))
  /\ SigningService.documentString demo (signedBy [demoSignature]) enactDefaults
     = SigningService.documentString demo bareTool enactDefaults.
Proof.
  assert (H : "signatures" ∉
              FieldSelector.fieldsToInclude (SigningService.fieldSelector enactDefaults)
                (SigningService.fieldOptions enactDefaults))
    by (apply (bool_decide_unpack _); vm_compute; exact I).
  split; [exact H|].
  apply (signatures_outside_projection demo enactDefaults testTool
           (Some [demoSignature]) None H).
Defined.

(** C4 as stated fails: options that name [signatures] in [includeFields]
    put the document's signatures into the canonical object, which then
    changes with them. *)
Lemma signatures_projected_when_named :
  SigningService.getCanonicalDocument (signedBy [dummySignature]) (only ["signatures"])
  = Ret [("signatures", VArr [Signature_value dummySignature])]
  /\ SigningService.getCanonicalDocument (signedBy [demoSignature]) (only ["signatures"])
     <> SigningService.getCanonicalDocument (signedBy [dummySignature])
          (only ["signatures"]).
Proof. split; [reflexivity|]. vm_compute. discriminate. Qed.

(** C9, as the code has it.  When the signature list is at least as long as
    the threshold, a document that lacks a field which is required in the
    active default set and selected makes [verifyDocument] raise.  It is the
    missing-required-field error, naming a field the document lacks, when
    the document has no property of its own named [hasOwnProperty]; with
    such a property the call [document.hasOwnProperty] itself fails, and
    the error is a [TypeError]. *)
Theorem missing_required_field_raises (P : Platform) (host : HostState)
    (document : EnactDocument) (provided : Signature) (options : SigningOptions)
    (securityConfig : option SecurityConfig) (fc : FieldConfig) :
  fc ∈ FieldSelector.fieldConfigs (SigningService.fieldSelector options) ->
  required fc = true ->
  name fc ∈ FieldSelector.fieldsToInclude (SigningService.fieldSelector options)
              (SigningService.fieldOptions options) ->
  FieldSelector.missingOrEmpty document (name fc) = true ->
  (SigningService.threshold (SigningService.effectiveConfig host securityConfig)
   <= Z.of_nat (length (SigningService.signaturesToVerify document provided)))%Z ->
  (document_hasOwnProperty document "hasOwnProperty" = false ->
   exists field,
     SigningService.verifyDocument P host document provided options securityConfig
     = Throw (MissingRequiredField field)
     /\ FieldSelector.missingOrEmpty document field = true)
  /\ (document_hasOwnProperty document "hasOwnProperty" = true ->
      SigningService.verifyDocument P host document provided options securityConfig
      = Throw TypeError).
Proof.
  intros Hfc Hreq Hsel Hlacks Hge.
  rewrite VerifyFacts.verifyDocument_reached by exact Hge.
  set (requiredFields :=
         map name
           (List.filter
              (fun field =>
                 required field
                 && includes
                      (FieldSelector.fieldsToInclude
                         (SigningService.fieldSelector options)
                         (SigningService.fieldOptions options)) (name field))
              (FieldSelector.fieldConfigs (SigningService.fieldSelector options)))).
  assert (Hin : name fc ∈ requiredFields)
    by (apply SelectorFacts.required_selected; now exists fc).
  assert (Hthrow : forall e,
             FieldSelector.check_required document requiredFields = Throw e ->
             (SigningService.createDocumentHash P document options
              ≫= fun messageHash =>
                   Ret (forallb
                          (SigningService.signatureIsValid P
                             (getAllTrustedPublicKeys host) messageHash)
                          (SigningService.signaturesToVerify document provided)))
             = Throw e).
  { intros e He.
    rewrite (VerifyFacts.createDocumentHash_throw P _ _ e); [reflexivity|].
    unfold SigningService.getCanonicalDocument, FieldSelector.createCanonicalObject,
      FieldSelector.validateRequiredFields.
    change (customFieldConfig (SigningService.fieldOptions options))
      with (@None (list FieldConfig)).
    cbn [default]. fold requiredFields. now rewrite He. }
  split.
  - intros Hcall.
    destruct (SelectorFacts.check_required_throws document requiredFields (name fc)
                Hcall Hin Hlacks) as (g & Hg & _ & Hl).
    exists g. split; [now apply Hthrow | exact Hl].
  - intros Hcall. apply Hthrow, SelectorFacts.check_required_shadowed; [exact Hcall|].
    intros Hnil. rewrite Hnil in Hin. now apply elem_of_nil in Hin.
Qed.

Lemma missing_required_field_raises_witness :
  FieldSelector.missingOrEmpty commandOnly "id" = true
  /\ SigningService.verifyDocument demo emptyHost commandOnly dummySignature
       noOptions None = Throw (MissingRequiredField "id")
  /\ SigningService.verifyDocument demo emptyHost shadowedCommand dummySignature
       noOptions None = Throw TypeError.
Proof.
  split; [reflexivity|]. split.
  - destruct (missing_required_field_raises demo emptyHost commandOnly dummySignature
                noOptions None
                {| name := "id"; required := true; securityCritical := true;
                   description := Some "Document identifier" |}) as [H _].
    + apply list_elem_of_In. left. reflexivity.
    + reflexivity.
    + apply list_elem_of_In. left. reflexivity.
    + reflexivity.
    + vm_compute. discriminate.
    + destruct (H eq_refl) as (field & Hthrow & _).
      rewrite Hthrow. vm_compute in Hthrow. symmetry. exact Hthrow.
  - destruct (missing_required_field_raises demo emptyHost shadowedCommand
                dummySignature noOptions None
                {| name := "id"; required := true; securityCritical := true;
                   description := Some "Document identifier" |}) as [_ H].
    + apply list_elem_of_In. left. reflexivity.
    + reflexivity.
    + apply list_elem_of_In. left. reflexivity.
    + reflexivity.
    + vm_compute. discriminate.
    + exact (H eq_refl).
Defined.

(** C9 as stated fails: below the threshold [verifyDocument] returns
    before it projects.  The document lacks the required and selected field
    [id], and the result is [false], not an error. *)
Lemma below_threshold_no_error :
  FieldSelector.missingOrEmpty commandOnly "id" = true
  /\ "id" ∈ FieldSelector.fieldsToInclude (SigningService.fieldSelector noOptions)
               (SigningService.fieldOptions noOptions)
  /\ "id" ∈ FieldSelector.getRequiredFields (SigningService.fieldSelector noOptions)
  /\ SigningService.verifyDocument demo emptyHost commandOnly dummySignature
       noOptions (Some strictTwo) = Ret false.
Proof.
  split; [reflexivity|].
  split; [apply list_elem_of_In; left; reflexivity|].
  split; [apply list_elem_of_In; vm_compute; tauto | reflexivity].
Qed.

(** ** The tolerant PEM reader *)

(** C6, as the code has it (the tolerant reader of the browser package).
    For a public-key PEM whose decoded body does not hold the marker
    [034200] in its hex text: a body of exactly 33 bytes that begins with
    02 or 03 is returned as hex verbatim, and a body shorter than 32 or
    longer than 65 bytes makes [pemToHex] fail. *)
Theorem tolerant_reader_shapes (pemKey : string) (derBytes : list byte) :
  Base64.atob (base64Content pemKey PUBLIC) = Ret derBytes ->
  JsString.indexOf (Hex.bytesToHex derBytes) "034200" = (-1)%Z ->
  (length derBytes = 33 ->
   WebCryptoUtils.first_is derBytes x02 || WebCryptoUtils.first_is derBytes x03 = true ->
   WebCryptoUtils.pemToHex pemKey PUBLIC = Ret (Hex.bytesToHex derBytes))
  /\ (length derBytes < 32 \/ 65 < length derBytes ->
      WebCryptoUtils.pemToHex pemKey PUBLIC
      = Throw (UnsupportedPublicKeyFormat (length derBytes))).
Proof.
  intros Hbody Hmarker. unfold WebCryptoUtils.pemToHex.
  rewrite Hbody, PemRoundTrip.bind_Ret, Hmarker.
  change (negb (-1 =? -1)%Z) with false. cbn iota. split.
  - intros Hlen Hfirst. now rewrite Hlen, Hfirst.
  - intros Hlen.
    assert (H33 : (length derBytes =? 33) = false) by (apply Nat.eqb_neq; lia).
    assert (H32 : (length derBytes =? 32) = false) by (apply Nat.eqb_neq; lia).
    assert (H65 : (length derBytes =? 65) = false) by (apply Nat.eqb_neq; lia).
    rewrite H33, H32, H65. cbn [andb].
    assert (Hrange : (32 <=? length derBytes) && (length derBytes <=? 65) = false).
    { apply andb_false_iff. destruct Hlen; [left|right]; apply Nat.leb_gt; lia. }
    now rewrite Hrange.
Qed.

Lemma tolerant_reader_shapes_witness :
  WebCryptoUtils.pemToHex rawKeyPem PUBLIC = Ret (Hex.bytesToHex samplePublicKey)
  /\ WebCryptoUtils.pemToHex shortPem PUBLIC = Throw (UnsupportedPublicKeyFormat 2).
Proof.
  split.
  - apply (tolerant_reader_shapes rawKeyPem samplePublicKey); reflexivity.
  - apply (tolerant_reader_shapes shortPem [x12; x34]); [reflexivity | reflexivity |].
    left. vm_compute. lia.
Defined.

(** C6 as stated fails: a 33-byte body that begins with 02 and holds the
    bytes 03 42 00 is taken for a DER structure, and what follows the marker
    is returned in place of the body. *)
Lemma raw_key_holding_marker_is_cut :
  Base64.atob (base64Content markerKeyPem PUBLIC) = Ret markerKey
  /\ length markerKey = 33
  /\ WebCryptoUtils.first_is markerKey x02 = true
  /\ WebCryptoUtils.pemToHex markerKeyPem PUBLIC
     = Ret "8f49cb15b4649d57828c2badd6e6c32bdcc010f3753c6177643ec85959"
  /\ WebCryptoUtils.pemToHex markerKeyPem PUBLIC <> Ret (Hex.bytesToHex markerKey).
Proof. repeat split. vm_compute. discriminate. Qed.

(** The reader of the host package has none of the shapes: on the raw key
    of its own test suite it returns the text from position 5 on, and on
    the two-byte body it returns the empty text where the test expects an
    error. *)
Lemma host_reader_has_no_shapes :
  CryptoUtils.pemToHex demo rawKeyPem PUBLIC
  = "9cb15b4649d57828c2badd6e6c32bdcc010f3753c6177643ec85959ec42ac"
  /\ CryptoUtils.pemToHex demo shortPem PUBLIC = "".
Proof. split; reflexivity. Qed.

(** The reader of the demo platform inverts the writer. *)
Lemma demo_reads_base64 : reads_base64 demo.
Proof.
  intros bs. cbn [demo Buffer_from_base64].
  rewrite Base64Facts.strip_ascii_whitespace_id.
  - now rewrite Base64Facts.decode_encode.
  - apply Base64Facts.encode_every. intros c Hc.
    apply Base64Facts.plain_or_pad_cases in Hc as (_ & -> & _). reflexivity.
Qed.

Lemma pem_round_trip_witness :
  (exists pem,
      CryptoUtils.hexToPem demo (Hex.bytesToHex samplePublicKey) PUBLIC = Ret pem
      /\ CryptoUtils.pemToHex demo pem PUBLIC = Hex.bytesToHex samplePublicKey)
  /\ (exists pem,
         WebCryptoUtils.hexToPem demo upperCaseKey PRIVATE = Ret pem
         /\ WebCryptoUtils.pemToHex pem PRIVATE = Ret (Hex.bytesToHex samplePrivateKey)).
Proof.
  destruct (pem_round_trip demo demo_reads_base64) as (Hpub & Hpriv & _).
  split.
  - apply (Hpub (Hex.bytesToHex samplePublicKey) samplePublicKey); reflexivity.
  - apply (Hpriv upperCaseKey samplePrivateKey (x02 :: samplePrivateKey)); reflexivity.
Defined.

(** C7 as stated fails: a key in upper case is a key in hex form, both
    writers accept it, and what is read back is the key in lower case,
    which is another text. *)
Lemma upper_case_key_reads_back_lower :
  Hex.hexToBytes ("02" +:+ upperCaseKey) = Ret samplePublicKey
  /\ length samplePublicKey = 33
  /\ (pem ← CryptoUtils.hexToPem demo ("02" +:+ upperCaseKey) PUBLIC;
      Ret (CryptoUtils.pemToHex demo pem PUBLIC))
     = Ret "028f49cb15b4649d57828c2badd6e6c32bdcc010f3753c6177643ec85959ec42ac"
  /\ (pem ← WebCryptoUtils.hexToPem demo ("02" +:+ upperCaseKey) PUBLIC;
      WebCryptoUtils.pemToHex pem PUBLIC)
     = Ret "028f49cb15b4649d57828c2badd6e6c32bdcc010f3753c6177643ec85959ec42ac"
  /\ "028f49cb15b4649d57828c2badd6e6c32bdcc010f3753c6177643ec85959ec42ac"
     <> "02" +:+ upperCaseKey.
Proof. repeat split. vm_compute. discriminate. Qed.

(** ** The key store *)

Module StoreFacts.
Import KeyManager.

Lemma keyExists_eq (keyId : string) (fs : FileSystem) :
  keyExists keyId fs
  = (Ret (bool_decide (is_Some (files fs !! getPublicKeyPath keyId))
          && bool_decide (is_Some (files fs !! getPrivateKeyPath keyId))), fs).
Proof.
  unfold keyExists, io_bind, existsSync, io_ret.
  now destruct (bool_decide (is_Some (files fs !! getPublicKeyPath keyId))).
Qed.

Lemma writeFileSync_ok (path data : string) (m : N) (fs : FileSystem) :
  path ∉ readOnly fs ->
  exists f,
    content f = data
    /\ writeFileSync path data m fs
       = (Ret tt, withFiles fs (<[path := f]> (files fs))).
Proof.
  intros H. unfold writeFileSync. rewrite (bool_decide_eq_false_2 _ H).
  eexists. split; [|reflexivity]. reflexivity.
Qed.

(** *** Directories *)

Lemma startsWith_split (p s : string) :
  JsString.startsWith s p = true -> exists r, s = p +:+ r.
Proof.
  revert s. induction p as [|y p IH]; intros s H; [now exists s|].
  destruct s as [|x s]; [discriminate|].
  cbn [JsString.startsWith] in H. apply andb_true_iff in H as [Hxy H].
  apply Ascii.eqb_eq in Hxy. subst. destruct (IH s H) as (r & ->).
  exists r. now rewrite StringFacts.app_cons.
Qed.

Lemma below_app (dir name : string) : below dir (dir +:+ "/" +:+ name) = true.
Proof.
  unfold below. rewrite <- StringFacts.app_assoc. apply StringFacts.startsWith_app.
Qed.

Lemma below_trans (d dir path : string) :
  below d dir = true -> below dir path = true -> below d path = true.
Proof.
  unfold below. intros H1 H2.
  apply startsWith_split in H1 as (r1 & ->). apply startsWith_split in H2 as (r2 & ->).
  rewrite (StringFacts.app_assoc _ "/" r2), (StringFacts.app_assoc (d +:+ "/")).
  apply StringFacts.startsWith_app.
Qed.

Lemma below_public (keyId : string) :
  below TRUSTED_KEYS_DIR (getPublicKeyPath keyId) = true.
Proof. apply below_app. Qed.

Lemma below_private (keyId : string) :
  below PRIVATE_KEYS_DIR (getPrivateKeyPath keyId) = true.
Proof. apply below_app. Qed.

Lemma below_metadata (keyId : string) :
  below TRUSTED_KEYS_DIR (getMetadataPath keyId) = true.
Proof. apply below_app. Qed.

(** Where a file can be written, its directory is there or can be made. *)
Lemma mkdirSync_writable (dir path : string) (fs : FileSystem) :
  below dir path = true -> path ∉ readOnly fs ->
  mkdirSync dir fs = (Ret tt, fs).
Proof.
  intros Hbelow Hw. unfold mkdirSync.
  assert (Hfree : inLockedDirectory fs path = false).
  { apply not_true_is_false. intros H. apply Hw.
    unfold readOnly. apply elem_of_PropSet. rewrite H. apply orb_true_r. }
  assert (H1 : bool_decide (dir ∈ lockedDirectories fs) = false).
  { apply bool_decide_eq_false_2. intros Hin.
    assert (inLockedDirectory fs path = true); [|congruence].
    apply existsb_exists. exists dir. split; [|exact Hbelow].
    apply list_elem_of_In, elem_of_elements, Hin. }
  assert (H2 : inLockedDirectory fs dir = false).
  { apply not_true_is_false. intros H.
    apply existsb_exists in H as (d & Hd & Hdd).
    assert (inLockedDirectory fs path = true); [|congruence].
    apply existsb_exists. exists d. split; [exact Hd|].
    now apply below_trans with dir. }
  now rewrite H1, H2, andb_false_r.
Qed.

(** The directory of a file that is there is there. *)
Lemma mkdirSync_there (dir path : string) (fs : FileSystem) :
  below dir path = true -> is_Some (files fs !! path) ->
  mkdirSync dir fs = (Ret tt, fs).
Proof.
  intros Hbelow [f Hf]. unfold mkdirSync.
  assert (H : isThere fs dir = true).
  { apply existsb_exists. exists path. split; [|exact Hbelow].
    apply in_map_iff. exists (path, f). split; [reflexivity|].
    apply list_elem_of_In, elem_of_map_to_list, Hf. }
  now rewrite H.
Qed.

Lemma mkdirSync_state (dir : string) (fs : FileSystem) :
  snd (mkdirSync dir fs) = fs.
Proof. unfold mkdirSync. now destruct (_ && _). Qed.

(** [ensureDirectories] returns, or throws the error of [mkdirSync] on one
    of the two directories; it changes nothing that the model holds. *)
Lemma ensureDirectories_cases (fs : FileSystem) :
  ensureDirectories fs = (Ret tt, fs)
  \/ exists dir,
       ensureDirectories fs = (Throw (IOError dir), fs)
       /\ (dir = TRUSTED_KEYS_DIR \/ dir = PRIVATE_KEYS_DIR)
       /\ mkdirSync dir fs = (Throw (IOError dir), fs).
Proof.
  unfold ensureDirectories, io_bind.
  destruct (mkdirSync TRUSTED_KEYS_DIR fs) as [[[]|e] fs1] eqn:E1.
  - pose proof (mkdirSync_state TRUSTED_KEYS_DIR fs) as Hs. rewrite E1 in Hs.
    cbn in Hs. subst fs1.
    destruct (mkdirSync PRIVATE_KEYS_DIR fs) as [[[]|e] fs2] eqn:E2.
    + pose proof (mkdirSync_state PRIVATE_KEYS_DIR fs) as Hs. rewrite E2 in Hs.
      cbn in Hs. subst fs2. now left.
    + right. exists PRIVATE_KEYS_DIR. revert E2. unfold mkdirSync.
      destruct (_ && _); [|discriminate]. intros [= <- <-]. auto.
  - right. exists TRUSTED_KEYS_DIR. revert E1. unfold mkdirSync.
    destruct (_ && _); [|discriminate]. intros [= <- <-]. auto.
Qed.

Lemma ensureDirectories_ready (fs : FileSystem) :
  mkdirSync TRUSTED_KEYS_DIR fs = (Ret tt, fs) ->
  mkdirSync PRIVATE_KEYS_DIR fs = (Ret tt, fs) ->
  ensureDirectories fs = (Ret tt, fs).
Proof. intros H1 H2. unfold ensureDirectories, io_bind. now rewrite H1, H2. Qed.

Lemma ensureDirectories_writable (keyId : string) (fs : FileSystem) :
  getPublicKeyPath keyId ∉ readOnly fs ->
  getPrivateKeyPath keyId ∉ readOnly fs ->
  ensureDirectories fs = (Ret tt, fs).
Proof.
  intros H1 H2. apply ensureDirectories_ready.
  - now apply mkdirSync_writable with (getPublicKeyPath keyId); [apply below_public|].
  - now apply mkdirSync_writable with (getPrivateKeyPath keyId); [apply below_private|].
Qed.

Lemma ensureDirectories_there (keyId : string) (fs : FileSystem) :
  is_Some (files fs !! getPublicKeyPath keyId) ->
  is_Some (files fs !! getPrivateKeyPath keyId) ->
  ensureDirectories fs = (Ret tt, fs).
Proof.
  intros H1 H2. apply ensureDirectories_ready.
  - now apply mkdirSync_there with (getPublicKeyPath keyId); [apply below_public|].
  - now apply mkdirSync_there with (getPrivateKeyPath keyId); [apply below_private|].
Qed.

Lemma public_private_paths (keyId : string) :
  getPublicKeyPath keyId <> getPrivateKeyPath keyId.
Proof. unfold getPublicKeyPath, getPrivateKeyPath. discriminate. Qed.

Lemma metadata_private_paths (keyId : string) :
  getMetadataPath keyId <> getPrivateKeyPath keyId.
Proof. unfold getMetadataPath, getPrivateKeyPath. discriminate. Qed.

Lemma metadata_public_paths (keyId : string) :
  getMetadataPath keyId <> getPublicKeyPath keyId.
Proof.
  unfold getMetadataPath, getPublicKeyPath. intros H.
  apply String.app_inj in H. apply String.app_inj in H.
  apply String.app_inj in H. discriminate.
Qed.

(** The writer accepts the hex text of any bytes as a public key. *)
Lemma hexToPem_public (P : Platform) (pub : list byte) :
  exists pem, CryptoUtils.hexToPem P (Hex.bytesToHex pub) PUBLIC = Ret pem.
Proof.
  destruct (PemFacts.public_der pub) as (der & Hder).
  exists (formatPem (Base64.encode der) PUBLIC). unfold CryptoUtils.hexToPem.
  now rewrite HexFacts.hexToBytes_bytesToHex, !PemRoundTrip.bind_Ret, <- Hder,
    HexFacts.hexToBytes_bytesToHex.
Qed.

(** And the hex text of a scalar that the curve accepts as a private key. *)
Lemma hexToPem_private (P : Platform) (k pub : list byte) :
  secp256k1_getPublicKey P k = Ret pub ->
  exists pem, CryptoUtils.hexToPem P (Hex.bytesToHex k) PRIVATE = Ret pem.
Proof.
  intros Hpub.
  destruct (PemFacts.private_der _ k pub PemFacts.host_private_prefix_bytes)
    as (der & Hder).
  exists (formatPem (Base64.encode der) PRIVATE).
  unfold CryptoUtils.hexToPem, CryptoUtils.getPublicKeyFromPrivate.
  rewrite HexFacts.hexToBytes_bytesToHex, !PemRoundTrip.bind_Ret, Hpub,
    !PemRoundTrip.bind_Ret.
  now rewrite <- Hder, HexFacts.hexToBytes_bytesToHex.
Qed.

End StoreFacts.

(** C8, as the code has it.  [generateAndStoreKey] fails, and leaves the
    store as it is, when the public-key file and the private-key file of
    [keyId] are both there.  In every other case, a file that is there
    alone included, it stores the fresh pair when the writes go through:
    afterwards the three files hold the public PEM, the private PEM and the
    metadata. *)
Theorem generateAndStoreKey_guard (P : Platform) (keyId : string)
    (description : option string) (randomPrivateKey : list byte) (now : string)
    (fs : FileSystem) :
  (is_Some (files fs !! KeyManager.getPublicKeyPath keyId)
   /\ is_Some (files fs !! KeyManager.getPrivateKeyPath keyId) ->
   KeyManager.generateAndStoreKey P keyId description randomPrivateKey now fs
   = (Throw (KeyAlreadyExists keyId), fs))
  /\ (~ (is_Some (files fs !! KeyManager.getPublicKeyPath keyId)
         /\ is_Some (files fs !! KeyManager.getPrivateKeyPath keyId)) ->
      forall publicKey,
        secp256k1_getPublicKey P randomPrivateKey = Ret publicKey ->
        KeyManager.getPublicKeyPath keyId ∉ readOnly fs ->
        KeyManager.getPrivateKeyPath keyId ∉ readOnly fs ->
        KeyManager.getMetadataPath keyId ∉ readOnly fs ->
        exists publicKeyPem privateKeyPem fs',
          CryptoUtils.hexToPem P (Hex.bytesToHex publicKey) PUBLIC = Ret publicKeyPem
          /\ CryptoUtils.hexToPem P (Hex.bytesToHex randomPrivateKey) PRIVATE
             = Ret privateKeyPem
          /\ KeyManager.generateAndStoreKey P keyId description randomPrivateKey now fs
             = (Ret {| privateKey := Hex.bytesToHex randomPrivateKey;
                       kp_publicKey := Hex.bytesToHex publicKey |}, fs')
          /\ content <$> files fs' !! KeyManager.getPublicKeyPath keyId
             = Some publicKeyPem
          /\ content <$> files fs' !! KeyManager.getPrivateKeyPath keyId
             = Some privateKeyPem
          /\ content <$> files fs' !! KeyManager.getMetadataPath keyId
             = Some (JSON_stringify_metadata P
                       {| md_keyId := keyId; md_created := now;
                          md_algorithm := "secp256k1";
                          md_description := description |})).
Proof.
  split.
  - intros [Hpub Hpriv].
    unfold KeyManager.generateAndStoreKey, io_bind, io_ret.
    rewrite (StoreFacts.ensureDirectories_there keyId fs Hpub Hpriv).
    rewrite StoreFacts.keyExists_eq.
    now rewrite !bool_decide_eq_true_2 by assumption.
  - intros Hnot publicKey Hcurve Hw1 Hw2 Hw3.
    destruct (StoreFacts.hexToPem_public P publicKey) as (publicKeyPem & Hpem1).
    destruct (StoreFacts.hexToPem_private P randomPrivateKey publicKey Hcurve)
      as (privateKeyPem & Hpem2).
    destruct (StoreFacts.writeFileSync_ok (KeyManager.getPublicKeyPath keyId)
                publicKeyPem KeyManager.mode_0o644 fs Hw1) as (f1 & Hf1 & Hwrite1).
    set (fs1 := withFiles fs (<[KeyManager.getPublicKeyPath keyId := f1]> (files fs)))
      in *.
    destruct (StoreFacts.writeFileSync_ok (KeyManager.getPrivateKeyPath keyId)
                privateKeyPem KeyManager.mode_0o600 fs1 Hw2) as (f2 & Hf2 & Hwrite2).
    set (fs2 := withFiles fs1 (<[KeyManager.getPrivateKeyPath keyId := f2]> (files fs1)))
      in *.
    destruct (StoreFacts.writeFileSync_ok (KeyManager.getMetadataPath keyId)
                (JSON_stringify_metadata P
                   {| md_keyId := keyId; md_created := now;
                      md_algorithm := "secp256k1"; md_description := description |})
                KeyManager.mode_0o644 fs2 Hw3) as (f3 & Hf3 & Hwrite3).
    set (fs3 := withFiles fs2 (<[KeyManager.getMetadataPath keyId := f3]> (files fs2)))
      in *.
    exists publicKeyPem, privateKeyPem, fs3.
    split; [exact Hpem1|]. split; [exact Hpem2|]. split.
    + unfold KeyManager.generateAndStoreKey, io_bind, io_ret.
      rewrite (StoreFacts.ensureDirectories_writable keyId fs Hw1 Hw2).
      rewrite StoreFacts.keyExists_eq.
      assert (Hex : bool_decide (is_Some (files fs !! KeyManager.getPublicKeyPath keyId))
                    && bool_decide (is_Some (files fs !! KeyManager.getPrivateKeyPath keyId))
                    = false).
      { apply not_true_is_false. intros H. apply andb_true_iff in H as [H1 H2].
        apply Hnot. split; eapply bool_decide_eq_true_1; eassumption. }
      rewrite Hex. unfold io_lift, CryptoUtils.generateKeyPair.
      rewrite Hcurve, PemRoundTrip.bind_Ret.
      unfold KeyManager.storeKey, io_bind, io_ret, try_catch, io_lift.
      rewrite (StoreFacts.ensureDirectories_writable keyId fs Hw1 Hw2).
      cbn [kp_publicKey privateKey].
      now rewrite Hpem1, Hwrite1, Hpem2, Hwrite2, Hwrite3.
    + unfold fs3, fs2, fs1, withFiles. cbn [files].
      split; [|split].
      * rewrite lookup_insert_ne by apply StoreFacts.metadata_public_paths.
        rewrite lookup_insert_ne by (apply not_eq_sym, StoreFacts.public_private_paths).
        rewrite lookup_insert_eq. cbn. now rewrite Hf1.
      * rewrite lookup_insert_ne by apply StoreFacts.metadata_private_paths.
        rewrite lookup_insert_eq. cbn. now rewrite Hf2.
      * rewrite lookup_insert_eq. cbn. now rewrite Hf3.
Qed.

Lemma generateAndStoreKey_guard_witness :
  fst (KeyManager.generateAndStoreKey demo "k" None [x01] "2025-01-01" importedOnly)
  = Ret demoKey.
Proof.
  destruct (generateAndStoreKey_guard demo "k" None [x01] "2025-01-01" importedOnly)
    as [_ H].
  destruct (H ltac:(intros [_ [f Hf]]; vm_compute in Hf; discriminate)
              [x02; x01] eq_refl
              ltac:(apply (bool_decide_unpack _); vm_compute; exact I)
              ltac:(apply (bool_decide_unpack _); vm_compute; exact I)
              ltac:(apply (bool_decide_unpack _); vm_compute; exact I))
    as (pem1 & pem2 & fs' & _ & _ & Hrun & _).
  rewrite Hrun. reflexivity.
Defined.

(** C8 as stated fails: when only the public-key file of [k] is there,
    [generateAndStoreKey] does not fail; it returns a fresh pair and writes
    over the public key that was stored. *)
Lemma lone_public_key_is_overwritten :
  content <$> files importedOnly !! KeyManager.getPublicKeyPath "k" = Some "imported"
  /\ files importedOnly !! KeyManager.getPrivateKeyPath "k" = None
  /\ fst (KeyManager.generateAndStoreKey demo "k" None [x01] "2025-01-01" importedOnly)
     = Ret demoKey
  /\ content <$> files (snd (KeyManager.generateAndStoreKey demo "k" None [x01]
                               "2025-01-01" importedOnly))
                   !! KeyManager.getPublicKeyPath "k"
     <> Some "imported".
Proof. repeat split. vm_compute. discriminate. Qed.

(** ** The test suites and the scenarios of the specification, replayed *)

Module Replay.

(** [enhanced-pem.test.ts], on the tolerant reader. *)

Lemma raw_32_byte_key :
  WebCryptoUtils.pemToHex (pemOf "j0nLFbRknVeCjCut1ubDK9zAEPN1PGF3ZD7IWVnsQqw=") PUBLIC
  = Ret "028f49cb15b4649d57828c2badd6e6c32bdcc010f3753c6177643ec85959ec42ac".
Proof. reflexivity. Qed.

Lemma raw_33_byte_key :
  WebCryptoUtils.pemToHex rawKeyPem PUBLIC
  = Ret "028f49cb15b4649d57828c2badd6e6c32bdcc010f3753c6177643ec85959ec42ac".
Proof. reflexivity. Qed.

Lemma uncompressed_key_odd_y :
  WebCryptoUtils.pemToHex
    (pemOf ("BI9JyxW0ZJ1XgowrrdbmwyvcwBDzdTxhd2Q+yFlZ7EKsEjRWeJCrze8SNFZ4kKvN"
            +:+ "7xI0VniQq83vEjRWeJCrze8=")) PUBLIC
  = Ret "038f49cb15b4649d57828c2badd6e6c32bdcc010f3753c6177643ec85959ec42ac".
Proof. reflexivity. Qed.

Lemma uncompressed_key_even_y :
  WebCryptoUtils.pemToHex
    (pemOf ("BI9JyxW0ZJ1XgowrrdbmwyvcwBDzdTxhd2Q+yFlZ7EKsEjRWeJCrze8SNFZ4kKvN"
            +:+ "7xI0VniQq83vEjRWeJCrze4=")) PUBLIC
  = Ret "028f49cb15b4649d57828c2badd6e6c32bdcc010f3753c6177643ec85959ec42ac".
Proof. reflexivity. Qed.

Lemma real_world_pem :
  WebCryptoUtils.pemToHex (pemOf "Ao9JyxW0ZJ1XgowrrdbmwyvcwBDzdTxhd2Q+yFlZ7EKs") PUBLIC
  = Ret "028f49cb15b4649d57828c2badd6e6c32bdcc010f3753c6177643ec85959ec42ac".
Proof. reflexivity. Qed.

Lemma invalid_key_length :
  WebCryptoUtils.pemToHex shortPem PUBLIC = Throw (UnsupportedPublicKeyFormat 2).
Proof. reflexivity. Qed.

(** The writer, on the key of the suites. *)
Lemma written_public_key :
  CryptoUtils.hexToPem demo (Hex.bytesToHex samplePublicKey) PUBLIC
  = Ret (pemOf ("MFYwEAYHKoZIzj0CAQYFK4EEAAoDQgACj0nLFbRknVeCjCut1ubDK9zAEPN1PGF3"
                +:+ newline +:+ "ZD7IWVnsQqw=")).
Proof. reflexivity. Qed.

(** A hex text in upper case is accepted by the writer and read back in
    lower case. *)
Lemma upper_case_reads_back_lower :
  (pem ← CryptoUtils.hexToPem demo "02AB" PUBLIC;
   Ret (CryptoUtils.pemToHex demo pem PUBLIC)) = Ret "02ab".
Proof. reflexivity. Qed.

(** Scenario 1: the canonical object of a minimal tool has the keys
    [command], [description], [enact], [name], in that order. *)
Lemma minimal_tool_projection :
  SigningService.getCanonicalDocument bareTool enactDefaults
  = Ret [("command", VStr "echo 'test'"); ("description", VStr "A test tool");
         ("enact", VStr "1.0.0"); ("name", VStr "test-tool")].
Proof. reflexivity. Qed.

(** Scenario 4: with [minimumSignatures = 2], one valid signature is
    rejected and two are accepted. *)
Lemma two_signatures_required :
  SigningService.verifyDocument demo trustingHost (signedBy [demoSignature])
    dummySignature enactDefaults (Some strictTwo) = Ret false
  /\ SigningService.verifyDocument demo trustingHost
       (signedBy [demoSignature; demoSignature]) dummySignature enactDefaults
       (Some strictTwo) = Ret true.
Proof. split; reflexivity. Qed.

(** Scenario 5: an empty [signatures] and a dummy signature pass under the
    default policy. *)
Lemma unsigned_document_accepted :
  SigningService.verifyDocument demo emptyHost unsignedTool dummySignature
    enactDefaults (Some DEFAULT_SECURITY_CONFIG) = Ret true.
Proof. reflexivity. Qed.

(** Scenario 6: a signature whose public key was cleared verifies while
    its key is trusted, and no longer once the key is gone. *)
Lemma stripped_public_key :
  SigningService.verifyDocument demo trustingHost bareTool strippedSignature
    enactDefaults None = Ret true
  /\ SigningService.verifyDocument demo emptyHost bareTool strippedSignature
       enactDefaults None = Ret false.
Proof. split; reflexivity. Qed.

(** A partial policy is merged over the defaults
    ([security-config.test.ts]). *)
Lemma partial_config_merges :
  SigningService.verifyDocument demo emptyHost unsignedTool dummySignature
    enactDefaults
    (Some {| allowLocalUnsigned := Absent; minimumSignatures := Present 2%Z |})
  = Ret true.
Proof. reflexivity. Qed.

End Replay.

(** ** Further properties of the field selection *)

Module ProjectionFacts.
Import FieldSelector SelectorFacts.

Lemma get_absent (o : object) (key : string) :
  hasOwnProperty o key = false -> get o key = VUndefined.
Proof.
  induction o as [|[k v] o IH]; cbn [hasOwnProperty get]; [reflexivity|].
  intros [Hk Ho]%orb_false_iff. rewrite Hk. now apply IH.
Qed.

(** The first half of the test in [validateRequiredFields] adds nothing: a
    property the document does not own reads as [undefined], which is
    empty. *)
Lemma missingOrEmpty_is_empty (document : EnactDocument) (field : string) :
  missingOrEmpty document field = isEmpty (document_get document field).
Proof.
  unfold missingOrEmpty, document_hasOwnProperty, document_get.
  destruct (String.eqb field "signatures").
  - destruct (signatures document); cbn; reflexivity.
  - destruct (hasOwnProperty (fields document) field) eqn:E; [reflexivity|].
    now rewrite (get_absent _ _ E).
Qed.

Lemma get_set (o : object) (key key' : string) (v : value) :
  get (set o key v) key' = if String.eqb key key' then v else get o key'.
Proof.
  induction o as [|[k w] o IH]; cbn [set get]; [reflexivity|].
  destruct (String.eqb k key) eqn:E; cbn [get].
  - apply String.eqb_eq in E as ->. now destruct (String.eqb key key').
  - rewrite IH. destruct (String.eqb k key') eqn:E1; [|reflexivity].
    apply String.eqb_eq in E1 as ->.
    now rewrite (proj2 (String.eqb_neq key key'))
      by (intros ->; rewrite String.eqb_refl in E; discriminate).
Qed.

Lemma get_fold (document : EnactDocument) (l : list string) (acc : object)
    (key : string) :
  get (fold_left (step document) l acc) key
  = if bool_decide (key ∈ l) && isNonEmpty (document_get document key)
    then document_get document key else get acc key.
Proof.
  revert acc; induction l as [|f l IH]; intros acc; [reflexivity|].
  cbn [fold_left]. rewrite IH. unfold step.
  destruct (decide (key = f)) as [->|Hne].
  - rewrite (bool_decide_eq_true_2 (f ∈ f :: l)) by (apply elem_of_cons; now left).
    cbn [andb]. destruct (isNonEmpty (document_get document f)) eqn:E.
    + rewrite get_set, String.eqb_refl. now rewrite andb_true_r, Tauto.if_same.
    + now rewrite andb_false_r.
  - assert (Hiff : bool_decide (key ∈ f :: l) = bool_decide (key ∈ l)).
    { apply bool_decide_ext. rewrite elem_of_cons. tauto. }
    rewrite Hiff.
    destruct (bool_decide (key ∈ l) && isNonEmpty (document_get document key));
      [reflexivity|].
    destruct (isNonEmpty (document_get document f)); [|reflexivity].
    rewrite get_set.
    now rewrite (proj2 (String.eqb_neq f key)) by congruence.
Qed.

Lemma hasOwnProperty_fold_eq (document : EnactDocument) (l : list string)
    (acc : object) (key : string) :
  hasOwnProperty (fold_left (step document) l acc) key
  = bool_decide (key ∈ l) && isNonEmpty (document_get document key)
    || hasOwnProperty acc key.
Proof.
  revert acc; induction l as [|f l IH]; intros acc; [reflexivity|].
  cbn [fold_left]. rewrite IH. unfold step.
  destruct (decide (key = f)) as [->|Hne].
  - rewrite (bool_decide_eq_true_2 (f ∈ f :: l)) by (apply elem_of_cons; now left).
    cbn [andb]. destruct (isNonEmpty (document_get document f)) eqn:E.
    + rewrite hasOwnProperty_set, String.eqb_refl. cbn. now rewrite orb_true_r.
    + now rewrite andb_false_r.
  - assert (Hiff : bool_decide (key ∈ f :: l) = bool_decide (key ∈ l)).
    { apply bool_decide_ext. rewrite elem_of_cons. tauto. }
    rewrite Hiff. f_equal.
    destruct (isNonEmpty (document_get document f)); [|reflexivity].
    rewrite hasOwnProperty_set.
    now rewrite (proj2 (String.eqb_neq f key)) by congruence.
Qed.

Lemma project_fold (document : EnactDocument) (l : list string) :
  project document l = fold_left (step document) l [].
Proof. reflexivity. Qed.

End ProjectionFacts.

Module CanonicalFacts.
Import FieldSelector SelectorFacts ProjectionFacts.

(** What a returned canonical object is. *)
Lemma createCanonicalObject_ret (self : FieldSelector.t) (document : EnactDocument)
    (options : SigningFieldOptions) (canonical : object) :
  createCanonicalObject self document options = Ret canonical ->
  canonical = project document (sort (fieldsToInclude self options)).
Proof.
  unfold createCanonicalObject.
  destruct (validateRequiredFields _ _ _); [|discriminate].
  cbn. now intros [= <-].
Qed.

Lemma elem_of_sort_bool (key : string) (l : list string) :
  bool_decide (key ∈ sort l) = bool_decide (key ∈ l).
Proof. apply bool_decide_ext, elem_of_sort. Qed.

Lemma Forall_set (Q : value -> Prop) (o : object) (key : string) (v : value) :
  Forall (fun kv => Q (snd kv)) o -> Q v ->
  Forall (fun kv => Q (snd kv)) (set o key v).
Proof.
  intros Ho Hv. induction Ho as [|[k w] o Hw Ho IH]; cbn [set].
  - now repeat constructor.
  - destruct (String.eqb k key); constructor; auto.
Qed.

Lemma Forall_fold (document : EnactDocument) (l : list string) (acc : object) :
  Forall (fun kv => isEmpty (snd kv) = false) acc ->
  Forall (fun kv => isEmpty (snd kv) = false) (fold_left (step document) l acc).
Proof.
  revert acc; induction l as [|f l IH]; intros acc Hacc; [exact Hacc|].
  cbn [fold_left]. apply IH. unfold step.
  destruct (isNonEmpty (document_get document f)) eqn:E; [|exact Hacc].
  apply (Forall_set (fun v => isEmpty v = false)); [exact Hacc|].
  now apply negb_true_iff.
Qed.

Lemma keys_set_in (o : object) (key : string) (v : value) :
  key ∈ keys o -> keys (set o key v) = keys o.
Proof.
  induction o as [|[k w] o IH]; intros Hin; [now apply elem_of_nil in Hin|].
  cbn [set]. destruct (String.eqb k key) eqn:E; [reflexivity|].
  cbn [keys map fst]. f_equal. apply IH.
  apply elem_of_cons in Hin as [->|Hin]; [|exact Hin].
  cbn in E. now rewrite String.eqb_refl in E.
Qed.

Lemma keys_set_notin (o : object) (key : string) (v : value) :
  key ∉ keys o -> keys (set o key v) = keys o ++ [key].
Proof.
  induction o as [|[k w] o IH]; intros Hin; [reflexivity|].
  cbn [set]. destruct (String.eqb k key) eqn:E.
  - apply String.eqb_eq in E as ->. exfalso. apply Hin, elem_of_cons. now left.
  - cbn [keys map fst app]. f_equal. apply IH.
    intros H. apply Hin, elem_of_cons. now right.
Qed.

Lemma leb_trans (a b c : string) :
  String.leb a b = true -> String.leb b c = true -> String.leb a c = true.
Proof.
  intros H1 H2. apply Is_true_true.
  apply (@transitivity _ String.le _ a b c); now apply Is_true_true.
Qed.

Lemma leb_false (a b : string) : String.leb a b = false -> String.leb b a = true.
Proof. intros H. destruct (String.leb_total a b); congruence. Qed.

Lemma Forall_insert_sorted (Q : string -> Prop) (x : string) (l : list string) :
  Q x -> Forall Q l -> Forall Q (insert_sorted x l).
Proof.
  intros Hx Hl. induction Hl as [|y l Hy Hl IH]; cbn [insert_sorted].
  - now repeat constructor.
  - destruct (String.leb x y); repeat constructor; auto.
Qed.

Lemma sorted_insert (x : string) (l : list string) :
  StronglySorted (fun a b => String.leb a b = true) l ->
  StronglySorted (fun a b => String.leb a b = true) (insert_sorted x l).
Proof.
  induction 1 as [|y l Hl IH Hy]; cbn [insert_sorted].
  - repeat constructor.
  - destruct (String.leb x y) eqn:E.
    + constructor; [now constructor|]. constructor; [exact E|].
      eapply Forall_impl; [exact Hy|]. intros z Hz. now apply leb_trans with y.
    + constructor; [exact IH|].
      apply Forall_insert_sorted; [now apply leb_false | exact Hy].
Qed.

(** [sort] sorts. *)
Lemma sort_sorted (l : list string) :
  StronglySorted (fun a b => String.leb a b = true) (sort l).
Proof.
  induction l as [|x l IH]; cbn [sort]; [constructor | now apply sorted_insert].
Qed.

Lemma ascending_snoc (ks : list string) (f : string) :
  ascending ks -> Forall (fun k => String.leb k f = true /\ k <> f) ks ->
  ascending (ks ++ [f]).
Proof.
  unfold ascending. induction 1 as [|k ks Hks IH Hk]; intros Hf; cbn [app].
  - repeat constructor.
  - inversion Hf as [|? ? Hkf Hrest]; subst. constructor; [now apply IH|].
    apply Forall_app. split; [exact Hk | now repeat constructor].
Qed.

Lemma keys_fold_ascending (document : EnactDocument) (l : list string) (acc : object) :
  StronglySorted (fun a b => String.leb a b = true) l ->
  ascending (keys acc) ->
  Forall (fun k => Forall (fun f => String.leb k f = true) l) (keys acc) ->
  ascending (keys (fold_left (step document) l acc)).
Proof.
  revert acc; induction l as [|f l IH]; intros acc Hl Hacc Hle; [exact Hacc|].
  cbn [fold_left]. inversion Hl as [|? ? Hl' Hf]; subst.
  assert (Htail : Forall (fun k => Forall (fun g => String.leb k g = true) l) (keys acc)).
  { eapply Forall_impl; [exact Hle|]. intros k Hk. now inversion Hk. }
  unfold step. destruct (isNonEmpty (document_get document f)); [|now apply IH].
  destruct (decide (f ∈ keys acc)) as [Hin|Hnot].
  - apply IH; [exact Hl'| |]; now rewrite keys_set_in.
  - apply IH; [exact Hl'| |]; rewrite keys_set_notin by exact Hnot.
    + apply ascending_snoc; [exact Hacc|].
      rewrite Forall_forall in Hle |- *. intros k Hk.
      specialize (Hle k Hk). inversion Hle; subst. split; [assumption|].
      intros ->. now apply Hnot.
    + apply Forall_app. split; [exact Htail|]. now repeat constructor.
Qed.

End CanonicalFacts.

(** X1. A canonical object that [createCanonicalObject] returns owns
    exactly the selected names at which the document holds a non-empty
    value, and holds the document's value there. *)
Theorem canonical_object_contents (self : FieldSelector.t) (document : EnactDocument)
    (options : SigningFieldOptions) (canonical : object) :
  FieldSelector.createCanonicalObject self document options = Ret canonical ->
  forall key,
    hasOwnProperty canonical key
    = bool_decide (key ∈ FieldSelector.fieldsToInclude self options)
      && FieldSelector.isNonEmpty (document_get document key)
    /\ get canonical key
       = if hasOwnProperty canonical key then document_get document key
         else VUndefined.
Proof.
  intros Hc key. apply CanonicalFacts.createCanonicalObject_ret in Hc as ->.
  rewrite ProjectionFacts.project_fold, ProjectionFacts.hasOwnProperty_fold_eq,
    ProjectionFacts.get_fold, CanonicalFacts.elem_of_sort_bool.
  cbn [hasOwnProperty get]. now rewrite orb_false_r.
Qed.

Lemma canonical_object_contents_witness :
  FieldSelector.createCanonicalObject EnactFieldSelector bareTool
    (SigningService.fieldOptions enactDefaults) = Ret testToolCanonical
  /\ hasOwnProperty testToolCanonical "version" = false
  /\ get testToolCanonical "name" = VStr "test-tool".
Proof.
  split; [reflexivity|].
  pose proof (canonical_object_contents EnactFieldSelector bareTool
                (SigningService.fieldOptions enactDefaults) testToolCanonical
                eq_refl) as H.
  split.
  - now rewrite (proj1 (H "version")).
  - now rewrite (proj2 (H "name")).
Defined.

(** X2. No value of a returned canonical object is empty: neither
    [null] nor [undefined], nor an empty string, array or object. *)
Theorem canonical_object_no_empty_value (self : FieldSelector.t)
    (document : EnactDocument) (options : SigningFieldOptions) (canonical : object) :
  FieldSelector.createCanonicalObject self document options = Ret canonical ->
  forall key v, (key, v) ∈ canonical -> FieldSelector.isEmpty v = false.
Proof.
  intros Hc key v Hin. apply CanonicalFacts.createCanonicalObject_ret in Hc as ->.
  rewrite ProjectionFacts.project_fold in Hin.
  pose proof (CanonicalFacts.Forall_fold document
                (sort (FieldSelector.fieldsToInclude self options)) []
                (List.Forall_nil _)) as H.
  rewrite Forall_forall in H. exact (H (key, v) Hin).
Qed.

(** X3. The property names of a returned canonical object are strictly
    ascending by code units, whatever the order and the repetitions of the
    selected names.  (An object is read in insertion order, as JavaScript
    reads the names that are not array indices.) *)
Theorem canonical_object_keys_ascending (self : FieldSelector.t)
    (document : EnactDocument) (options : SigningFieldOptions) (canonical : object) :
  FieldSelector.createCanonicalObject self document options = Ret canonical ->
  ascending (keys canonical).
Proof.
  intros Hc. apply CanonicalFacts.createCanonicalObject_ret in Hc as ->.
  rewrite ProjectionFacts.project_fold.
  apply CanonicalFacts.keys_fold_ascending.
  - apply CanonicalFacts.sort_sorted.
  - constructor.
  - constructor.
Qed.

Lemma canonical_object_no_empty_value_witness :
  FieldSelector.isEmpty (VStr "1.0.0") = false.
Proof.
  apply (canonical_object_no_empty_value EnactFieldSelector bareTool
           (SigningService.fieldOptions enactDefaults) testToolCanonical eq_refl
           "enact").
  apply list_elem_of_In. cbn. tauto.
Defined.

Lemma canonical_object_keys_ascending_witness :
  ascending ["command"; "description"; "enact"; "name"].
Proof.
  exact (canonical_object_keys_ascending EnactFieldSelector bareTool
           (SigningService.fieldOptions enactDefaults) testToolCanonical eq_refl).
Defined.

Module ValidationFacts.
Import FieldSelector SelectorFacts ProjectionFacts.

Lemma createCanonicalObject_eq (self : FieldSelector.t) (document : EnactDocument)
    (options : SigningFieldOptions) :
  createCanonicalObject self document options
  = (check_required document
       (map name
          (List.filter
             (fun field =>
                required field && includes (fieldsToInclude self options) (name field))
             (default (fieldConfigs self) (customFieldConfig options))))
     ≫= fun _ => Ret (project document (sort (fieldsToInclude self options)))).
Proof. reflexivity. Qed.

(** The loop returns when no test of it throws and none finds its field
    missing or empty. *)
Lemma check_required_returns (document : EnactDocument) (l : list string) :
  returns (check_required document l) = true
  <-> forall f, f ∈ l ->
        document_hasOwnProperty document "hasOwnProperty" = false
        /\ isEmpty (document_get document f) = false.
Proof.
  split.
  - intros Hret f Hf.
    destruct (document_hasOwnProperty document "hasOwnProperty") eqn:Hcall.
    + rewrite check_required_shadowed in Hret; [discriminate | exact Hcall |].
      intros ->. now apply elem_of_nil in Hf.
    + split; [reflexivity|]. rewrite <- missingOrEmpty_is_empty.
      apply not_true_is_false. intros Hl.
      destruct (check_required_throws document l f Hcall Hf Hl) as (g & Hg & _).
      now rewrite Hg in Hret.
  - intros H. destruct l as [|x l]; [reflexivity|].
    destruct (H x) as [Hcall _]; [apply elem_of_cons; now left|].
    rewrite check_required_passes; [reflexivity | exact Hcall |].
    intros f Hf. rewrite missingOrEmpty_is_empty. now apply H.
Qed.

(** The projection reads no more of the document than the values at the
    selected names, and whether [hasOwnProperty] can be called on it. *)
Lemma createCanonicalObject_ext (self : FieldSelector.t) (d1 d2 : EnactDocument)
    (options : SigningFieldOptions) :
  document_hasOwnProperty d1 "hasOwnProperty"
  = document_hasOwnProperty d2 "hasOwnProperty" ->
  (forall f, f ∈ fieldsToInclude self options ->
     document_get d1 f = document_get d2 f) ->
  createCanonicalObject self d1 options = createCanonicalObject self d2 options.
Proof.
  intros Hcall H. rewrite !createCanonicalObject_eq.
  assert (Hcheck : forall l,
             (forall f, f ∈ l -> f ∈ fieldsToInclude self options) ->
             check_required d1 l = check_required d2 l).
  { induction l as [|f l IH]; intros Hl; [reflexivity|].
    cbn [check_required]. rewrite !lacks_eq, Hcall, !missingOrEmpty_is_empty.
    rewrite (H f) by (apply Hl, elem_of_cons; now left).
    rewrite IH; [reflexivity|]. intros g Hg. apply Hl, elem_of_cons. now right. }
  rewrite Hcheck.
  - rewrite (project_ext d1 d2); [reflexivity|].
    intros f Hf. apply H. now apply (proj1 (elem_of_sort _ _)).
  - intros f Hf. apply (proj1 (required_selected _ _ _)) in Hf.
    now destruct Hf as (_ & _ & _ & _ & Hf).
Qed.

End ValidationFacts.

(** X4. [createCanonicalObject] returns exactly when, for every field that
    is required in the active configuration and selected, the call
    [document.hasOwnProperty] can be made (the document has no property of
    its own named [hasOwnProperty]) and the document holds a non-empty
    value there; a required field that is excluded, or left out of
    [includeFields], is not asked for. *)
Theorem projection_succeeds_iff (self : FieldSelector.t) (document : EnactDocument)
    (options : SigningFieldOptions) :
  returns (FieldSelector.createCanonicalObject self document options) = true
  <-> forall fc,
        fc ∈ default (FieldSelector.fieldConfigs self) (customFieldConfig options) ->
        required fc = true ->
        name fc ∈ FieldSelector.fieldsToInclude self options ->
        document_hasOwnProperty document "hasOwnProperty" = false
        /\ FieldSelector.isEmpty (document_get document (name fc)) = false.
Proof.
  rewrite ValidationFacts.createCanonicalObject_eq.
  set (l := map name _).
  assert (Hret : returns (FieldSelector.check_required document l
                          ≫= fun _ => Ret (FieldSelector.project document
                                             (sort (FieldSelector.fieldsToInclude self options))))
                 = returns (FieldSelector.check_required document l)).
  { now destruct (FieldSelector.check_required document l). }
  rewrite Hret, ValidationFacts.check_required_returns. unfold l. split.
  - intros H fc Hin Hreq Hsel.
    apply H, SelectorFacts.required_selected. now exists fc.
  - intros H f Hf. apply (proj1 (SelectorFacts.required_selected _ _ _)) in Hf.
    destruct Hf as (fc & Hin & <- & Hreq & Hsel). now apply H.
Qed.

Lemma projection_succeeds_iff_witness :
  returns (FieldSelector.createCanonicalObject GenericFieldSelector commandOnly
             (SigningService.fieldOptions (only ["command"]))) = true.
Proof.
  apply (projection_succeeds_iff GenericFieldSelector commandOnly
           (SigningService.fieldOptions (only ["command"]))).
  intros fc _ _ Hsel. apply list_elem_of_In in Hsel.
  destruct Hsel as [<-|[]]. split; reflexivity.
Defined.

(** X5. Field locality.  Two documents that hold the same values at the
    selected names, and that both have or both lack a property of their own
    named [hasOwnProperty], have the same canonical object, the same digest
    and, under one key and one clock, the same signature. *)
Theorem field_locality (P : Platform) (d1 d2 : EnactDocument)
    (options : SigningOptions) :
  document_hasOwnProperty d1 "hasOwnProperty"
  = document_hasOwnProperty d2 "hasOwnProperty" ->
  (forall f,
     f ∈ FieldSelector.fieldsToInclude (SigningService.fieldSelector options)
           (SigningService.fieldOptions options) ->
     document_get d1 f = document_get d2 f) ->
  SigningService.getCanonicalDocument d1 options
  = SigningService.getCanonicalDocument d2 options
  /\ SigningService.createDocumentHash P d1 options
     = SigningService.createDocumentHash P d2 options
  /\ forall privateKey now,
       SigningService.signDocument P d1 privateKey options now
       = SigningService.signDocument P d2 privateKey options now.
Proof.
  intros Hcall H.
  assert (Heq : SigningService.getCanonicalDocument d1 options
                = SigningService.getCanonicalDocument d2 options)
    by now apply ValidationFacts.createCanonicalObject_ext.
  split; [exact Heq|].
  split; [|intros privateKey now];
    unfold SigningService.signDocument, SigningService.createDocumentHash,
      SigningService.documentString; now rewrite Heq.
Qed.

Lemma field_locality_witness :
  SigningService.signDocument demo commandOnly "01" (only ["command"]) 0
  = SigningService.signDocument demo
      {| signatures := None;
         fields := [("name", VStr "renamed"); ("command", VStr "mytools/fun")] |}
      "01" (only ["command"]) 0.
Proof.
  apply (field_locality demo commandOnly
           {| signatures := None;
              fields := [("name", VStr "renamed"); ("command", VStr "mytools/fun")] |}
           (only ["command"])).
  - reflexivity.
  - intros f Hf. apply list_elem_of_In in Hf. destruct Hf as [<-|[]]. reflexivity.
Defined.

(** X6. Projecting twice is projecting once: a returned canonical object,
    read as a document, projects to itself under the same options, as long
    as these do not select [signatures]. *)
Theorem projection_idempotent (self : FieldSelector.t) (document : EnactDocument)
    (options : SigningFieldOptions) (canonical : object) :
  ("signatures" ∉ FieldSelector.fieldsToInclude self options) ->
  FieldSelector.createCanonicalObject self document options = Ret canonical ->
  FieldSelector.createCanonicalObject self (asDocument canonical) options
  = Ret canonical.
Proof.
  intros Hsig Hc.
  assert (Hget : forall f,
             f ∈ FieldSelector.fieldsToInclude self options ->
             document_get (asDocument canonical) f
             = if FieldSelector.isNonEmpty (document_get document f)
               then document_get document f else VUndefined).
  { intros f Hf. unfold asDocument.
    rewrite SelectorFacts.document_get_other by (intros ->; contradiction).
    pose proof (CanonicalFacts.createCanonicalObject_ret _ _ _ _ Hc) as ->.
    rewrite ProjectionFacts.project_fold, ProjectionFacts.get_fold,
      CanonicalFacts.elem_of_sort_bool.
    now rewrite (bool_decide_eq_true_2 _ Hf). }
  assert (Hstep : forall f acc,
             f ∈ FieldSelector.fieldsToInclude self options ->
             step (asDocument canonical) acc f = step document acc f).
  { intros f acc Hf. unfold step. rewrite (Hget f Hf).
    now destruct (FieldSelector.isNonEmpty (document_get document f)) eqn:E; rewrite ?E. }
  assert (Hproj : forall l acc,
             (forall f, f ∈ l -> f ∈ FieldSelector.fieldsToInclude self options) ->
             fold_left (step (asDocument canonical)) l acc
             = fold_left (step document) l acc).
  { induction l as [|f l IH]; intros acc Hl; [reflexivity|].
    cbn [fold_left]. rewrite Hstep by (apply Hl, elem_of_cons; now left).
    apply IH. intros g Hg. apply Hl, elem_of_cons. now right. }
  pose proof (CanonicalFacts.createCanonicalObject_ret _ _ _ _ Hc) as Hcan.
  rewrite ValidationFacts.createCanonicalObject_eq in Hc |- *.
  set (l := map name _) in *.
  assert (Hpass : forall f, f ∈ l ->
             document_hasOwnProperty document "hasOwnProperty" = false
             /\ FieldSelector.isEmpty (document_get document f) = false).
  { apply ValidationFacts.check_required_returns.
    now destruct (FieldSelector.check_required document l). }
  assert (Hagain : returns (FieldSelector.check_required (asDocument canonical) l)
                   = true).
  { apply ValidationFacts.check_required_returns. intros f Hf.
    destruct (Hpass f Hf) as [Hcall Hfull].
    apply (proj1 (SelectorFacts.required_selected _ _ _)) in Hf.
    destruct Hf as (_ & _ & _ & _ & Hf). split.
    - unfold asDocument.
      rewrite SelectorFacts.document_hasOwnProperty_other by discriminate.
      rewrite Hcan, ProjectionFacts.project_fold,
        ProjectionFacts.hasOwnProperty_fold_eq.
      cbn [hasOwnProperty]. rewrite orb_false_r.
      assert (Hnone : FieldSelector.isEmpty (document_get document "hasOwnProperty")
                      = true).
      { rewrite <- ProjectionFacts.missingOrEmpty_is_empty.
        unfold FieldSelector.missingOrEmpty. now rewrite Hcall. }
      unfold FieldSelector.isNonEmpty. rewrite Hnone. apply andb_false_r.
    - rewrite (Hget f Hf). unfold FieldSelector.isNonEmpty. now rewrite Hfull. }
  destruct (FieldSelector.check_required (asDocument canonical) l) as [[]|e];
    [|discriminate].
  cbn. f_equal. rewrite ProjectionFacts.project_fold, Hproj.
  - symmetry. exact Hcan.
  - intros f Hf. now apply (proj1 (SelectorFacts.elem_of_sort _ _)).
Qed.

Lemma projection_idempotent_witness :
  FieldSelector.createCanonicalObject EnactFieldSelector (asDocument testToolCanonical)
    (SigningService.fieldOptions enactDefaults) = Ret testToolCanonical.
Proof.
  apply (projection_idempotent EnactFieldSelector bareTool
           (SigningService.fieldOptions enactDefaults) testToolCanonical).
  - apply (bool_decide_unpack _). vm_compute. exact I.
  - reflexivity.
Defined.

(** X7. A name listed in [excludeFields] is never a property of the
    canonical object, also when [includeFields] or
    [additionalCriticalFields] list it and the document holds a value
    there. *)
Theorem excluded_field_absent (self : FieldSelector.t) (document : EnactDocument)
    (options : SigningFieldOptions) (canonical : object) (key : string) :
  key ∈ default [] (sf_excludeFields options) ->
  FieldSelector.createCanonicalObject self document options = Ret canonical ->
  hasOwnProperty canonical key = false /\ get canonical key = VUndefined.
Proof.
  intros Hex Hc.
  assert (Hnot : key ∉ FieldSelector.fieldsToInclude self options).
  { unfold FieldSelector.fieldsToInclude. rewrite list_elem_of_In, filter_In.
    intros [_ H]. apply negb_true_iff in H.
    apply not_true_iff_false in H. apply H. now apply SelectorFacts.includes_true. }
  apply CanonicalFacts.createCanonicalObject_ret in Hc as ->.
  rewrite ProjectionFacts.project_fold, ProjectionFacts.hasOwnProperty_fold_eq,
    ProjectionFacts.get_fold, CanonicalFacts.elem_of_sort_bool.
  now rewrite (bool_decide_eq_false_2 _ Hnot).
Qed.

Lemma excluded_field_absent_witness :
  hasOwnProperty [("name", VStr "test-tool")] "command" = false.
Proof.
  apply (excluded_field_absent GenericFieldSelector bareTool
           {| sf_includeFields := Some ["command"; "name"];
              sf_excludeFields := Some ["command"];
              sf_additionalCriticalFields := None; customFieldConfig := None |}
           [("name", VStr "test-tool")] "command").
  - apply list_elem_of_In. left. reflexivity.
  - reflexivity.
Defined.

(** ** Further properties of the signing services *)

Module SigningFacts.
Import SigningService.

(** What a returned signature is made of. *)
Lemma signDocument_ret (P : Platform) (document : EnactDocument)
    (privateKeyHex : string) (options : SigningOptions) (now : Z) (s : Signature) :
  signDocument P document privateKeyHex options now = Ret s ->
  exists canonical privateKey derived,
    getCanonicalDocument document options = Ret canonical
    /\ Hex.hexToBytes privateKeyHex = Ret privateKey
    /\ secp256k1_sign P (sha256 P (JSON_stringify P canonical)) privateKey
       = Ret (signature s)
    /\ secp256k1_getPublicKey P privateKey = Ret derived
    /\ publicKey s = VStr (Hex.bytesToHex derived).
Proof.
  unfold signDocument, createDocumentHash, documentString.
  destruct (getCanonicalDocument document options) as [canonical|e]; [|discriminate].
  cbn. unfold CryptoUtils.sign, CryptoUtils.getPublicKeyFromPrivate, CryptoUtils.hash.
  destruct (Hex.hexToBytes privateKeyHex) as [k|e]; [|discriminate]. cbn.
  rewrite HexFacts.hexToBytes_bytesToHex. cbn.
  destruct (secp256k1_sign P _ k) as [sg|e] eqn:Hs; [|discriminate]. cbn.
  destruct (secp256k1_getPublicKey P k) as [pub|e] eqn:Hp; [|discriminate]. cbn.
  intros [= <-]. exists canonical, k, pub. cbn. auto.
Qed.

(** The signature of a sound curve verifies under the derived key. *)
Lemma verify_own_signature (P : Platform) (privateKey publicKey : list byte)
    (data signatureHex : string) :
  curve_sound P ->
  secp256k1_sign P (sha256 P data) privateKey = Ret signatureHex ->
  secp256k1_getPublicKey P privateKey = Ret publicKey ->
  CryptoUtils.verify P (Hex.bytesToHex publicKey) (CryptoUtils.hash P data) signatureHex
  = true.
Proof.
  intros Hsound Hs Hp. unfold CryptoUtils.verify, CryptoUtils.verify_try, CryptoUtils.hash.
  rewrite !HexFacts.hexToBytes_bytesToHex. cbn.
  now rewrite (Hsound _ _ _ _ Hs Hp).
Qed.

(** Whatever passes the callback of [every] verifies under a trusted key. *)
Lemma signatureIsValid_trusted (P : Platform) (T : list string)
    (messageHash : string) (sig : Signature) :
  signatureIsValid P T messageHash sig = true ->
  exists pk, pk ∈ T /\ CryptoUtils.verify P pk messageHash (signature sig) = true.
Proof.
  unfold signatureIsValid.
  destruct (hasValidPublicKey sig && includes T (publicKeyString sig)) eqn:E.
  - apply andb_true_iff in E as [_ E]. apply SelectorFacts.includes_true in E.
    intros H. now exists (publicKeyString sig).
  - apply VerifyFacts.verifyAgainstAny_true.
Qed.

Lemma signatureIsValid_by_trusted_key (P : Platform) (T : list string)
    (messageHash : string) (sig : Signature) :
  publicKeyString sig ∈ T ->
  CryptoUtils.verify P (publicKeyString sig) messageHash (signature sig) = true ->
  signatureIsValid P T messageHash sig = true.
Proof.
  intros Hin Hv. unfold signatureIsValid.
  destruct (hasValidPublicKey sig && includes T (publicKeyString sig)); [exact Hv|].
  apply VerifyFacts.verifyAgainstAny_true. now exists (publicKeyString sig).
Qed.

Lemma forallb_Permutation {A} (f : A -> bool) (l1 l2 : list A) :
  Permutation l1 l2 -> forallb f l1 = forallb f l2.
Proof.
  induction 1 as [|x l1 l2 _ IH|x y l|l1 l2 l3 _ IH1 _ IH2]; cbn [forallb].
  - reflexivity.
  - now rewrite IH.
  - now destruct (f x), (f y).
  - now rewrite IH1.
Qed.

End SigningFacts.

(** X8. Signing and verifying compose.  On a sound curve, the signature
    that [signDocument] returns for a document without a [signatures]
    property is accepted by [verifyDocument] for the same document and
    options, when its public key is trusted and the policy asks for at most
    one signature. *)
Theorem sign_then_verify (P : Platform) (host : HostState) (document : EnactDocument)
    (privateKeyHex : string) (options : SigningOptions) (now : Z)
    (securityConfig : option SecurityConfig) (s : Signature) :
  curve_sound P ->
  SigningService.signDocument P document privateKeyHex options now = Ret s ->
  signatures document = None ->
  (SigningService.threshold (SigningService.effectiveConfig host securityConfig) <= 1)%Z ->
  SigningService.publicKeyString s ∈ getAllTrustedPublicKeys host ->
  SigningService.verifyDocument P host document s options securityConfig = Ret true.
Proof.
  intros Hsound Hsign Hnone Hm Htrust.
  destruct (SigningFacts.signDocument_ret P _ _ _ _ _ Hsign)
    as (canonical & k & pub & Hcan & _ & Hs & Hp & Hpk).
  rewrite VerifyFacts.verifyDocument_reached.
  2:{ unfold SigningService.signaturesToVerify. rewrite Hnone. cbn. lia. }
  rewrite (VerifyFacts.createDocumentHash_ret P _ _ _ Hcan). cbn.
  unfold SigningService.signaturesToVerify. rewrite Hnone. cbn [forallb].
  rewrite SigningFacts.signatureIsValid_by_trusted_key; [reflexivity | exact Htrust |].
  unfold SigningService.publicKeyString. rewrite Hpk.
  now apply SigningFacts.verify_own_signature with k.
Qed.

(** The toy curve of the demo platform is sound. *)
Lemma demo_curve_sound : curve_sound demo.
Proof.
  intros k h sg pub Hs Hp. cbn in Hs, Hp. injection Hs as <-. injection Hp as <-.
  cbn. now rewrite String.eqb_refl.
Qed.

Lemma sign_then_verify_witness :
  SigningService.verifyDocument demo trustingHost bareTool demoSignature
    enactDefaults None = Ret true.
Proof.
  apply (sign_then_verify demo trustingHost bareTool "01" enactDefaults 0 None
           demoSignature demo_curve_sound).
  - reflexivity.
  - reflexivity.
  - vm_compute. discriminate.
  - apply list_elem_of_In. left. reflexivity.
Defined.

(** X9. Nothing is accepted on the strength of an untrusted key: when
    [verifyDocument] returns [true], every signature of the verified list
    verifies against the document's digest under some trusted public key. *)
Theorem accepted_signatures_are_trusted (P : Platform) (host : HostState)
    (document : EnactDocument) (provided : Signature) (options : SigningOptions)
    (securityConfig : option SecurityConfig) :
  SigningService.verifyDocument P host document provided options securityConfig
  = Ret true ->
  forall sig,
    sig ∈ SigningService.signaturesToVerify document provided ->
    exists messageHash pk,
      SigningService.createDocumentHash P document options = Ret messageHash
      /\ pk ∈ getAllTrustedPublicKeys host
      /\ CryptoUtils.verify P pk messageHash (signature sig) = true.
Proof.
  intros Hv sig Hin.
  destruct (Z.lt_ge_cases
              (Z.of_nat (length (SigningService.signaturesToVerify document provided)))
              (SigningService.threshold
                 (SigningService.effectiveConfig host securityConfig))) as [Hlt|Hge].
  - rewrite VerifyFacts.verifyDocument_below in Hv by exact Hlt.
    injection Hv as Hv. apply andb_true_iff in Hv as [_ Hn].
    apply Nat.eqb_eq in Hn.
    destruct (SigningService.signaturesToVerify document provided);
      [now apply elem_of_nil in Hin | discriminate].
  - rewrite VerifyFacts.verifyDocument_reached in Hv by exact Hge.
    destruct (SigningService.createDocumentHash P document options) as [h|e];
      [|discriminate].
    cbn in Hv. injection Hv as Hv. rewrite forallb_forall in Hv.
    specialize (Hv sig (proj1 (list_elem_of_In _ _) Hin)).
    apply SigningFacts.signatureIsValid_trusted in Hv as (pk & Hpk & Hver).
    now exists h, pk.
Qed.

Lemma accepted_signatures_are_trusted_witness :
  exists messageHash pk,
    SigningService.createDocumentHash demo bareTool enactDefaults = Ret messageHash
    /\ pk ∈ [kp_publicKey demoKey]
    /\ CryptoUtils.verify demo pk messageHash (signature strippedSignature) = true.
Proof.
  apply (accepted_signatures_are_trusted demo trustingHost bareTool strippedSignature
           enactDefaults None eq_refl strippedSignature).
  apply list_elem_of_In. left. reflexivity.
Defined.

(** X10. The order of [document.signatures] is immaterial: when the
    options do not select [signatures], reordering the list leaves the
    result of [verifyDocument] as it is. *)
Theorem signature_order_immaterial (P : Platform) (host : HostState)
    (o : object) (l1 l2 : list Signature) (provided : Signature)
    (options : SigningOptions) (securityConfig : option SecurityConfig) :
  ("signatures" ∉ FieldSelector.fieldsToInclude (SigningService.fieldSelector options)
                    (SigningService.fieldOptions options)) ->
  Permutation l1 l2 ->
  SigningService.verifyDocument P host {| signatures := Some l1; fields := o |}
    provided options securityConfig
  = SigningService.verifyDocument P host {| signatures := Some l2; fields := o |}
      provided options securityConfig.
Proof.
  intros Hsel Hperm.
  assert (Hhash : SigningService.createDocumentHash P
                    {| signatures := Some l1; fields := o |} options
                  = SigningService.createDocumentHash P
                      {| signatures := Some l2; fields := o |} options).
  { unfold SigningService.createDocumentHash, SigningService.documentString,
      SigningService.getCanonicalDocument.
    rewrite (ValidationFacts.createCanonicalObject_ext _ _
               {| signatures := Some l2; fields := o |}); [reflexivity| |].
    { now rewrite !SelectorFacts.document_hasOwnProperty_other by discriminate. }
    intros f Hf.
    now rewrite !SelectorFacts.document_get_other by (intros ->; contradiction). }
  unfold SigningService.verifyDocument, SigningService.signaturesToVerify.
  cbn [signatures]. rewrite Hhash, (Permutation_length Hperm).
  destruct (_ <? _)%Z; [reflexivity|].
  destruct (SigningService.createDocumentHash P
              {| signatures := Some l2; fields := o |} options) as [h|e];
    [|reflexivity].
  cbn. now rewrite (SigningFacts.forallb_Permutation _ _ _ Hperm).
Qed.

Lemma signature_order_immaterial_witness :
  SigningService.verifyDocument demo trustingHost
    (signedBy [demoSignature; dummySignature]) dummySignature enactDefaults None
  = SigningService.verifyDocument demo trustingHost
      (signedBy [dummySignature; demoSignature]) dummySignature enactDefaults None.
Proof.
  apply (signature_order_immaterial demo trustingHost testTool
           [demoSignature; dummySignature] [dummySignature; demoSignature]).
  - apply (bool_decide_unpack _). vm_compute. exact I.
  - apply perm_swap.
Defined.

(** X11. In the browser package too, signing and verifying compose,
    whatever its field selectors are: on a sound curve, the signature that
    [signDocument] returns is accepted by [verifyDocument] for the same
    document and options. *)
Theorem web_sign_then_verify (P : Platform)
    (createCanonicalObject :
       bool -> EnactDocument -> SigningFieldOptions -> outcome object)
    (document : EnactDocument) (privateKeyHex : string) (options : SigningOptions)
    (now : Z) (s : Signature) :
  curve_sound P ->
  WebSigningService.signDocument P createCanonicalObject document privateKeyHex
    options now = Ret s ->
  WebSigningService.verifyDocument P createCanonicalObject document s options
  = Ret true.
Proof.
  intros Hsound. unfold WebSigningService.signDocument, WebSigningService.verifyDocument.
  destruct (WebSigningService.getCanonicalDocument _ document options) as [c|e];
    [|discriminate].
  cbn. unfold CryptoUtils.sign, CryptoUtils.getPublicKeyFromPrivate.
  destruct (Hex.hexToBytes privateKeyHex) as [k|e]; [|discriminate]. cbn.
  unfold CryptoUtils.hash at 1. rewrite HexFacts.hexToBytes_bytesToHex. cbn.
  destruct (secp256k1_sign P _ k) as [sg|e] eqn:Hs; [|discriminate]. cbn.
  destruct (secp256k1_getPublicKey P k) as [pub|e] eqn:Hp; [|discriminate]. cbn.
  intros [= <-]. cbn. f_equal.
  now apply SigningFacts.verify_own_signature with k.
Qed.

Lemma web_sign_then_verify_witness :
  WebSigningService.verifyDocument demo sharedSelectors bareTool demoSignature
    enactDefaults = Ret true.
Proof.
  apply (web_sign_then_verify demo sharedSelectors bareTool "01" enactDefaults 0
           demoSignature demo_curve_sound).
  reflexivity.
Defined.

(** X12. With the same field selectors, the two packages agree on a
    provided signature that carries a trusted public key: for a document
    without a [signatures] property and a policy that asks for at most one
    signature, the host's [verifyDocument] returns what the browser's
    returns. *)
Theorem host_agrees_with_browser (P : Platform) (host : HostState)
    (document : EnactDocument) (s : Signature) (options : SigningOptions)
    (securityConfig : option SecurityConfig) :
  signatures document = None ->
  SigningService.hasValidPublicKey s = true ->
  SigningService.publicKeyString s ∈ getAllTrustedPublicKeys host ->
  (SigningService.threshold (SigningService.effectiveConfig host securityConfig) <= 1)%Z ->
  SigningService.verifyDocument P host document s options securityConfig
  = WebSigningService.verifyDocument P sharedSelectors document s options.
Proof.
  intros Hnone Hvalid Htrust Hm.
  rewrite VerifyFacts.verifyDocument_reached.
  2:{ unfold SigningService.signaturesToVerify. rewrite Hnone. cbn. lia. }
  unfold WebSigningService.verifyDocument, WebSigningService.getCanonicalDocument,
    sharedSelectors, SigningService.createDocumentHash,
    SigningService.documentString, SigningService.getCanonicalDocument,
    SigningService.signaturesToVerify, SigningService.fieldSelector,
    SigningService.fieldOptions.
  rewrite Hnone.
  destruct (FieldSelector.createCanonicalObject _ document _) as [c|e]; [|reflexivity].
  cbn. unfold SigningService.signatureIsValid. rewrite Hvalid.
  rewrite (proj2 (SelectorFacts.includes_true _ _) Htrust). cbn.
  unfold SigningService.hasValidPublicKey, SigningService.publicKeyString in *.
  destruct (publicKey s); try discriminate. now rewrite andb_true_r.
Qed.

Lemma host_agrees_with_browser_witness :
  SigningService.verifyDocument demo trustingHost bareTool demoSignature
    enactDefaults None
  = WebSigningService.verifyDocument demo sharedSelectors bareTool demoSignature
      enactDefaults.
Proof.
  apply (host_agrees_with_browser demo trustingHost bareTool demoSignature
           enactDefaults None).
  - reflexivity.
  - reflexivity.
  - apply list_elem_of_In. left. reflexivity.
  - vm_compute. discriminate.
Defined.

(** ** Further properties of the key store *)

Module TrimFacts.
Import JsString StringFacts JsTrim.

Lemma trimEnd_app_keep (a b : string) :
  trimEnd b = b -> b <> "" -> trimEnd (a +:+ b) = a +:+ b.
Proof.
  intros Hb Hne. induction a as [|c a IH]; [now rewrite app_nil_l|].
  rewrite app_cons. cbn [trimEnd]. rewrite IH.
  destruct (a +:+ b) eqn:E; [|reflexivity].
  apply (f_equal String.length) in E. rewrite length_app in E.
  destruct b; [contradiction | simpl in E; lia].
Qed.

(** The text that [hexToPem] writes has no white space at its ends. *)
Lemma trim_formatPem (base64Key : string) (type : KeyType) :
  trim (formatPem base64Key type) = formatPem base64Key type.
Proof.
  unfold formatPem.
  change ([beginMarker type] ++ match_1_64 base64Key ++ [endMarker type])
    with (beginMarker type :: (match_1_64 base64Key ++ [endMarker type])).
  rewrite join_cons by now destruct (match_1_64 base64Key).
  rewrite join_snoc. unfold trim.
  assert (Hstart : forall r, trimStart (beginMarker type +:+ r) = beginMarker type +:+ r).
  { intros r. destruct type; unfold beginMarker, keyTypeLabel;
      rewrite !app_cons; reflexivity. }
  rewrite Hstart, <- !app_assoc.
  apply trimEnd_app_keep; [destruct type; reflexivity | destruct type; discriminate].
Qed.

Lemma hexToPem_shape (P : Platform) (hexKey : string) (type : KeyType) (pem : string) :
  CryptoUtils.hexToPem P hexKey type = Ret pem ->
  exists base64Key, pem = formatPem base64Key type.
Proof.
  unfold CryptoUtils.hexToPem.
  destruct (match type with PUBLIC => _ | PRIVATE => _ end) as [derKey|e];
    [|discriminate].
  cbn. destruct (Hex.hexToBytes derKey) as [derBytes|e]; [|discriminate].
  cbn. intros [= <-]. eauto.
Qed.

End TrimFacts.

Module StoreMoreFacts.
Import KeyManager.

(** [storeKey] throws what [ensureDirectories] throws, as it is. *)
Lemma storeKey_directories (P : Platform) (keyId : string) (keyPair : KeyPair)
    (description : option string) (now : string) (fs : FileSystem) (e : error) :
  ensureDirectories fs = (Throw e, fs) ->
  storeKey P keyId keyPair description now fs = (Throw e, fs).
Proof. intros H. unfold storeKey. unfold io_bind at 1. now rewrite H. Qed.

(** When [storeKey] has returned, the two directories were there or could
    be made. *)
Lemma storeKey_returned (P : Platform) (keyId : string) (keyPair : KeyPair)
    (description : option string) (now : string) (fs fs' : FileSystem) :
  storeKey P keyId keyPair description now fs = (Ret tt, fs') ->
  ensureDirectories fs = (Ret tt, fs).
Proof.
  intros H. destruct (StoreFacts.ensureDirectories_cases fs) as [Hd|(dir & Hd & _)];
    [exact Hd|].
  now rewrite (storeKey_directories P _ _ _ _ _ _ Hd) in H.
Qed.

(** What the store looks like when [storeKey] has returned. *)
Lemma storeKey_ret (P : Platform) (keyId : string) (keyPair : KeyPair)
    (description : option string) (now : string) (fs fs' : FileSystem) :
  storeKey P keyId keyPair description now fs = (Ret tt, fs') ->
  exists publicKeyPem privateKeyPem f1 f2 f3,
    CryptoUtils.hexToPem P (kp_publicKey keyPair) PUBLIC = Ret publicKeyPem
    /\ CryptoUtils.hexToPem P (privateKey keyPair) PRIVATE = Ret privateKeyPem
    /\ content f1 = publicKeyPem
    /\ content f2 = privateKeyPem
    /\ content f3 = JSON_stringify_metadata P
                      {| md_keyId := keyId; md_created := now;
                         md_algorithm := "secp256k1";
                         md_description := description |}
    /\ fs' = withFiles fs
               (<[getMetadataPath keyId := f3]>
                  (<[getPrivateKeyPath keyId := f2]>
                     (<[getPublicKeyPath keyId := f1]> (files fs)))).
Proof.
  intros Hstore. pose proof (storeKey_returned P _ _ _ _ _ _ Hstore) as Hdirs.
  revert Hstore. unfold storeKey. unfold io_bind at 1. rewrite Hdirs.
  unfold io_bind, io_ret, try_catch, io_lift, io_throw.
  destruct (CryptoUtils.hexToPem P (kp_publicKey keyPair) PUBLIC) as [pem1|e].
  2:{ destruct (removeKey keyId fs) as [[?|?] ?]; discriminate. }
  unfold writeFileSync at 1.
  destruct (bool_decide (getPublicKeyPath keyId ∈ readOnly fs)).
  { destruct (removeKey keyId fs) as [[?|?] ?]; discriminate. }
  destruct (CryptoUtils.hexToPem P (privateKey keyPair) PRIVATE) as [pem2|e].
  2:{ destruct (removeKey keyId _) as [[?|?] ?]; discriminate. }
  unfold writeFileSync at 1.
  change (readOnly (withFiles fs _)) with (readOnly fs).
  destruct (bool_decide (getPrivateKeyPath keyId ∈ readOnly fs)).
  { destruct (removeKey keyId _) as [[?|?] ?]; discriminate. }
  unfold writeFileSync at 1.
  change (readOnly (withFiles _ _)) with (readOnly fs).
  destruct (bool_decide (getMetadataPath keyId ∈ readOnly fs)).
  { destruct (removeKey keyId _) as [[?|?] ?]; discriminate. }
  intros [= <-]. do 5 eexists. repeat split; reflexivity.
Qed.

Lemma lookup_public (keyId : string) (f1 f2 f3 : File) (m : gmap string File) :
  <[getMetadataPath keyId := f3]>
    (<[getPrivateKeyPath keyId := f2]> (<[getPublicKeyPath keyId := f1]> m))
  !! getPublicKeyPath keyId = Some f1.
Proof.
  rewrite lookup_insert_ne by apply StoreFacts.metadata_public_paths.
  rewrite lookup_insert_ne by (apply not_eq_sym, StoreFacts.public_private_paths).
  apply lookup_insert_eq.
Qed.

Lemma lookup_private (keyId : string) (f1 f2 f3 : File) (m : gmap string File) :
  <[getMetadataPath keyId := f3]>
    (<[getPrivateKeyPath keyId := f2]> (<[getPublicKeyPath keyId := f1]> m))
  !! getPrivateKeyPath keyId = Some f2.
Proof.
  rewrite lookup_insert_ne by apply StoreFacts.metadata_private_paths.
  apply lookup_insert_eq.
Qed.

(** Reading a public-key file that holds what [hexToPem] wrote. *)
Lemma getPublicKey_written (P : Platform) (keyId : string) (pub : list byte)
    (pem : string) (f : File) (fs : FileSystem) :
  reads_base64 P -> length pub = 33 ->
  CryptoUtils.hexToPem P (Hex.bytesToHex pub) PUBLIC = Ret pem ->
  files fs !! getPublicKeyPath keyId = Some f -> content f = pem ->
  KeyStore.getPublicKey P keyId fs = (Ret (Some (Hex.bytesToHex pub)), fs).
Proof.
  intros Hread Hlen Hpem Hf Hc.
  destruct (PemRoundTrip.host_public P pub Hread Hlen) as (pem' & Hpem' & Hback).
  rewrite Hpem in Hpem'. injection Hpem' as <-.
  destruct (TrimFacts.hexToPem_shape P _ _ _ Hpem) as (b & Hb).
  unfold KeyStore.getPublicKey, try_catch, io_bind, existsSync, readFileSync, io_ret.
  rewrite Hf. rewrite bool_decide_eq_true_2 by eauto. cbn [negb]. rewrite Hf.
  rewrite Hc, Hb, TrimFacts.trim_formatPem, <- Hb, Hback. reflexivity.
Qed.

(** Reading a pair that [storeKey] has stored. *)
Lemma getKey_stored (P : Platform) (keyId : string) (k pub : list byte)
    (description : option string) (now : string) (fs fs' : FileSystem) :
  reads_base64 P -> length k = 32 -> length pub = 33 ->
  storeKey P keyId
    {| privateKey := Hex.bytesToHex k; kp_publicKey := Hex.bytesToHex pub |}
    description now fs = (Ret tt, fs') ->
  KeyStore.getKey P keyId fs'
  = (Ret (Some {| privateKey := Hex.bytesToHex k;
                  kp_publicKey := Hex.bytesToHex pub |}), fs').
Proof.
  intros Hread Hk Hpub Hstore.
  destruct (storeKey_ret P _ _ _ _ _ _ Hstore)
    as (pem1 & pem2 & f1 & f2 & f3 & Hpem1 & Hpem2 & Hf1 & Hf2 & _ & ->).
  cbn [kp_publicKey privateKey] in Hpem1, Hpem2.
  assert (Hderived : exists derived, secp256k1_getPublicKey P k = Ret derived).
  { revert Hpem2. unfold CryptoUtils.hexToPem, CryptoUtils.getPublicKeyFromPrivate.
    rewrite HexFacts.hexToBytes_bytesToHex. cbn.
    destruct (secp256k1_getPublicKey P k) as [d|e]; [eauto | discriminate]. }
  destruct Hderived as (derived & Hderived).
  destruct (PemRoundTrip.host_public P pub Hread Hpub) as (pem1' & Hpem1' & Hback1).
  rewrite Hpem1 in Hpem1'. injection Hpem1' as <-.
  destruct (PemRoundTrip.host_private P k derived Hread Hk Hderived)
    as (pem2' & Hpem2' & Hback2).
  rewrite Hpem2 in Hpem2'. injection Hpem2' as <-.
  destruct (TrimFacts.hexToPem_shape P _ _ _ Hpem1) as (b1 & Hb1).
  destruct (TrimFacts.hexToPem_shape P _ _ _ Hpem2) as (b2 & Hb2).
  unfold KeyStore.getKey, try_catch, io_bind, existsSync, readFileSync, io_ret.
  cbn [files withFiles]. rewrite lookup_public.
  rewrite bool_decide_eq_true_2 by eauto. cbn [files withFiles].
  rewrite lookup_private.
  rewrite bool_decide_eq_true_2 by eauto. cbn [negb files withFiles].
  rewrite lookup_public. cbn [files withFiles].
  rewrite lookup_private.
  rewrite Hf1, Hf2, Hb1, Hb2, !TrimFacts.trim_formatPem, <- Hb1, <- Hb2.
  now rewrite Hback1, Hback2.
Qed.

(** [storeKey] returns when the two texts can be made and the three files
    written. *)
Lemma storeKey_succeeds (P : Platform) (keyId : string) (keyPair : KeyPair)
    (description : option string) (now : string) (fs : FileSystem)
    (publicKeyPem privateKeyPem : string) :
  CryptoUtils.hexToPem P (kp_publicKey keyPair) PUBLIC = Ret publicKeyPem ->
  CryptoUtils.hexToPem P (privateKey keyPair) PRIVATE = Ret privateKeyPem ->
  getPublicKeyPath keyId ∉ readOnly fs ->
  getPrivateKeyPath keyId ∉ readOnly fs ->
  getMetadataPath keyId ∉ readOnly fs ->
  exists fs', storeKey P keyId keyPair description now fs = (Ret tt, fs').
Proof.
  intros Hpem1 Hpem2 Hw1 Hw2 Hw3.
  unfold storeKey. unfold io_bind at 1.
  rewrite (StoreFacts.ensureDirectories_writable keyId fs Hw1 Hw2).
  unfold io_bind, io_ret, try_catch, io_lift.
  rewrite Hpem1. unfold writeFileSync at 1.
  rewrite (bool_decide_eq_false_2 _ Hw1), Hpem2.
  unfold writeFileSync at 1.
  change (readOnly (withFiles fs _)) with (readOnly fs).
  rewrite (bool_decide_eq_false_2 _ Hw2).
  unfold writeFileSync at 1.
  change (readOnly (withFiles _ _)) with (readOnly fs).
  rewrite (bool_decide_eq_false_2 _ Hw3). eauto.
Qed.

End StoreMoreFacts.

(** X13. A stored key reads back.  When [storeKey] has returned for a pair
    given as the hex text of a 32-byte scalar and of a 33-byte public key,
    [getKey] returns that pair, [getPublicKey] its public key, and
    [keyExists] answers [true]; none of the three changes the store. *)
Theorem stored_key_reads_back (P : Platform) (keyId : string) (k pub : list byte)
    (description : option string) (now : string) (fs fs' : FileSystem) :
  reads_base64 P -> length k = 32 -> length pub = 33 ->
  KeyManager.storeKey P keyId
    {| privateKey := Hex.bytesToHex k; kp_publicKey := Hex.bytesToHex pub |}
    description now fs = (Ret tt, fs') ->
  KeyStore.getKey P keyId fs'
  = (Ret (Some {| privateKey := Hex.bytesToHex k;
                  kp_publicKey := Hex.bytesToHex pub |}), fs')
  /\ KeyStore.getPublicKey P keyId fs' = (Ret (Some (Hex.bytesToHex pub)), fs')
  /\ KeyManager.keyExists keyId fs' = (Ret true, fs').
Proof.
  intros Hread Hk Hpub Hstore.
  split; [now apply StoreMoreFacts.getKey_stored with description now fs|].
  destruct (StoreMoreFacts.storeKey_ret P _ _ _ _ _ _ Hstore)
    as (pem1 & pem2 & f1 & f2 & f3 & Hpem1 & _ & Hf1 & _ & _ & ->).
  cbn [kp_publicKey] in Hpem1. split.
  - apply StoreMoreFacts.getPublicKey_written with pem1 f1; try assumption.
    apply StoreMoreFacts.lookup_public.
  - rewrite StoreFacts.keyExists_eq. cbn [files withFiles].
    rewrite StoreMoreFacts.lookup_public, StoreMoreFacts.lookup_private.
    now rewrite !bool_decide_eq_true_2 by eauto.
Qed.

Lemma stored_key_reads_back_witness :
  let keyPair := {| privateKey := Hex.bytesToHex samplePrivateKey;
                    kp_publicKey := Hex.bytesToHex samplePublicKey |} in
  let fs' := snd (KeyManager.storeKey demo "k" keyPair None "2025-01-01" emptyDisk) in
  KeyStore.getKey demo "k" fs' = (Ret (Some keyPair), fs').
Proof.
  intros keyPair fs'.
  apply (stored_key_reads_back demo "k" samplePrivateKey samplePublicKey None
           "2025-01-01" emptyDisk fs' demo_reads_base64 eq_refl eq_refl).
  reflexivity.
Defined.

Module RemoveFacts.
Import KeyManager.

Lemma removeIfThere_eq (path : string) (removed : bool) (fs : FileSystem) :
  removeIfThere path removed fs =
  match files fs !! path with
  | None => (Ret removed, fs)
  | Some _ =>
      if bool_decide (path ∈ pinned fs) then (Throw (IOError path), fs)
      else (Ret true, withFiles fs (delete path (files fs)))
  end.
Proof.
  unfold removeIfThere, io_bind, existsSync, unlinkSync, io_ret.
  destruct (files fs !! path) as [f|] eqn:E.
  - rewrite bool_decide_eq_true_2 by eauto.
    destruct (bool_decide (path ∈ pinned fs)); [reflexivity|].
    now rewrite E.
  - rewrite bool_decide_eq_false_2; [reflexivity|]. now intros [? ?].
Qed.

Lemma sameProtection_pinned (fs fs' : FileSystem) :
  sameProtection fs fs' -> pinned fs' = pinned fs.
Proof.
  intros (_ & H2 & H3). unfold pinned, inLockedDirectory. now rewrite H2, H3.
Qed.

Lemma sameProtection_readOnly (fs fs' : FileSystem) :
  sameProtection fs fs' -> readOnly fs' = readOnly fs.
Proof.
  intros (H1 & _ & H3). unfold readOnly, inLockedDirectory. now rewrite H1, H3.
Qed.

Lemma sameProtection_mkdirSync (fs fs' : FileSystem) (dir : string) :
  sameProtection fs fs' ->
  (isThere fs dir = true -> isThere fs' dir = true) ->
  mkdirSync dir fs = (Ret tt, fs) -> mkdirSync dir fs' = (Ret tt, fs').
Proof.
  intros (_ & _ & H3) Hthere. unfold mkdirSync, inLockedDirectory. rewrite H3.
  destruct (isThere fs dir).
  - now rewrite Hthere.
  - cbn [negb andb]. destruct (_ || _); [discriminate|].
    now rewrite andb_false_r.
Qed.

Lemma onlyRemoves_refl (paths : list string) (fs : FileSystem) :
  onlyRemoves paths fs fs.
Proof. repeat split; auto. Qed.

Lemma onlyRemoves_trans (paths : list string) (fs1 fs2 fs3 : FileSystem) :
  onlyRemoves paths fs1 fs2 -> onlyRemoves paths fs2 fs3 -> onlyRemoves paths fs1 fs3.
Proof.
  intros ((Ha1 & Hb1 & Hc1) & Hd1 & Ho1) ((Ha2 & Hb2 & Hc2) & Hd2 & Ho2).
  split; [repeat split; congruence|]. split.
  - intros p. destruct (Hd2 p) as [H|H]; [now left|].
    rewrite H. apply Hd1.
  - intros p Hp. now rewrite Ho2, Ho1.
Qed.

Lemma onlyRemoves_mono (paths paths' : list string) (fs fs' : FileSystem) :
  (forall p, p ∈ paths -> p ∈ paths') ->
  onlyRemoves paths fs fs' -> onlyRemoves paths' fs fs'.
Proof.
  intros Hsub (Hr & Hd & Ho). split; [exact Hr|]. split; [exact Hd|].
  intros p Hp. apply Ho. intros H. apply Hp, Hsub, H.
Qed.

(** One block of [removeKey]. *)
Lemma removeIfThere_spec (path : string) (removed : bool) (fs : FileSystem) :
  exists o fs',
    removeIfThere path removed fs = (o, fs')
    /\ onlyRemoves [path] fs fs'
    /\ (path ∉ pinned fs ->
        o = Ret (bool_decide (is_Some (files fs !! path)) || removed)
        /\ files fs' !! path = None).
Proof.
  rewrite removeIfThere_eq.
  destruct (files fs !! path) as [f|] eqn:E.
  - destruct (bool_decide (path ∈ pinned fs)) eqn:Hro.
    + do 2 eexists. split; [reflexivity|]. split; [apply onlyRemoves_refl|].
      intros H. apply bool_decide_eq_true_1 in Hro. contradiction.
    + do 2 eexists. split; [reflexivity|]. split.
      * split; [repeat split|]. split; cbn [files withFiles].
        -- intros p. destruct (decide (p = path)) as [->|Hne].
           ++ left. apply lookup_delete_eq.
           ++ right. now apply lookup_delete_ne.
        -- intros p Hp. apply lookup_delete_ne. intros ->.
           apply Hp, list_elem_of_In. now left.
      * intros _. split.
        -- now rewrite bool_decide_eq_true_2 by eauto.
        -- cbn [files withFiles]. apply lookup_delete_eq.
  - do 2 eexists. split; [reflexivity|]. split; [apply onlyRemoves_refl|].
    intros _. split; [|exact E].
    rewrite bool_decide_eq_false_2; [reflexivity|]. now intros [? ?].
Qed.

Lemma onlyRemoves_other (path p : string) (fs fs' : FileSystem) :
  onlyRemoves [path] fs fs' -> p <> path -> files fs' !! p = files fs !! p.
Proof.
  intros (_ & _ & Ho) Hne. apply Ho. intros H.
  apply list_elem_of_In in H. destruct H as [H|[]]. congruence.
Qed.

Lemma single_in (keyId path : string) (fs fs' : FileSystem) :
  path ∈ keyPaths keyId -> onlyRemoves [path] fs fs' ->
  onlyRemoves (keyPaths keyId) fs fs'.
Proof.
  intros Hin. apply onlyRemoves_mono. intros p Hp.
  apply list_elem_of_In in Hp. destruct Hp as [<-|[]]. exact Hin.
Qed.

Lemma public_in (keyId : string) : getPublicKeyPath keyId ∈ keyPaths keyId.
Proof. apply list_elem_of_In. left. reflexivity. Qed.

Lemma private_in (keyId : string) : getPrivateKeyPath keyId ∈ keyPaths keyId.
Proof. apply list_elem_of_In. right. left. reflexivity. Qed.

Lemma metadata_in (keyId : string) : getMetadataPath keyId ∈ keyPaths keyId.
Proof. apply list_elem_of_In. right. right. left. reflexivity. Qed.

Lemma in_keyPaths (keyId p : string) :
  p ∈ keyPaths keyId ->
  p = getPublicKeyPath keyId \/ p = getPrivateKeyPath keyId \/ p = getMetadataPath keyId.
Proof.
  intros H. apply list_elem_of_In in H. cbn in H.
  destruct H as [<-|[<-|[<-|[]]]]; auto.
Qed.

(** A file that is gone stays gone. *)
Lemma onlyRemoves_gone (paths : list string) (fs fs' : FileSystem) (p : string) :
  onlyRemoves paths fs fs' -> files fs !! p = None -> files fs' !! p = None.
Proof. intros (_ & Hd & _) H. destruct (Hd p) as [H'|H']; congruence. Qed.

(** [removeKey] as a whole: it returns; it goes through the three files in
    order and stops at the first one that cannot be removed. *)
Lemma removeKey_spec (keyId : string) (fs : FileSystem) :
  exists b fs',
    removeKey keyId fs = (Ret b, fs')
    /\ onlyRemoves (keyPaths keyId) fs fs'
    /\ (getPublicKeyPath keyId ∉ pinned fs ->
        files fs' !! getPublicKeyPath keyId = None)
    /\ (getPublicKeyPath keyId ∉ pinned fs ->
        getPrivateKeyPath keyId ∉ pinned fs ->
        files fs' !! getPrivateKeyPath keyId = None)
    /\ (getPublicKeyPath keyId ∉ pinned fs ->
        getPrivateKeyPath keyId ∉ pinned fs ->
        getMetadataPath keyId ∉ pinned fs ->
        files fs' !! getMetadataPath keyId = None
        /\ b = bool_decide (is_Some (files fs !! getMetadataPath keyId))
               || (bool_decide (is_Some (files fs !! getPrivateKeyPath keyId))
                   || (bool_decide (is_Some (files fs !! getPublicKeyPath keyId))
                       || false))).
Proof.
  unfold removeKey, try_catch, io_bind, io_ret.
  destruct (removeIfThere_spec (getPublicKeyPath keyId) false fs)
    as (o1 & fs1 & -> & Hone1 & Hok1).
  pose proof (single_in keyId _ _ _ (public_in keyId) Hone1) as Hrem1.
  destruct o1 as [r1|e1].
  2:{ do 2 eexists. split; [reflexivity|]. split; [exact Hrem1|].
      split; [|split]; intros H0; now destruct (Hok1 H0). }
  destruct (removeIfThere_spec (getPrivateKeyPath keyId) r1 fs1)
    as (o2 & fs2 & -> & Hone2 & Hok2).
  pose proof (single_in keyId _ _ _ (private_in keyId) Hone2) as Hrem2.
  pose proof (onlyRemoves_trans _ _ _ _ Hrem1 Hrem2) as Hrem12.
  assert (Hro1 : pinned fs1 = pinned fs) by apply sameProtection_pinned, Hrem1.
  assert (Hro2 : pinned fs2 = pinned fs) by apply sameProtection_pinned, Hrem12.
  rewrite Hro1 in Hok2.
  rewrite (onlyRemoves_other _ (getPrivateKeyPath keyId) _ _ Hone1) in Hok2
    by (apply not_eq_sym, StoreFacts.public_private_paths).
  destruct o2 as [r2|e2].
  2:{ do 2 eexists. split; [reflexivity|]. split; [exact Hrem12|].
      split; [|split].
      - intros H. apply (onlyRemoves_gone _ _ _ _ Hrem2). now apply Hok1.
      - intros _ H. now destruct (Hok2 H).
      - intros _ H. now destruct (Hok2 H). }
  destruct (removeIfThere_spec (getMetadataPath keyId) r2 fs2)
    as (o3 & fs3 & -> & Hone3 & Hok3).
  pose proof (single_in keyId _ _ _ (metadata_in keyId) Hone3) as Hrem3.
  pose proof (onlyRemoves_trans _ _ _ _ Hrem12 Hrem3) as Hrem123.
  rewrite Hro2 in Hok3.
  rewrite (onlyRemoves_other _ (getMetadataPath keyId) _ _ Hone2) in Hok3
    by apply StoreFacts.metadata_private_paths.
  rewrite (onlyRemoves_other _ (getMetadataPath keyId) _ _ Hone1) in Hok3
    by apply StoreFacts.metadata_public_paths.
  assert (Hpub3 : getPublicKeyPath keyId ∉ pinned fs ->
                  files fs3 !! getPublicKeyPath keyId = None).
  { intros H. apply (onlyRemoves_gone _ _ _ _ Hrem3),
      (onlyRemoves_gone _ _ _ _ Hrem2). now apply Hok1. }
  assert (Hpriv3 : getPrivateKeyPath keyId ∉ pinned fs ->
                   files fs3 !! getPrivateKeyPath keyId = None).
  { intros H. apply (onlyRemoves_gone _ _ _ _ Hrem3). now apply Hok2. }
  destruct o3 as [r3|e3].
  - do 2 eexists. split; [reflexivity|]. split; [exact Hrem123|].
    split; [exact Hpub3|]. split; [intros _; exact Hpriv3|].
    intros H1 H2 H3.
    destruct (Hok1 H1) as [[= ->] _]. destruct (Hok2 H2) as [[= ->] _].
    destruct (Hok3 H3) as [[= ->] Hgone]. now split.
  - do 2 eexists. split; [reflexivity|]. split; [exact Hrem123|].
    split; [exact Hpub3|]. split; [intros _; exact Hpriv3|].
    intros _ _ H3. now destruct (Hok3 H3).
Qed.

End RemoveFacts.

Module RollbackFacts.
Import KeyManager RemoveFacts.

(** A file that was written and is removed again does not count. *)
Lemma onlyRemoves_after_insert (paths : list string) (x : string) (f : File)
    (fs fs2 : FileSystem) :
  onlyRemoves paths (withFiles fs (<[x := f]> (files fs))) fs2 ->
  x ∈ paths -> files fs2 !! x = None ->
  onlyRemoves paths fs fs2.
Proof.
  intros (Hr & Hd & Ho) Hin Hgone. cbn [files withFiles] in *.
  split; [exact Hr|]. split.
  - intros p. destruct (decide (p = x)) as [->|Hne]; [now left|].
    destruct (Hd p) as [H|H]; [now left|right].
    now rewrite H, lookup_insert_ne.
  - intros p Hp. rewrite (Ho p Hp). apply lookup_insert_ne. intros ->. contradiction.
Qed.

Lemma all_gone (keyId : string) (fs : FileSystem) :
  files fs !! getPublicKeyPath keyId = None ->
  files fs !! getPrivateKeyPath keyId = None ->
  files fs !! getMetadataPath keyId = None ->
  forall p, p ∈ keyPaths keyId -> files fs !! p = None.
Proof.
  intros H1 H2 H3 p Hp. now destruct (in_keyPaths _ _ Hp) as [->|[->| ->]].
Qed.

(** The handler of [storeKey], run after none, one or two of the writes:
    it touches the files of the key only, and takes all of them away when
    none is protected against removal. *)
Lemma cleanup (keyId : string) (fs fs1 : FileSystem) :
  fs1 = fs
  \/ (exists f1, fs1 = withFiles fs (<[getPublicKeyPath keyId := f1]> (files fs)))
  \/ (exists f1 f2, fs1 = withFiles fs
                            (<[getPrivateKeyPath keyId := f2]>
                               (<[getPublicKeyPath keyId := f1]> (files fs)))) ->
  exists b fs2,
    removeKey keyId fs1 = (Ret b, fs2)
    /\ sameProtection fs fs2
    /\ (forall p, p ∉ keyPaths keyId -> files fs2 !! p = files fs !! p)
    /\ ((forall p, p ∈ keyPaths keyId -> p ∉ pinned fs) ->
        onlyRemoves (keyPaths keyId) fs fs2
        /\ forall p, p ∈ keyPaths keyId -> files fs2 !! p = None).
Proof.
  intros Hcase.
  destruct (removeKey_spec keyId fs1) as (b & fs2 & Hrun & Hrem & Hpub & Hpriv & Hmeta).
  exists b, fs2. split; [exact Hrun|].
  assert (Hsame : sameProtection fs fs1).
  { destruct Hcase as [->|[(f1 & ->)|(f1 & f2 & ->)]]; repeat split. }
  assert (Hro : pinned fs1 = pinned fs) by now apply sameProtection_pinned.
  rewrite Hro in Hpub, Hpriv, Hmeta. split; [|split].
  - destruct Hrem as ((Ha & Hb & Hc) & _). destruct Hsame as (Ha' & Hb' & Hc').
    repeat split; congruence.
  - intros p Hp. destruct Hrem as (_ & _ & Ho). rewrite (Ho p Hp).
    destruct Hcase as [->|[(f1 & ->)|(f1 & f2 & ->)]]; [reflexivity| |];
      cbn [files withFiles].
    + apply lookup_insert_ne. intros <-. apply Hp, public_in.
    + rewrite lookup_insert_ne by (intros <-; apply Hp, private_in).
      apply lookup_insert_ne. intros <-. apply Hp, public_in.
  - intros Hall.
    pose proof (Hall _ (public_in keyId)) as H1.
    pose proof (Hall _ (private_in keyId)) as H2.
    pose proof (Hall _ (metadata_in keyId)) as H3.
    split; [|apply all_gone; [now apply Hpub | now apply Hpriv | now apply Hmeta]].
    destruct Hcase as [->|[(f1 & ->)|(f1 & f2 & ->)]].
    + exact Hrem.
    + apply onlyRemoves_after_insert with (getPublicKeyPath keyId) f1;
        [exact Hrem | apply public_in | now apply Hpub].
    + apply onlyRemoves_after_insert with (getPublicKeyPath keyId) f1;
        [| apply public_in | now apply Hpub].
      apply (onlyRemoves_after_insert _ (getPrivateKeyPath keyId) f2
               (withFiles fs (<[getPublicKeyPath keyId := f1]> (files fs))));
        [exact Hrem | apply private_in | now apply Hpriv].
Qed.

(** What [storeKey] does once the directories are there. *)
Lemma storeKey_failed (P : Platform) (keyId : string) (keyPair : KeyPair)
    (description : option string) (now : string) (fs fs' : FileSystem) (e : error) :
  ensureDirectories fs = (Ret tt, fs) ->
  storeKey P keyId keyPair description now fs = (Throw e, fs') ->
  exists cause b fs1,
    e = FailedToStoreKey keyId cause
    /\ removeKey keyId fs1 = (Ret b, fs')
    /\ (fs1 = fs
        \/ (exists f1, fs1 = withFiles fs (<[getPublicKeyPath keyId := f1]> (files fs)))
        \/ (exists f1 f2, fs1 = withFiles fs
                                  (<[getPrivateKeyPath keyId := f2]>
                                     (<[getPublicKeyPath keyId := f1]> (files fs))))).
Proof.
  intros Hdirs. unfold storeKey. unfold io_bind at 1. rewrite Hdirs.
  unfold io_bind, io_ret, try_catch, io_lift, io_throw.
  assert (Hend : forall cause fs1,
             (fs1 = fs
              \/ (exists f1, fs1 = withFiles fs (<[getPublicKeyPath keyId := f1]> (files fs)))
              \/ (exists f1 f2, fs1 = withFiles fs
                                        (<[getPrivateKeyPath keyId := f2]>
                                           (<[getPublicKeyPath keyId := f1]> (files fs))))) ->
             (let (o, fs2) := removeKey keyId fs1 in
              match o with
              | Ret _ => (@Throw unit (FailedToStoreKey keyId cause), fs2)
              | Throw e0 => (@Throw unit e0, fs2)
              end) = (Throw e, fs') ->
             exists cause b fs1,
               e = FailedToStoreKey keyId cause
               /\ removeKey keyId fs1 = (Ret b, fs')
               /\ (fs1 = fs
                   \/ (exists f1, fs1 = withFiles fs (<[getPublicKeyPath keyId := f1]> (files fs)))
                   \/ (exists f1 f2, fs1 = withFiles fs
                                             (<[getPrivateKeyPath keyId := f2]>
                                                (<[getPublicKeyPath keyId := f1]> (files fs)))))).
  { intros cause fs1 Hcase.
    destruct (removeKey_spec keyId fs1) as (b & fs2 & Hrun & _).
    rewrite Hrun. intros [= <- <-]. exists cause, b, fs1. auto. }
  destruct (CryptoUtils.hexToPem P (kp_publicKey keyPair) PUBLIC) as [pem1|c].
  2:{ apply Hend. now left. }
  unfold writeFileSync at 1.
  destruct (bool_decide (getPublicKeyPath keyId ∈ readOnly fs)).
  { apply Hend. now left. }
  destruct (CryptoUtils.hexToPem P (privateKey keyPair) PRIVATE) as [pem2|c].
  2:{ apply Hend. right. left. eauto. }
  unfold writeFileSync at 1.
  change (readOnly (withFiles fs _)) with (readOnly fs).
  destruct (bool_decide (getPrivateKeyPath keyId ∈ readOnly fs)).
  { apply Hend. right. left. eauto. }
  unfold writeFileSync at 1.
  change (readOnly (withFiles _ _)) with (readOnly fs).
  destruct (bool_decide (getMetadataPath keyId ∈ readOnly fs)).
  { apply Hend. right. right. cbn [files withFiles]. eauto. }
  discriminate.
Qed.

(** The handler can fail in turn: on [stuckDisk] the public-key file can be
    written but not removed; [storeKey] writes it, fails on the private key
    of [brokenPair], and leaves the file it wrote. *)
Lemma storeKey_can_leave_a_file :
  files stuckDisk !! getPublicKeyPath "k" = None
  /\ fst (storeKey demo "k" brokenPair None "2025-02-02" stuckDisk)
     = Throw (FailedToStoreKey "k" HexDecodeError)
  /\ is_Some (files (snd (storeKey demo "k" brokenPair None "2025-02-02" stuckDisk))
              !! getPublicKeyPath "k").
Proof. split; [|split]; vm_compute; eauto. Qed.

End RollbackFacts.

(** X14. [removeKey] always returns.  It removes files of the key and
    touches nothing else; when none of the three files is protected against
    removal, all three are gone afterwards, and the result is [true] exactly
    when one of them was there. *)
Theorem removeKey_effect (keyId : string) (fs : FileSystem) :
  exists removed fs',
    KeyManager.removeKey keyId fs = (Ret removed, fs')
    /\ onlyRemoves (keyPaths keyId) fs fs'
    /\ ((forall p, p ∈ keyPaths keyId -> p ∉ pinned fs) ->
        (forall p, p ∈ keyPaths keyId -> files fs' !! p = None)
        /\ (removed = true
            <-> exists p, p ∈ keyPaths keyId /\ is_Some (files fs !! p))).
Proof.
  destruct (RemoveFacts.removeKey_spec keyId fs)
    as (b & fs' & Hrun & Hrem & Hpub & Hpriv & Hmeta).
  exists b, fs'. split; [exact Hrun|]. split; [exact Hrem|].
  intros Hall.
  pose proof (Hall _ (RemoveFacts.public_in keyId)) as H1.
  pose proof (Hall _ (RemoveFacts.private_in keyId)) as H2.
  pose proof (Hall _ (RemoveFacts.metadata_in keyId)) as H3.
  destruct (Hmeta H1 H2 H3) as [Hgone ->]. split.
  - apply RollbackFacts.all_gone; auto.
  - rewrite orb_false_r, !orb_true_iff, !bool_decide_eq_true. split.
    + intros [H|[H|H]]; eexists; (split; [|exact H]).
      * apply RemoveFacts.metadata_in.
      * apply RemoveFacts.private_in.
      * apply RemoveFacts.public_in.
    + intros (p & Hp & Hsome).
      destruct (RemoveFacts.in_keyPaths _ _ Hp) as [->|[->| ->]]; auto.
Qed.

(** X15. What a failed [storeKey] leaves.  When [storeKey] throws, either
    [ensureDirectories] threw, and then the error is that of [mkdirSync] as
    it is, not wrapped, and the store is as before; or the directories are
    there and the error is the wrapping [FailedToStoreKey] of the cause.
    In the second case the protection is as before and no file other than
    the three of the key is touched; and when none of the three is
    protected against removal, no file of the store is new or rewritten and
    none of the three is left, a key stored earlier under the same
    identifier included. *)
Theorem failed_storeKey_effect (P : Platform) (keyId : string)
    (keyPair : KeyPair) (description : option string) (now : string)
    (fs fs' : FileSystem) (e : error) :
  KeyManager.storeKey P keyId keyPair description now fs = (Throw e, fs') ->
  (KeyManager.ensureDirectories fs = (Throw e, fs)
   /\ (exists dir, e = IOError dir)
   /\ fs' = fs)
  \/ (KeyManager.ensureDirectories fs = (Ret tt, fs)
      /\ (exists cause, e = FailedToStoreKey keyId cause)
      /\ sameProtection fs fs'
      /\ (forall p, p ∉ keyPaths keyId -> files fs' !! p = files fs !! p)
      /\ ((forall p, p ∈ keyPaths keyId -> p ∉ pinned fs) ->
          onlyRemoves (keyPaths keyId) fs fs'
          /\ forall p, p ∈ keyPaths keyId -> files fs' !! p = None)).
Proof.
  intros Hstore.
  destruct (StoreFacts.ensureDirectories_cases fs) as [Hdirs|(dir & Hdirs & _)].
  - right. split; [exact Hdirs|].
    destruct (RollbackFacts.storeKey_failed P _ _ _ _ _ _ _ Hdirs Hstore)
      as (cause & b & fs1 & -> & Hrun & Hcase).
    split; [eauto|].
    destruct (RollbackFacts.cleanup keyId fs fs1 Hcase)
      as (b' & fs2 & Hrun' & Hsame & Hother & Hgone).
    rewrite Hrun in Hrun'. injection Hrun' as _ <-. auto.
  - left. rewrite (StoreMoreFacts.storeKey_directories P _ _ _ _ _ _ Hdirs) in Hstore.
    injection Hstore as <- <-. eauto.
Qed.

Lemma failed_storeKey_effect_witness :
  is_Some (files sampleDisk !! KeyManager.getPrivateKeyPath "k")
  /\ files (snd (KeyManager.storeKey demo "k" brokenPair None "2025-02-02" sampleDisk))
     !! KeyManager.getPrivateKeyPath "k" = None.
Proof.
  split; [vm_compute; eauto|].
  destruct (failed_storeKey_effect demo "k" brokenPair None "2025-02-02"
              sampleDisk
              (snd (KeyManager.storeKey demo "k" brokenPair None "2025-02-02" sampleDisk))
              (FailedToStoreKey "k" HexDecodeError))
    as [(_ & (dir & Hdir) & _)|(_ & _ & _ & _ & Hgone)].
  - vm_compute. reflexivity.
  - discriminate Hdir.
  - apply Hgone; [|apply RemoveFacts.private_in].
    intros p Hp. apply (bool_decide_unpack _). vm_compute. exact I.
Defined.

Module ListingFacts.
Import JsString StringFacts JsTrim KeyManager.

Lemma includes_char_app (c : ascii) (a b : string) :
  includes (a +:+ b) (String c "")
  = includes a (String c "") || includes b (String c "").
Proof.
  unfold includes. induction a as [|d a IH]; [now rewrite app_nil_l|].
  rewrite app_cons, (index_from_eq _ (String d (a +:+ b))),
    (index_from_eq _ (String d a)).
  cbn [startsWith]. destruct (Ascii.eqb c d); [reflexivity|]. cbn [andb].
  destruct (index_from (String c "") (a +:+ b)), (index_from (String c "") a);
    cbn in *; congruence.
Qed.

Lemma endsWith_app (a suffix : string) : endsWith (a +:+ suffix) suffix = true.
Proof.
  unfold endsWith. rewrite length_app.
  replace (String.length a + String.length suffix - String.length suffix)
    with (String.length a) by lia.
  rewrite drop_app_length, String.eqb_refl.
  rewrite andb_true_r. apply Nat.leb_le. lia.
Qed.

Lemma public_path_entry (keyId : string) :
  includes keyId "/" = false ->
  KeyStore.entryOf TRUSTED_KEYS_DIR (getPublicKeyPath keyId)
  = Some (keyId +:+ "-public.pem").
Proof.
  intros Hid. unfold KeyStore.entryOf, getPublicKeyPath.
  rewrite <- (app_assoc TRUSTED_KEYS_DIR "/").
  rewrite startsWith_app, drop_app_length.
  now rewrite includes_char_app, Hid.
Qed.

Lemma public_name_pem (keyId : string) :
  endsWith (keyId +:+ "-public.pem") ".pem" = true.
Proof.
  change "-public.pem" with ("-public" +:+ ".pem").
  rewrite <- app_assoc. apply endsWith_app.
Qed.

Section WithPlatform.
Context (P : Platform).

Lemma readTrustedKey_eq (file : string) (fs : FileSystem) :
  KeyStore.readTrustedKey P file fs = (Ret (keyOfFile P fs file), fs).
Proof.
  unfold KeyStore.readTrustedKey, keyOfFile, try_catch, io_bind, readFileSync, io_ret.
  now destruct (files fs !! _).
Qed.

Lemma mapM_readTrustedKey (l : list string) (fs : FileSystem) :
  KeyStore.mapM (KeyStore.readTrustedKey P) l fs = (Ret (map (keyOfFile P fs) l), fs).
Proof.
  induction l as [|x l IH]; [reflexivity|].
  cbn [KeyStore.mapM map]. unfold io_bind at 1. rewrite readTrustedKey_eq.
  unfold io_bind at 1. now rewrite IH.
Qed.

(** Without the two directories there is no list. *)
Lemma getAllTrustedPublicKeys_failed (fs : FileSystem) (e : error) :
  ensureDirectories fs = (Throw e, fs) ->
  KeyStore.getAllTrustedPublicKeys P fs = (Ret [], fs).
Proof.
  intros H. unfold KeyStore.getAllTrustedPublicKeys, try_catch.
  unfold io_bind at 1. now rewrite H.
Qed.

Lemma getAllTrustedPublicKeys_eq (fs : FileSystem) :
  ensureDirectories fs = (Ret tt, fs) ->
  KeyStore.getAllTrustedPublicKeys P fs
  = (Ret (omap id
            (map (keyOfFile P fs)
               (List.filter (fun file => endsWith file ".pem")
                  (omap (KeyStore.entryOf TRUSTED_KEYS_DIR)
                     (map fst (map_to_list (files fs))))))), fs).
Proof.
  intros Hdirs. unfold KeyStore.getAllTrustedPublicKeys, try_catch.
  unfold io_bind at 1. rewrite Hdirs.
  unfold io_bind, io_ret, KeyStore.readdirSync.
  now rewrite mapM_readTrustedKey.
Qed.

(** A public-key file of the trusted directory is among the trusted keys,
    when both directories are there or can be made. *)
Lemma public_file_trusted (config : SecurityConfig) (keyId : string) (f : File)
    (fs : FileSystem) :
  ensureDirectories fs = (Ret tt, fs) ->
  includes keyId "/" = false ->
  files fs !! getPublicKeyPath keyId = Some f ->
  CryptoUtils.pemToHex P (trim (content f)) PUBLIC
  ∈ getAllTrustedPublicKeys (hostOf P config fs).
Proof.
  intros Hdirs Hid Hf. unfold hostOf. cbn [getAllTrustedPublicKeys].
  rewrite getAllTrustedPublicKeys_eq by exact Hdirs. cbn [fst].
  apply list_elem_of_omap. exists (Some (CryptoUtils.pemToHex P (trim (content f)) PUBLIC)).
  split; [|reflexivity].
  apply list_elem_of_In, in_map_iff. exists (keyId +:+ "-public.pem"). split.
  - unfold keyOfFile. fold (getPublicKeyPath keyId). now rewrite Hf.
  - apply filter_In. split; [|apply public_name_pem].
    apply list_elem_of_In, list_elem_of_omap. exists (getPublicKeyPath keyId).
    split; [|now apply public_path_entry].
    apply list_elem_of_In, in_map_iff. exists (getPublicKeyPath keyId, f).
    split; [reflexivity|]. apply list_elem_of_In, elem_of_map_to_list, Hf.
Qed.

(** So is a public key that [hexToPem] wrote there. *)
Lemma written_key_trusted (config : SecurityConfig) (keyId : string)
    (pub : list byte) (pem : string) (f : File) (fs : FileSystem) :
  ensureDirectories fs = (Ret tt, fs) ->
  reads_base64 P -> length pub = 33 ->
  includes keyId "/" = false ->
  CryptoUtils.hexToPem P (Hex.bytesToHex pub) PUBLIC = Ret pem ->
  files fs !! getPublicKeyPath keyId = Some f -> content f = pem ->
  Hex.bytesToHex pub ∈ getAllTrustedPublicKeys (hostOf P config fs).
Proof.
  intros Hdirs Hread Hlen Hid Hpem Hf Hc.
  destruct (PemRoundTrip.host_public P pub Hread Hlen) as (pem' & Hpem' & Hback).
  rewrite Hpem in Hpem'. injection Hpem' as <-.
  destruct (TrimFacts.hexToPem_shape P _ _ _ Hpem) as (b & Hb).
  pose proof (public_file_trusted config keyId f fs Hdirs Hid Hf) as H.
  now rewrite Hc, Hb, TrimFacts.trim_formatPem, <- Hb, Hback in H.
Qed.

End WithPlatform.
End ListingFacts.

Module ImportFacts.
Import KeyManager.

Lemma ensureDirectories_inv (fs : FileSystem) :
  ensureDirectories fs = (Ret tt, fs) ->
  mkdirSync TRUSTED_KEYS_DIR fs = (Ret tt, fs)
  /\ mkdirSync PRIVATE_KEYS_DIR fs = (Ret tt, fs).
Proof.
  unfold ensureDirectories, io_bind.
  pose proof (StoreFacts.mkdirSync_state TRUSTED_KEYS_DIR fs) as H1.
  pose proof (StoreFacts.mkdirSync_state PRIVATE_KEYS_DIR fs) as H2.
  destruct (mkdirSync TRUSTED_KEYS_DIR fs) as [[[]|e] fs1]; [|discriminate].
  cbn in H1. subst fs1.
  destruct (mkdirSync PRIVATE_KEYS_DIR fs) as [[[]|e] fs2]; [|discriminate].
  cbn in H2. subst fs2. auto.
Qed.

Lemma isThere_mono (fs fs' : FileSystem) (dir : string) :
  (forall p, is_Some (files fs !! p) -> is_Some (files fs' !! p)) ->
  isThere fs dir = true -> isThere fs' dir = true.
Proof.
  intros Hsub H. unfold isThere in *.
  apply existsb_exists in H as (p & Hp & Hbelow).
  apply in_map_iff in Hp as ([p' f] & <- & Hin).
  apply list_elem_of_In, elem_of_map_to_list in Hin.
  destruct (Hsub p' (ex_intro _ f Hin)) as [f' Hf'].
  apply existsb_exists. exists p'. split; [|exact Hbelow].
  apply in_map_iff. exists (p', f'). split; [reflexivity|].
  apply list_elem_of_In, elem_of_map_to_list, Hf'.
Qed.

(** Directories that are there or can be made stay so when files are
    added under the same protection. *)
Lemma ensureDirectories_grows (fs fs' : FileSystem) :
  sameProtection fs fs' ->
  (forall p, is_Some (files fs !! p) -> is_Some (files fs' !! p)) ->
  ensureDirectories fs = (Ret tt, fs) ->
  ensureDirectories fs' = (Ret tt, fs').
Proof.
  intros Hsame Hsub Hdirs. destruct (ensureDirectories_inv fs Hdirs) as [H1 H2].
  apply StoreFacts.ensureDirectories_ready;
    (apply RemoveFacts.sameProtection_mkdirSync with fs;
     [exact Hsame | now apply isThere_mono | assumption]).
Qed.

End ImportFacts.

(** X16. [importPublicKey], its directories and its guard.  When
    [ensureDirectories] throws, the call throws that error as it is, not
    wrapped, before it looks at the store, which is as before.  When the
    directories are there or can be made: if [getPublicKey] finds a
    non-empty key under [keyId], the call throws and the store is as
    before; if no public-key file is there and the two files can be
    written, the call stores the 33-byte key: [getPublicKey] reads it back,
    it is among the trusted keys when [keyId] names a file of the
    directory, and the private-key file of [keyId] is not touched. *)
Theorem importPublicKey_effect (P : Platform) (config : SecurityConfig)
    (keyId : string) (pub : list byte) (description : option string) (now : string)
    (fs : FileSystem) :
  reads_base64 P -> length pub = 33 ->
  (forall publicKey e,
     KeyManager.ensureDirectories fs = (Throw e, fs) ->
     KeyStore.importPublicKey P keyId publicKey description now fs
     = (DirectoryError e, fs))
  /\ (KeyManager.ensureDirectories fs = (Ret tt, fs) ->
      (forall publicKey c r,
         KeyStore.getPublicKey P keyId fs = (Ret (Some (String c r)), fs) ->
         KeyStore.importPublicKey P keyId publicKey description now fs
         = (PublicKeyAlreadyExists keyId, fs))
      /\ (files fs !! KeyManager.getPublicKeyPath keyId = None ->
          KeyManager.getPublicKeyPath keyId ∉ readOnly fs ->
          KeyManager.getMetadataPath keyId ∉ readOnly fs ->
          exists fs',
            KeyStore.importPublicKey P keyId (Hex.bytesToHex pub) description now fs
            = (Imported, fs')
            /\ KeyStore.getPublicKey P keyId fs'
               = (Ret (Some (Hex.bytesToHex pub)), fs')
            /\ files fs' !! KeyManager.getPrivateKeyPath keyId
               = files fs !! KeyManager.getPrivateKeyPath keyId
            /\ (JsString.includes keyId "/" = false ->
                Hex.bytesToHex pub ∈ getAllTrustedPublicKeys (hostOf P config fs')))).
Proof.
  intros Hread Hlen. split; [|intros Hdirs; split].
  - intros publicKey e Hthrow. unfold KeyStore.importPublicKey. now rewrite Hthrow.
  - intros publicKey c r Hfound.
    unfold KeyStore.importPublicKey. rewrite Hdirs. now rewrite Hfound.
  - intros Hnone Hw1 Hw2.
    destruct (StoreFacts.hexToPem_public P pub) as (pem & Hpem).
    destruct (StoreFacts.writeFileSync_ok (KeyManager.getPublicKeyPath keyId) pem
                KeyManager.mode_0o644 fs Hw1) as (f1 & Hf1 & Hwrite1).
    set (fs1 := withFiles fs (<[KeyManager.getPublicKeyPath keyId := f1]> (files fs)))
      in *.
    destruct (StoreFacts.writeFileSync_ok (KeyManager.getMetadataPath keyId)
                (JSON_stringify_metadata P
                   {| md_keyId := keyId; md_created := now;
                      md_algorithm := "secp256k1";
                      md_description := Some (KeyStore.importDescription description) |})
                KeyManager.mode_0o644 fs1 Hw2) as (f2 & Hf2 & Hwrite2).
    set (fs2 := withFiles fs1 (<[KeyManager.getMetadataPath keyId := f2]> (files fs1)))
      in *.
    assert (Hlook : files fs2 !! KeyManager.getPublicKeyPath keyId = Some f1).
    { unfold fs2, fs1. cbn [files withFiles].
      rewrite lookup_insert_ne by apply StoreFacts.metadata_public_paths.
      apply lookup_insert_eq. }
    exists fs2. split; [|split; [|split]].
    + unfold KeyStore.importPublicKey. rewrite Hdirs.
      unfold KeyStore.getPublicKey at 1, try_catch, io_bind, existsSync, io_ret.
      rewrite Hnone. rewrite bool_decide_eq_false_2 by (now intros [? ?]).
      cbn [negb KeyStore.truthy]. unfold io_lift. rewrite Hpem, Hwrite1.
      now rewrite Hwrite2.
    + now apply StoreMoreFacts.getPublicKey_written with pem f1.
    + unfold fs2, fs1. cbn [files withFiles].
      rewrite lookup_insert_ne by apply StoreFacts.metadata_private_paths.
      apply lookup_insert_ne, StoreFacts.public_private_paths.
    + intros Hid. apply ListingFacts.written_key_trusted with keyId pem f1;
        try assumption.
      apply ImportFacts.ensureDirectories_grows with fs;
        [repeat split | | exact Hdirs].
      intros p Hp. unfold fs2, fs1. cbn [files withFiles].
      destruct (decide (p = KeyManager.getMetadataPath keyId)) as [->|Hne1];
        [rewrite lookup_insert_eq; eauto|].
      rewrite lookup_insert_ne by congruence.
      destruct (decide (p = KeyManager.getPublicKeyPath keyId)) as [->|Hne2];
        [rewrite lookup_insert_eq; eauto|].
      now rewrite lookup_insert_ne by congruence.
Qed.

Lemma importPublicKey_effect_witness :
  (exists fs',
     KeyStore.importPublicKey demo "k" (Hex.bytesToHex samplePublicKey) None
       "2025-01-01" emptyDisk = (Imported, fs')
     /\ KeyStore.getPublicKey demo "k" fs'
        = (Ret (Some (Hex.bytesToHex samplePublicKey)), fs'))
  /\ KeyStore.importPublicKey demo "k" (Hex.bytesToHex samplePublicKey) None
       "2025-01-01" lockedDisk
     = (DirectoryError (IOError KeyManager.PRIVATE_KEYS_DIR), lockedDisk).
Proof.
  split.
  - destruct (importPublicKey_effect demo DEFAULT_SECURITY_CONFIG "k" samplePublicKey
                None "2025-01-01" emptyDisk demo_reads_base64 eq_refl) as [_ H].
    destruct (H ltac:(vm_compute; reflexivity)) as [_ H'].
    destruct (H' eq_refl
                ltac:(apply (bool_decide_unpack _); vm_compute; exact I)
                ltac:(apply (bool_decide_unpack _); vm_compute; exact I))
      as (fs' & Hrun & Hget & _).
    exists fs'. now split.
  - destruct (importPublicKey_effect demo DEFAULT_SECURITY_CONFIG "k" samplePublicKey
                None "2025-01-01" lockedDisk demo_reads_base64 eq_refl) as [H _].
    apply H. vm_compute. reflexivity.
Defined.

Module EndToEndFacts.

Lemma generateAndStoreKey_ret (P : Platform) (keyId : string)
    (description : option string) (k : list byte) (now : string)
    (fs fs' : FileSystem) (keyPair : KeyPair) :
  KeyManager.generateAndStoreKey P keyId description k now fs = (Ret keyPair, fs') ->
  exists pub,
    secp256k1_getPublicKey P k = Ret pub
    /\ keyPair = {| privateKey := Hex.bytesToHex k; kp_publicKey := Hex.bytesToHex pub |}
    /\ KeyManager.storeKey P keyId keyPair description now fs = (Ret tt, fs').
Proof.
  unfold KeyManager.generateAndStoreKey. unfold io_bind at 1.
  destruct (StoreFacts.ensureDirectories_cases fs) as [->|(dir & -> & _)];
    [|discriminate].
  unfold io_bind at 1. rewrite StoreFacts.keyExists_eq.
  destruct (_ && _); [discriminate|].
  unfold io_bind at 1, io_lift, CryptoUtils.generateKeyPair.
  destruct (secp256k1_getPublicKey P k) as [pub|e]; [|discriminate]. cbn.
  unfold io_bind, io_ret.
  destruct (KeyManager.storeKey P keyId _ description now fs) as [[[]|e] fs1] eqn:E;
    [|discriminate].
  intros [= <- <-]. exists pub. split; [reflexivity|]. split; [reflexivity|exact E].
Qed.

End EndToEndFacts.

(** X17. From the key store to an accepted signature.  A key made by
    [generateAndStoreKey] is trusted by the host that reads the store: on a
    sound curve, what [signDocument] signs with the private key of the pair
    is accepted by [verifyDocument], when the document has no [signatures]
    property and the policy asks for at most one signature. *)
Theorem generated_key_signs_and_verifies (P : Platform) (config : SecurityConfig)
    (keyId : string) (description : option string) (k : list byte) (now : string)
    (fs fs' : FileSystem) (keyPair : KeyPair) (document : EnactDocument)
    (options : SigningOptions) (timestamp : Z) (s : Signature)
    (securityConfig : option SecurityConfig) :
  reads_base64 P -> curve_sound P ->
  length k = 32 ->
  (forall pub, secp256k1_getPublicKey P k = Ret pub -> length pub = 33) ->
  JsString.includes keyId "/" = false ->
  KeyManager.generateAndStoreKey P keyId description k now fs = (Ret keyPair, fs') ->
  SigningService.signDocument P document (privateKey keyPair) options timestamp
  = Ret s ->
  signatures document = None ->
  (SigningService.threshold
     (SigningService.effectiveConfig (hostOf P config fs') securityConfig) <= 1)%Z ->
  SigningService.verifyDocument P (hostOf P config fs') document s options
    securityConfig = Ret true.
Proof.
  intros Hread Hsound Hk Hcompressed Hid Hgen Hsign Hnone Hm.
  destruct (EndToEndFacts.generateAndStoreKey_ret P _ _ _ _ _ _ _ Hgen)
    as (pub & Hpub & -> & Hstore).
  destruct (StoreMoreFacts.storeKey_ret P _ _ _ _ _ _ Hstore)
    as (pem1 & pem2 & f1 & f2 & f3 & Hpem1 & _ & Hf1 & _ & _ & Hfs).
  cbn [kp_publicKey privateKey] in *.
  assert (Htrust : Hex.bytesToHex pub ∈ getAllTrustedPublicKeys (hostOf P config fs')).
  { apply ListingFacts.written_key_trusted with keyId pem1 f1; auto.
    - apply StoreFacts.ensureDirectories_there with keyId; rewrite Hfs;
        cbn [files withFiles].
      + rewrite StoreMoreFacts.lookup_public. eauto.
      + rewrite StoreMoreFacts.lookup_private. eauto.
    - rewrite Hfs. cbn [files withFiles]. apply StoreMoreFacts.lookup_public. }
  destruct (SigningFacts.signDocument_ret P _ _ _ _ _ Hsign)
    as (canonical & k' & pub' & Hcan & Hk' & Hs & Hp & Hpk).
  rewrite HexFacts.hexToBytes_bytesToHex in Hk'. injection Hk' as <-.
  rewrite Hpub in Hp. injection Hp as <-.
  rewrite VerifyFacts.verifyDocument_reached.
  2:{ unfold SigningService.signaturesToVerify. rewrite Hnone. cbn [length]. lia. }
  rewrite (VerifyFacts.createDocumentHash_ret P _ _ _ Hcan). cbn.
  unfold SigningService.signaturesToVerify. rewrite Hnone. cbn [forallb].
  rewrite SigningFacts.signatureIsValid_by_trusted_key; [reflexivity | |];
    unfold SigningService.publicKeyString; rewrite Hpk.
  - exact Htrust.
  - now apply SigningFacts.verify_own_signature with k.
Qed.

Lemma generated_key_signs_and_verifies_witness :
  SigningService.verifyDocument demo (hostOf demo DEFAULT_SECURITY_CONFIG sampleDisk)
    bareTool sampleSignature enactDefaults None = Ret true.
Proof.
  apply (generated_key_signs_and_verifies demo DEFAULT_SECURITY_CONFIG "k" None
           samplePrivateKey "2025-01-01" emptyDisk sampleDisk
           {| privateKey := Hex.bytesToHex samplePrivateKey;
              kp_publicKey := Hex.bytesToHex (x02 :: samplePrivateKey) |}
           bareTool enactDefaults 0 sampleSignature None
           demo_reads_base64 demo_curve_sound eq_refl).
  - intros pub [= <-]. reflexivity.
  - reflexivity.
  - vm_compute. reflexivity.
  - reflexivity.
  - reflexivity.
  - vm_compute. discriminate.
Defined.

(** ** Further properties of the PEM codecs *)

Module InteropFacts.
Import JsString StringFacts Hex HexFacts Base64 Base64Facts PemFacts.

(** For a public key the two writers are one. *)
Lemma public_writers_agree (P : Platform) (hexKey : string) :
  WebCryptoUtils.hexToPem P hexKey PUBLIC = CryptoUtils.hexToPem P hexKey PUBLIC.
Proof. reflexivity. Qed.

Lemma host_private_text (P : Platform) (k pub der : list byte) :
  secp256k1_getPublicKey P k = Ret pub ->
  bytesToHex der = privateDer CryptoUtils.privateDerPrefix k pub ->
  CryptoUtils.hexToPem P (bytesToHex k) PRIVATE = Ret (formatPem (encode der) PRIVATE).
Proof.
  intros Hpub Hder. unfold CryptoUtils.hexToPem, CryptoUtils.getPublicKeyFromPrivate.
  rewrite hexToBytes_bytesToHex, !PemRoundTrip.bind_Ret, Hpub, !PemRoundTrip.bind_Ret.
  fold (privateDer CryptoUtils.privateDerPrefix k pub).
  now rewrite <- Hder, hexToBytes_bytesToHex.
Qed.

Lemma web_private_text (P : Platform) (k pub der : list byte) :
  secp256k1_getPublicKey P k = Ret pub ->
  bytesToHex der = privateDer WebCryptoUtils.privateDerPrefix k pub ->
  WebCryptoUtils.hexToPem P (bytesToHex k) PRIVATE = Ret (formatPem (encode der) PRIVATE).
Proof.
  intros Hpub Hder. unfold WebCryptoUtils.hexToPem, CryptoUtils.getPublicKeyFromPrivate.
  rewrite hexToBytes_bytesToHex, !PemRoundTrip.bind_Ret, Hpub, !PemRoundTrip.bind_Ret.
  fold (privateDer WebCryptoUtils.privateDerPrefix k pub).
  now rewrite <- Hder, hexToBytes_bytesToHex.
Qed.

(** The browser reader on a private key that the host wrote. *)
Lemma web_reads_host_private (k pub der : list byte) :
  length k = 32 ->
  bytesToHex der = privateDer CryptoUtils.privateDerPrefix k pub ->
  WebCryptoUtils.pemToHex (formatPem (encode der) PRIVATE) PRIVATE
  = Ret (bytesToHex k).
Proof.
  intros Hlen Hder. unfold WebCryptoUtils.pemToHex.
  rewrite base64Content_formatPem. fold (btoa der).
  rewrite atob_btoa, PemRoundTrip.bind_Ret, Hder. unfold privateDer.
  rewrite app_assoc, host_private_marker_index, <- app_assoc.
  change (62 + 4)%Z with 66%Z. change (66 =? 3)%Z with false. cbn iota.
  rewrite slice_after_prefix with (body := bytesToHex k).
  - now rewrite length_bytesToHex, Hlen.
  - reflexivity.
  - now rewrite length_bytesToHex, Hlen.
Qed.

(** The host reader on a private key that the browser wrote. *)
Lemma host_reads_web_private (P : Platform) (k pub der : list byte) :
  reads_base64 P -> length k = 32 ->
  bytesToHex der = privateDer WebCryptoUtils.privateDerPrefix k pub ->
  CryptoUtils.pemToHex P (formatPem (encode der) PRIVATE) PRIVATE = bytesToHex k.
Proof.
  intros Hread Hlen Hder. unfold CryptoUtils.pemToHex.
  rewrite base64Content_formatPem, Hread, Hder. unfold privateDer.
  rewrite app_assoc, web_private_marker_index, <- app_assoc.
  apply slice_after_prefix; [reflexivity|].
  rewrite length_bytesToHex, Hlen. reflexivity.
Qed.

(** Different bytes make different PEM texts. *)
Lemma formatPem_inj (d1 d2 : list byte) (type : KeyType) :
  formatPem (encode d1) type = formatPem (encode d2) type -> d1 = d2.
Proof.
  intros H. apply (f_equal (fun pem => base64Content pem type)) in H.
  rewrite !base64Content_formatPem in H.
  apply (f_equal decode_groups) in H. rewrite !decode_encode in H.
  now injection H.
Qed.

Lemma private_prefixes_differ (k pub : list byte) :
  privateDer CryptoUtils.privateDerPrefix k pub
  <> privateDer WebCryptoUtils.privateDerPrefix k pub.
Proof.
  intros H. apply (f_equal (String.get 15)) in H. vm_compute in H. discriminate.
Qed.

End InteropFacts.

(** X18. The two codecs read each other's PEM.  For a 33-byte public key
    both writers produce the same text, and both readers return the key
    from it.  For a 32-byte private scalar that the curve accepts the two
    writers produce different texts (their DER prefixes differ), and still
    the browser reader returns the key from the host's text and the host
    reader from the browser's. *)
Theorem pem_codecs_interoperate (P : Platform) :
  reads_base64 P ->
  (forall pub : list byte, length pub = 33 ->
     exists pem,
       CryptoUtils.hexToPem P (Hex.bytesToHex pub) PUBLIC = Ret pem
       /\ WebCryptoUtils.hexToPem P (Hex.bytesToHex pub) PUBLIC = Ret pem
       /\ WebCryptoUtils.pemToHex pem PUBLIC = Ret (Hex.bytesToHex pub)
       /\ CryptoUtils.pemToHex P pem PUBLIC = Hex.bytesToHex pub)
  /\ (forall k pub : list byte,
        length k = 32 -> secp256k1_getPublicKey P k = Ret pub ->
        exists hostPem webPem,
          CryptoUtils.hexToPem P (Hex.bytesToHex k) PRIVATE = Ret hostPem
          /\ WebCryptoUtils.hexToPem P (Hex.bytesToHex k) PRIVATE = Ret webPem
          /\ hostPem <> webPem
          /\ WebCryptoUtils.pemToHex hostPem PRIVATE = Ret (Hex.bytesToHex k)
          /\ CryptoUtils.pemToHex P webPem PRIVATE = Hex.bytesToHex k).
Proof.
  intros Hread. split.
  - intros pub Hlen.
    destruct (PemRoundTrip.host_public P pub Hread Hlen) as (pem & Hw & Hr).
    destruct (PemRoundTrip.web_public P pub Hlen) as (pem' & Hw' & Hr').
    rewrite InteropFacts.public_writers_agree, Hw in Hw'. injection Hw' as <-.
    exists pem. now rewrite InteropFacts.public_writers_agree.
  - intros k pub Hlen Hpub.
    destruct (PemFacts.private_der _ k pub PemFacts.host_private_prefix_bytes)
      as (hostDer & Hhost).
    destruct (PemFacts.private_der _ k pub PemFacts.web_private_prefix_bytes)
      as (webDer & Hweb).
    exists (formatPem (Base64.encode hostDer) PRIVATE),
      (formatPem (Base64.encode webDer) PRIVATE).
    split; [now apply InteropFacts.host_private_text with pub|].
    split; [now apply InteropFacts.web_private_text with pub|].
    split; [|split].
    + intros H. apply InteropFacts.formatPem_inj in H. subst webDer.
      rewrite Hhost in Hweb. now apply InteropFacts.private_prefixes_differ in Hweb.
    + now apply InteropFacts.web_reads_host_private with pub.
    + now apply InteropFacts.host_reads_web_private with pub.
Qed.

Lemma pem_codecs_interoperate_witness :
  exists hostPem webPem,
    CryptoUtils.hexToPem demo (Hex.bytesToHex samplePrivateKey) PRIVATE = Ret hostPem
    /\ WebCryptoUtils.hexToPem demo (Hex.bytesToHex samplePrivateKey) PRIVATE
       = Ret webPem
    /\ hostPem <> webPem
    /\ WebCryptoUtils.pemToHex hostPem PRIVATE = Ret (Hex.bytesToHex samplePrivateKey)
    /\ CryptoUtils.pemToHex demo webPem PRIVATE = Hex.bytesToHex samplePrivateKey.
Proof.
  destruct (pem_codecs_interoperate demo demo_reads_base64) as [_ H].
  apply (H samplePrivateKey (x02 :: samplePrivateKey)); reflexivity.
Defined.

Module ShapeFacts.
Import JsString StringFacts Hex HexFacts.

Lemma parse_byte (acc : N) (b : byte) (r : string) :
  parse_digits acc (byteToHex b +:+ r)
  = parse_digits ((acc * 16 + Byte.to_N b / 16) * 16 + Byte.to_N b mod 16)%N r.
Proof. destruct b; reflexivity. Qed.

Lemma low_digit_parity (b : byte) :
  ((Byte.to_N b mod 16) mod 2 = Byte.to_N b mod 2)%N.
Proof. destruct b; reflexivity. Qed.

(** The number that [BigInt] reads from the text of some bytes has the
    parity of the last byte. *)
Lemma parse_parity (bs : list byte) :
  bs <> [] ->
  forall acc, exists v,
    parse_digits acc (bytesToHex bs) = Ret v
    /\ (v mod 2 = Byte.to_N (List.last bs x00) mod 2)%N.
Proof.
  induction bs as [|b bs IH]; [contradiction|]. intros _ acc.
  cbn [bytesToHex]. rewrite parse_byte.
  destruct bs as [|b' bs].
  - eexists. split; [reflexivity|]. cbn [List.last].
    rewrite <- low_digit_parity.
    replace ((acc * 16 + Byte.to_N b / 16) * 16 + Byte.to_N b mod 16)%N
      with (Byte.to_N b mod 16 + ((acc * 16 + Byte.to_N b / 16) * 8) * 2)%N by lia.
    apply N.Div0.mod_add.
  - destruct (IH ltac:(discriminate)
                ((acc * 16 + Byte.to_N b / 16) * 16 + Byte.to_N b mod 16)%N)
      as (v & Hv & Hpar).
    exists v. split; [exact Hv|]. exact Hpar.
Qed.

Lemma BigInt_parity (bs : list byte) :
  bs <> [] ->
  exists v, BigInt_0x (bytesToHex bs) = Ret v
            /\ (v mod 2 = Byte.to_N (List.last bs x00) mod 2)%N.
Proof.
  intros Hne. destruct (parse_parity bs Hne 0%N) as (v & Hv & Hpar).
  exists v. split; [|exact Hpar].
  unfold BigInt_0x. destruct (bytesToHex bs) eqn:E; [|exact Hv].
  destruct bs as [|b bs]; [contradiction|]. destruct b; discriminate.
Qed.

Lemma first_is_cons (b c : byte) (r : list byte) :
  WebCryptoUtils.first_is (b :: r) c = Byte.eqb b c.
Proof. reflexivity. Qed.

Lemma every_byteToHex (b : byte) : every isHexDigit (byteToHex b) = true.
Proof. destruct b; reflexivity. Qed.

Lemma every_bytesToHex (bs : list byte) : every isHexDigit (bytesToHex bs) = true.
Proof.
  induction bs as [|b bs IH]; [reflexivity|].
  cbn [bytesToHex]. now rewrite every_app, every_byteToHex, IH.
Qed.

Lemma digit_below_16 (c : ascii) (n : N) : asciiToBase16 c = Some n -> (n < 16)%N.
Proof.
  unfold asciiToBase16. set (m := N_of_ascii c).
  destruct ((48 <=? m)%N && (m <=? 57)%N) eqn:E1;
    [|destruct ((65 <=? m)%N && (m <=? 70)%N) eqn:E2;
      [|destruct ((97 <=? m)%N && (m <=? 102)%N) eqn:E3]];
    intros H; try discriminate; injection H as <-.
  - apply andb_true_iff in E1 as [H1 H2]. apply N.leb_le in H1, H2. lia.
  - apply andb_true_iff in E2 as [H1 H2]. apply N.leb_le in H1, H2. lia.
  - apply andb_true_iff in E3 as [H1 H2]. apply N.leb_le in H1, H2. lia.
Qed.

(** A text of [2 n] hexadecimal digits is the text of [n] bytes. *)
Lemma hexToBytes_digits (n : nat) :
  forall s, every isHexDigit s = true -> String.length s = 2 * n ->
            exists bs, hexToBytes s = Ret bs /\ length bs = n.
Proof.
  induction n as [|n IH]; intros s Hs Hlen.
  - destruct s; [|discriminate]. now exists [].
  - destruct s as [|c1 [|c2 r]]; try (simpl in Hlen; lia).
    cbn [every] in Hs. apply andb_true_iff in Hs as [H1 Hs].
    apply andb_true_iff in Hs as [H2 Hs].
    destruct (IH r Hs ltac:(simpl in Hlen; lia)) as (bs & Hbs & Hl).
    unfold isHexDigit in H1, H2. cbn [hexToBytes].
    destruct (asciiToBase16 c1) as [n1|] eqn:E1; [|discriminate].
    destruct (asciiToBase16 c2) as [n2|] eqn:E2; [|discriminate].
    apply digit_below_16 in E1, E2.
    destruct (Byte.of_N (n1 * 16 + n2)) as [b|] eqn:Eb.
    + rewrite Hbs. exists (b :: bs). split; [reflexivity|]. simpl. lia.
    + apply Byte.of_N_None_iff in Eb. lia.
Qed.

End ShapeFacts.

(** X19. An uncompressed public key is compressed by the tolerant reader.
    When the decoded body is the byte 04 followed by the 32 bytes of x and
    the 32 bytes of y, and its hex text does not hold the marker [034200],
    [pemToHex] returns the text of x behind the prefix 02 when the last
    byte of y is even and 03 when it is odd. *)
Theorem uncompressed_key_is_compressed (pemKey : string) (x y : list byte) :
  Base64.atob (base64Content pemKey PUBLIC) = Ret (x04 :: x ++ y) ->
  length x = 32 -> length y = 32 ->
  JsString.indexOf (Hex.bytesToHex (x04 :: x ++ y)) "034200" = (-1)%Z ->
  WebCryptoUtils.pemToHex pemKey PUBLIC
  = Ret ((if (Byte.to_N (List.last y x00) mod 2 =? 0)%N then "02" else "03")
         +:+ Hex.bytesToHex x).
Proof.
  intros Hbody Hx Hy Hmarker. unfold WebCryptoUtils.pemToHex.
  rewrite Hbody, PemRoundTrip.bind_Ret, Hmarker.
  change (negb (-1 =? -1)%Z) with false. cbn iota.
  assert (Hlen : length (x04 :: x ++ y) = 65)
    by (cbn [length]; rewrite List.length_app; lia).
  rewrite Hlen, ShapeFacts.first_is_cons.
  change (65 =? 33) with false. change (65 =? 32) with false.
  change ((65 =? 65) && Byte.eqb x04 x04) with true. cbn iota. cbn [andb].
  assert (Htext : Hex.bytesToHex (x04 :: x ++ y)
                  = ("04" +:+ Hex.bytesToHex x) +:+ Hex.bytesToHex y).
  { cbn [Hex.bytesToHex]. now rewrite HexFacts.bytesToHex_app, StringFacts.app_assoc. }
  rewrite Htext.
  rewrite (PemFacts.slice_after_prefix "04" (Hex.bytesToHex x) (Hex.bytesToHex y) 2 66);
    [| reflexivity | rewrite HexFacts.length_bytesToHex, Hx; reflexivity].
  rewrite <- (StringFacts.app_nil_r (Hex.bytesToHex y)) at 1.
  rewrite <- (StringFacts.app_assoc ("04" +:+ Hex.bytesToHex x)).
  rewrite (PemFacts.slice_after_prefix ("04" +:+ Hex.bytesToHex x) (Hex.bytesToHex y) ""
             66 130).
  - destruct (ShapeFacts.BigInt_parity y) as (v & Hv & Hpar).
    { intros ->. discriminate. }
    now rewrite Hv, PemRoundTrip.bind_Ret, Hpar.
  - rewrite StringFacts.length_app, HexFacts.length_bytesToHex, Hx. reflexivity.
  - rewrite HexFacts.length_bytesToHex, Hy. reflexivity.
Qed.

Lemma uncompressed_key_is_compressed_witness :
  WebCryptoUtils.pemToHex uncompressedPem PUBLIC
  = Ret ("02" +:+ Hex.bytesToHex samplePrivateKey).
Proof.
  apply (uncompressed_key_is_compressed uncompressedPem samplePrivateKey
           samplePrivateKey); reflexivity.
Defined.

(** X20. What the tolerant reader returns for a private key is always a
    key: whenever [pemToHex] returns for the type PRIVATE, the result has 64
    code units and [hexToBytes] reads 32 bytes from it. *)
Theorem private_key_read_is_32_bytes (pemKey key : string) :
  WebCryptoUtils.pemToHex pemKey PRIVATE = Ret key ->
  String.length key = 64
  /\ exists bytes, Hex.hexToBytes key = Ret bytes /\ length bytes = 32.
Proof.
  unfold WebCryptoUtils.pemToHex.
  destruct (Base64.atob (base64Content pemKey PRIVATE)) as [derBytes|e];
    [|discriminate].
  rewrite PemRoundTrip.bind_Ret.
  destruct (_ =? 3)%Z.
  - destruct (length derBytes =? 32) eqn:Hlen; [|discriminate].
    apply Nat.eqb_eq in Hlen. intros [= <-]. split.
    + now rewrite HexFacts.length_bytesToHex, Hlen.
    + exists derBytes. now rewrite HexFacts.hexToBytes_bytesToHex.
  - set (extractedKey := JsString.substring _ _ _).
    destruct (String.length extractedKey =? 64) eqn:Hlen; [|discriminate].
    apply Nat.eqb_eq in Hlen. cbn [negb]. intros [= <-].
    split; [exact Hlen|].
    apply (ShapeFacts.hexToBytes_digits 32); [|exact Hlen].
    unfold extractedKey, JsString.substring.
    apply StringFacts.every_take, StringFacts.every_drop,
      ShapeFacts.every_bytesToHex.
Qed.

Lemma private_key_read_is_32_bytes_witness :
  String.length (Hex.bytesToHex samplePrivateKey) = 64
  /\ exists bytes, Hex.hexToBytes (Hex.bytesToHex samplePrivateKey) = Ret bytes
                   /\ length bytes = 32.
Proof.
  apply (private_key_read_is_32_bytes samplePrivatePem). reflexivity.
Defined.

(** ** Further properties of the policy and of the field report *)

Module PolicyFacts.

Lemma threshold_requiring (host : HostState) (m : Z) :
  SigningService.threshold (SigningService.effectiveConfig host (Some (requiring m)))
  = m.
Proof. reflexivity. Qed.

Lemma forallb_replicate {A} (f : A -> bool) (n : nat) (x : A) :
  f x = true -> forallb f (replicate n x) = true.
Proof. intros H. induction n as [|n IH]; [reflexivity|]. cbn. now rewrite H, IH. Qed.

(** The digest does not read [signatures] unless the options select it. *)
Lemma createDocumentHash_signatures (P : Platform) (o : object)
    (l1 l2 : option (list Signature)) (options : SigningOptions) :
  ("signatures" ∉ FieldSelector.fieldsToInclude (SigningService.fieldSelector options)
                    (SigningService.fieldOptions options)) ->
  SigningService.createDocumentHash P {| signatures := l1; fields := o |} options
  = SigningService.createDocumentHash P {| signatures := l2; fields := o |} options.
Proof.
  intros Hsel.
  unfold SigningService.createDocumentHash, SigningService.documentString,
    SigningService.getCanonicalDocument.
  rewrite (ValidationFacts.createCanonicalObject_ext _ _
             {| signatures := l2; fields := o |}); [reflexivity| |].
  { now rewrite !SelectorFacts.document_hasOwnProperty_other by discriminate. }
  intros f Hf.
  now rewrite !SelectorFacts.document_get_other by (intros ->; contradiction).
Qed.

End PolicyFacts.

(** X21. The threshold counts signatures, not signers.  When the options
    do not select [signatures] and [verifyDocument] accepts a document that
    carries the one signature [s] under the policy that asks for one
    signature, it accepts the same document carrying [n] copies of [s]
    under the policy that asks for [n]. *)
Theorem threshold_counts_signatures (P : Platform) (host : HostState) (o : object)
    (s provided : Signature) (n : nat) (options : SigningOptions) :
  ("signatures" ∉ FieldSelector.fieldsToInclude (SigningService.fieldSelector options)
                    (SigningService.fieldOptions options)) ->
  1 <= n ->
  SigningService.verifyDocument P host {| signatures := Some [s]; fields := o |}
    provided options (Some (requiring 1)) = Ret true ->
  SigningService.verifyDocument P host
    {| signatures := Some (replicate n s); fields := o |}
    provided options (Some (requiring (Z.of_nat n))) = Ret true.
Proof.
  intros Hsel Hn Hone.
  rewrite VerifyFacts.verifyDocument_reached in Hone
    by (rewrite PolicyFacts.threshold_requiring; cbn; lia).
  rewrite VerifyFacts.verifyDocument_reached.
  2:{ rewrite PolicyFacts.threshold_requiring.
      unfold SigningService.signaturesToVerify. cbn [signatures].
      rewrite length_replicate. lia. }
  rewrite (PolicyFacts.createDocumentHash_signatures P o _ (Some [s]) options Hsel).
  destruct (SigningService.createDocumentHash P _ options) as [h|e]; [|discriminate].
  cbn in Hone |- *. injection Hone as Hone. rewrite andb_true_r in Hone.
  f_equal. now apply PolicyFacts.forallb_replicate.
Qed.

Lemma threshold_counts_signatures_witness :
  SigningService.verifyDocument demo trustingHost
    (signedBy [demoSignature; demoSignature; demoSignature]) dummySignature
    enactDefaults (Some (requiring 3)) = Ret true.
Proof.
  apply (threshold_counts_signatures demo trustingHost testTool demoSignature
           dummySignature 3 enactDefaults).
  - apply (bool_decide_unpack _). vm_compute. exact I.
  - lia.
  - reflexivity.
Defined.

(** X22. [getSignedFields] reports what is signed when the options name no
    field list of their own: it is then the sorted selection, and every
    property of a canonical document is one of its names.  The field lists
    of the options are not read by it: options with the same
    [useEnactDefaults] get the same report. *)
Theorem signed_fields_report (options : SigningOptions) :
  plainOptions options ->
  SigningService.getSignedFields options
  = sort (FieldSelector.fieldsToInclude (SigningService.fieldSelector options)
            (SigningService.fieldOptions options))
  /\ (forall document canonical key,
       SigningService.getCanonicalDocument document options = Ret canonical ->
       hasOwnProperty canonical key = true ->
       key ∈ SigningService.getSignedFields options)
  /\ forall other,
       useEnactDefaults other = useEnactDefaults options ->
       SigningService.getSignedFields other = SigningService.getSignedFields options.
Proof.
  intros (Hinc & Hexc & Hadd).
  assert (Heq : SigningService.getSignedFields options
                = sort (FieldSelector.fieldsToInclude
                          (SigningService.fieldSelector options)
                          (SigningService.fieldOptions options))).
  { unfold SigningService.getSignedFields, FieldSelector.getSecurityCriticalFields,
      FieldSelector.fieldsToInclude, SigningService.fieldOptions.
    cbn [sf_includeFields sf_excludeFields sf_additionalCriticalFields
         customFieldConfig].
    rewrite Hinc, Hexc, Hadd. cbn [default]. rewrite List.app_nil_r.
    f_equal. symmetry. apply forallb_filter_id, forallb_forall.
    intros x _. unfold includes. now rewrite bool_decide_eq_false_2 by apply not_elem_of_nil. }
  split; [exact Heq|]. split.
  2:{ intros other Hsame.
      unfold SigningService.getSignedFields, SigningService.fieldSelector.
      now rewrite Hsame. }
  intros document canonical key Hcan Hown. rewrite Heq.
  apply SelectorFacts.elem_of_sort.
  unfold SigningService.getCanonicalDocument in Hcan.
  apply CanonicalFacts.createCanonicalObject_ret in Hcan as ->.
  rewrite ProjectionFacts.project_fold, ProjectionFacts.hasOwnProperty_fold_eq in Hown.
  cbn [hasOwnProperty] in Hown. rewrite orb_false_r in Hown.
  apply andb_true_iff in Hown as [Hin _].
  apply bool_decide_eq_true_1 in Hin.
  exact (proj1 (SelectorFacts.elem_of_sort _ _) Hin).
Qed.

Lemma signed_fields_report_witness :
  SigningService.getSignedFields enactDefaults
  = sort (FieldSelector.fieldsToInclude (SigningService.fieldSelector enactDefaults)
            (SigningService.fieldOptions enactDefaults)).
Proof.
  destruct (signed_fields_report enactDefaults) as [H _]; [repeat split | exact H].
Defined.

(** ** Key pairs as PEM in the browser package *)

Module PemPairFacts.
Import JsString StringFacts.

Lemma formatPem_nonempty (base64Key : string) (type : KeyType) :
  exists c r, formatPem base64Key type = String c r.
Proof.
  unfold formatPem.
  change ([beginMarker type] ++ match_1_64 base64Key ++ [endMarker type])
    with (beginMarker type :: (match_1_64 base64Key ++ [endMarker type])).
  rewrite join_cons by now destruct (match_1_64 base64Key).
  destruct type; unfold beginMarker, keyTypeLabel; rewrite !app_cons; eauto.
Qed.

Lemma web_hexToPem_nonempty (P : Platform) (hexKey : string) (type : KeyType)
    (pem : string) :
  WebCryptoUtils.hexToPem P hexKey type = Ret pem -> exists c r, pem = String c r.
Proof.
  unfold WebCryptoUtils.hexToPem.
  destruct (match type with PUBLIC => _ | PRIVATE => _ end) as [derKey|e];
    [|discriminate].
  cbn. destruct (Hex.hexToBytes derKey) as [derBytes|e]; [|discriminate].
  cbn. intros [= <-]. apply formatPem_nonempty.
Qed.

(** Writing a pair and reading it back, with and without the public PEM. *)
Lemma pair_round_trip (P : Platform) (k pub : list byte) :
  length k = 32 -> length pub = 33 -> secp256k1_getPublicKey P k = Ret pub ->
  exists privatePem publicPem,
    WebCryptoUtils.hexToPem P (Hex.bytesToHex k) PRIVATE = Ret privatePem
    /\ WebCryptoUtils.hexToPem P (Hex.bytesToHex pub) PUBLIC = Ret publicPem
    /\ PemUtils.pemToKeyPair P privatePem (Some publicPem)
       = Ret {| privateKey := Hex.bytesToHex k; kp_publicKey := Hex.bytesToHex pub |}
    /\ PemUtils.pemToKeyPair P privatePem None
       = Ret {| privateKey := Hex.bytesToHex k; kp_publicKey := Hex.bytesToHex pub |}.
Proof.
  intros Hk Hpub Hcurve.
  destruct (PemRoundTrip.web_private P k pub Hk Hcurve) as (privatePem & Hw1 & Hr1).
  destruct (PemRoundTrip.web_public P pub Hpub) as (publicPem & Hw2 & Hr2).
  exists privatePem, publicPem. split; [exact Hw1|]. split; [exact Hw2|].
  unfold PemUtils.pemToKeyPair. rewrite Hr1, !PemRoundTrip.bind_Ret. split.
  - destruct (web_hexToPem_nonempty P _ _ _ Hw2) as (c & r & ->).
    now rewrite Hr2.
  - unfold CryptoUtils.getPublicKeyFromPrivate.
    now rewrite HexFacts.hexToBytes_bytesToHex, PemRoundTrip.bind_Ret, Hcurve.
Qed.

(** The test of [validateKeyPair] on a pair that belongs together. *)
Lemma validationTest_passes (P : Platform) (k pub : list byte)
    (privatePem : string) (publicPem : option string) :
  curve_sound P -> curve_signs P k ->
  secp256k1_getPublicKey P k = Ret pub ->
  PemUtils.pemToKeyPair P privatePem publicPem
  = Ret {| privateKey := Hex.bytesToHex k; kp_publicKey := Hex.bytesToHex pub |} ->
  PemUtils.validateKeyPair P privatePem publicPem = Valid.
Proof.
  intros Hsound Hsigns Hcurve Hpair.
  unfold PemUtils.validateKeyPair, PemUtils.validationTest.
  rewrite Hpair, PemRoundTrip.bind_Ret. cbv zeta. cbn [privateKey kp_publicKey].
  unfold CryptoUtils.sign. rewrite HexFacts.hexToBytes_bytesToHex, PemRoundTrip.bind_Ret.
  assert (Hhash : Hex.hexToBytes (CryptoUtils.hash P "test-message-for-validation")
                  = Ret (sha256 P "test-message-for-validation"))
    by apply HexFacts.hexToBytes_bytesToHex.
  rewrite Hhash, PemRoundTrip.bind_Ret.
  destruct (Hsigns (sha256 P "test-message-for-validation")) as (sg & Hsg).
  rewrite Hsg, PemRoundTrip.bind_Ret.
  now rewrite (SigningFacts.verify_own_signature P k pub _ sg Hsound Hsg Hcurve).
Qed.

End PemPairFacts.

(** X23. A key pair survives its PEM form.  For the hex text of a 32-byte
    scalar and of the 33-byte public key that the curve derives from it,
    [keyPairToPem] returns, and [pemToKeyPair] gives the pair back from the
    two texts, and from the private text alone. *)
Theorem pem_key_pair_round_trip (P : Platform) (k pub : list byte) :
  length k = 32 -> length pub = 33 -> secp256k1_getPublicKey P k = Ret pub ->
  let keyPair :=
    {| privateKey := Hex.bytesToHex k; kp_publicKey := Hex.bytesToHex pub |} in
  exists pems,
    PemUtils.keyPairToPem P keyPair = Ret pems
    /\ PemUtils.pemToKeyPair P (privateKeyPem pems) (Some (publicKeyPem pems))
       = Ret keyPair
    /\ PemUtils.pemToKeyPair P (privateKeyPem pems) None = Ret keyPair.
Proof.
  intros Hk Hpub Hcurve keyPair.
  destruct (PemPairFacts.pair_round_trip P k pub Hk Hpub Hcurve)
    as (privatePem & publicPem & Hw1 & Hw2 & Hboth & Halone).
  exists {| privateKeyPem := privatePem; publicKeyPem := publicPem |}.
  split; [|split; assumption].
  unfold PemUtils.keyPairToPem, keyPair. cbn [privateKey kp_publicKey].
  now rewrite Hw1, PemRoundTrip.bind_Ret, Hw2.
Qed.

Lemma pem_key_pair_round_trip_witness :
  exists pems,
    PemUtils.keyPairToPem demo
      {| privateKey := Hex.bytesToHex samplePrivateKey;
         kp_publicKey := Hex.bytesToHex (x02 :: samplePrivateKey) |} = Ret pems
    /\ PemUtils.pemToKeyPair demo (privateKeyPem pems) (Some (publicKeyPem pems))
       = Ret {| privateKey := Hex.bytesToHex samplePrivateKey;
                kp_publicKey := Hex.bytesToHex (x02 :: samplePrivateKey) |}
    /\ PemUtils.pemToKeyPair demo (privateKeyPem pems) None
       = Ret {| privateKey := Hex.bytesToHex samplePrivateKey;
                kp_publicKey := Hex.bytesToHex (x02 :: samplePrivateKey) |}.
Proof.
  apply (pem_key_pair_round_trip demo samplePrivateKey (x02 :: samplePrivateKey));
    reflexivity.
Defined.

(** X24. A generated pair validates.  On a curve that signs with the drawn
    scalar, verifies what it signs and derives a 33-byte public key,
    [validateKeyPair] answers that the two texts of [generateKeyPairAsPem]
    are valid, and so is the private text alone. *)
Theorem generated_pair_validates (P : Platform) (k : list byte)
    (pems : PemKeyPair) (keyPair : KeyPair) :
  curve_sound P -> curve_signs P k -> length k = 32 ->
  (forall pub, secp256k1_getPublicKey P k = Ret pub -> length pub = 33) ->
  PemUtils.generateKeyPairAsPem P k = Ret (pems, keyPair) ->
  PemUtils.validateKeyPair P (privateKeyPem pems) (Some (publicKeyPem pems)) = Valid
  /\ PemUtils.validateKeyPair P (privateKeyPem pems) None = Valid.
Proof.
  intros Hsound Hsigns Hk Hcompressed.
  unfold PemUtils.generateKeyPairAsPem, CryptoUtils.generateKeyPair.
  destruct (secp256k1_getPublicKey P k) as [pub|e] eqn:Hcurve; [|discriminate].
  rewrite !PemRoundTrip.bind_Ret. cbn [privateKey kp_publicKey].
  destruct (PemPairFacts.pair_round_trip P k pub Hk (Hcompressed pub eq_refl) Hcurve)
    as (privatePem & publicPem & Hw1 & Hw2 & Hboth & Halone).
  rewrite Hw1, PemRoundTrip.bind_Ret, Hw2, PemRoundTrip.bind_Ret.
  intros [= <- <-]. cbn [privateKeyPem publicKeyPem].
  split; now apply PemPairFacts.validationTest_passes with k pub.
Qed.

Lemma demo_curve_signs (k : list byte) : curve_signs demo k.
Proof. intros hash. eexists. reflexivity. Qed.

Lemma generated_pair_validates_witness :
  exists pems keyPair,
    PemUtils.generateKeyPairAsPem demo samplePrivateKey = Ret (pems, keyPair)
    /\ PemUtils.validateKeyPair demo (privateKeyPem pems) (Some (publicKeyPem pems))
       = Valid.
Proof.
  destruct (PemUtils.generateKeyPairAsPem demo samplePrivateKey)
    as [[pems keyPair]|e] eqn:E; [|vm_compute in E; discriminate].
  exists pems, keyPair. split; [reflexivity|].
  apply (generated_pair_validates demo samplePrivateKey pems keyPair
           demo_curve_sound (demo_curve_signs samplePrivateKey) eq_refl).
  - intros pub [= <-]. reflexivity.
  - exact E.
Defined.

(** ** Listing the keys *)

Module ListKeysFacts.
Import JsString StringFacts JsTrim KeyManager.

Lemma startsWith_long (p a b : string) :
  String.length p <= String.length a -> startsWith (a +:+ b) p = startsWith a p.
Proof.
  revert a. induction p as [|y p IH]; intros a Hlen; [reflexivity|].
  destruct a as [|x a]; [simpl in Hlen; lia|].
  rewrite app_cons. cbn [startsWith]. rewrite IH; [reflexivity|].
  simpl in Hlen. lia.
Qed.

(** A pattern that begins inside [a] and runs into a dash behind [a] has a
    dash at that place. *)
Lemma straddle (a r p : string) :
  startsWith (a +:+ String "-" r) p = true ->
  String.length a < String.length p ->
  String.get (String.length a) p = Some "-"%char.
Proof.
  revert p. induction a as [|x a IH]; intros p Hs Hlen.
  - rewrite app_nil_l in Hs. destruct p as [|y p]; [simpl in Hlen; lia|].
    cbn [startsWith] in Hs. apply andb_true_iff in Hs as [Hy _].
    apply Ascii.eqb_eq in Hy. cbn. now rewrite Hy.
  - destruct p as [|y p]; [simpl in Hlen; lia|].
    rewrite app_cons in Hs. cbn [startsWith] in Hs.
    apply andb_true_iff in Hs as [_ Hs].
    cbn [String.length String.get]. apply IH; [exact Hs|]. simpl in Hlen. lia.
Qed.

Lemma suffix_single_dash (j : nat) :
  1 <= j -> String.get j "-public.pem" <> Some "-"%char.
Proof.
  intros Hj. destruct j as [|j]; [lia|].
  do 11 (destruct j as [|j]; [discriminate|]). discriminate.
Qed.

(** Behind an identifier that does not hold it, the suffix is found where
    it was put. *)
Lemma index_of_suffix (keyId : string) :
  includes keyId "-public.pem" = false ->
  index_from "-public.pem" (keyId +:+ "-public.pem") = Some (String.length keyId).
Proof.
  unfold includes. induction keyId as [|c k IH]; intros Hid; [reflexivity|].
  rewrite (index_from_eq _ (String c k)) in Hid.
  destruct (startsWith (String c k) "-public.pem") eqn:Hhere; [discriminate|].
  assert (Hk : match index_from "-public.pem" k with Some _ => true | None => false end
               = false) by (destruct (index_from "-public.pem" k); [discriminate|reflexivity]).
  rewrite app_cons, index_from_eq, <- app_cons.
  destruct (startsWith (String c k +:+ "-public.pem") "-public.pem") eqn:Hs.
  - exfalso. destruct (le_lt_dec (String.length "-public.pem") (String.length (String c k)))
      as [Hlong|Hshort].
    + rewrite startsWith_long in Hs by exact Hlong. congruence.
    + apply (suffix_single_dash (String.length (String c k))); [simpl; lia|].
      now apply (straddle _ "public.pem").
  - rewrite (IH Hk). reflexivity.
Qed.

Lemma replace_suffix (keyId : string) :
  includes keyId "-public.pem" = false ->
  replace_first (keyId +:+ "-public.pem") "-public.pem" = keyId.
Proof.
  intros Hid. unfold replace_first. rewrite (index_of_suffix keyId Hid).
  rewrite take_app_length.
  rewrite <- (app_nil_r (keyId +:+ "-public.pem")) at 1.
  rewrite <- length_app, drop_app_length. apply app_nil_r.
Qed.

Lemma filterM_keyExists (l : list string) (fs : FileSystem) :
  KeyStore.filterM keyExists l fs
  = (Ret (List.filter
            (fun keyId =>
               bool_decide (is_Some (files fs !! getPublicKeyPath keyId))
               && bool_decide (is_Some (files fs !! getPrivateKeyPath keyId))) l), fs).
Proof.
  induction l as [|x l IH]; [reflexivity|].
  cbn [KeyStore.filterM List.filter]. unfold io_bind at 1.
  rewrite StoreFacts.keyExists_eq. unfold io_bind at 1. rewrite IH.
  unfold io_ret. now destruct (_ && _).
Qed.

(** The identifier of a public-key file of the directory is listed. *)
Lemma public_file_listed (keyId : string) (f : File) (fs : FileSystem) :
  includes keyId "/" = false ->
  includes keyId "-public.pem" = false ->
  files fs !! getPublicKeyPath keyId = Some f ->
  keyId ∈ KeyStore.publicKeyIds
            (omap (KeyStore.entryOf TRUSTED_KEYS_DIR) (map fst (map_to_list (files fs)))).
Proof.
  intros Hslash Hid Hf. unfold KeyStore.publicKeyIds.
  apply list_elem_of_In, in_map_iff. exists (keyId +:+ "-public.pem").
  split; [now apply replace_suffix|].
  apply filter_In. split; [|apply ListingFacts.endsWith_app].
  apply list_elem_of_In, list_elem_of_omap. exists (getPublicKeyPath keyId).
  split; [|now apply ListingFacts.public_path_entry].
  apply list_elem_of_In, in_map_iff. exists (getPublicKeyPath keyId, f).
  split; [reflexivity|]. apply list_elem_of_In, elem_of_map_to_list, Hf.
Qed.

Lemma listKeys_eq (fs : FileSystem) :
  ensureDirectories fs = (Ret tt, fs) ->
  KeyStore.listKeys fs
  = (Ret (List.filter
            (fun keyId =>
               bool_decide (is_Some (files fs !! getPublicKeyPath keyId))
               && bool_decide (is_Some (files fs !! getPrivateKeyPath keyId)))
            (KeyStore.publicKeyIds
               (omap (KeyStore.entryOf TRUSTED_KEYS_DIR)
                  (map fst (map_to_list (files fs)))))), fs).
Proof.
  intros Hdirs. unfold KeyStore.listKeys, try_catch.
  unfold io_bind at 1. rewrite Hdirs.
  unfold io_bind, KeyStore.readdirSync.
  now rewrite filterM_keyExists.
Qed.

Lemma listTrustedKeys_eq (fs : FileSystem) :
  ensureDirectories fs = (Ret tt, fs) ->
  KeyStore.listTrustedKeys fs
  = (Ret (KeyStore.publicKeyIds
            (omap (KeyStore.entryOf TRUSTED_KEYS_DIR)
               (map fst (map_to_list (files fs))))), fs).
Proof.
  intros Hdirs. unfold KeyStore.listTrustedKeys, try_catch.
  unfold io_bind at 1. now rewrite Hdirs.
Qed.

(** Without the two directories both lists are empty. *)
Lemma listKeys_failed (fs : FileSystem) (e : error) :
  ensureDirectories fs = (Throw e, fs) -> KeyStore.listKeys fs = (Ret [], fs).
Proof.
  intros H. unfold KeyStore.listKeys, try_catch. unfold io_bind at 1.
  now rewrite H.
Qed.

Lemma listTrustedKeys_failed (fs : FileSystem) (e : error) :
  ensureDirectories fs = (Throw e, fs) -> KeyStore.listTrustedKeys fs = (Ret [], fs).
Proof.
  intros H. unfold KeyStore.listTrustedKeys, try_catch. unfold io_bind at 1.
  now rewrite H.
Qed.

End ListKeysFacts.

(** X25. A stored key is listed.  When [storeKey] has returned for an
    identifier that holds neither [/] nor the text [-public.pem],
    [listKeys] and [listTrustedKeys] both return lists that hold the
    identifier.  And in any store, what [listKeys] returns is part of what
    [listTrustedKeys] returns. *)
Theorem stored_key_is_listed (P : Platform) (keyId : string) (keyPair : KeyPair)
    (description : option string) (now : string) (fs fs' : FileSystem) :
  JsString.includes keyId "/" = false ->
  JsString.includes keyId "-public.pem" = false ->
  KeyManager.storeKey P keyId keyPair description now fs = (Ret tt, fs') ->
  (exists ids, KeyStore.listKeys fs' = (Ret ids, fs') /\ keyId ∈ ids)
  /\ (exists ids, KeyStore.listTrustedKeys fs' = (Ret ids, fs') /\ keyId ∈ ids)
  /\ (forall store, exists own trusted,
        KeyStore.listKeys store = (Ret own, store)
        /\ KeyStore.listTrustedKeys store = (Ret trusted, store)
        /\ forall id, id ∈ own -> id ∈ trusted).
Proof.
  intros Hslash Hid Hstore.
  destruct (StoreMoreFacts.storeKey_ret P _ _ _ _ _ _ Hstore)
    as (pem1 & pem2 & f1 & f2 & f3 & _ & _ & _ & _ & _ & Hfs).
  assert (Hpub : files fs' !! KeyManager.getPublicKeyPath keyId = Some f1)
    by (rewrite Hfs; apply StoreMoreFacts.lookup_public).
  assert (Hpriv : files fs' !! KeyManager.getPrivateKeyPath keyId = Some f2)
    by (rewrite Hfs; apply StoreMoreFacts.lookup_private).
  assert (Hdirs : KeyManager.ensureDirectories fs' = (Ret tt, fs')).
  { apply StoreFacts.ensureDirectories_there with keyId; eauto. }
  pose proof (ListKeysFacts.public_file_listed keyId f1 fs' Hslash Hid Hpub) as Hlisted.
  split; [|split].
  - eexists. split; [now apply ListKeysFacts.listKeys_eq|].
    apply list_elem_of_In, filter_In. split; [now apply list_elem_of_In|].
    rewrite Hpub, Hpriv. now rewrite !bool_decide_eq_true_2 by eauto.
  - eexists. split; [now apply ListKeysFacts.listTrustedKeys_eq | exact Hlisted].
  - intros store.
    destruct (StoreFacts.ensureDirectories_cases store) as [Hok|(dir & Hthrow & _)].
    + do 2 eexists. split; [now apply ListKeysFacts.listKeys_eq|].
      split; [now apply ListKeysFacts.listTrustedKeys_eq|].
      intros id Hin. apply list_elem_of_In, filter_In in Hin as [Hin _].
      now apply list_elem_of_In.
    + exists [], []. split; [now apply ListKeysFacts.listKeys_failed with (IOError dir)|].
      split; [now apply ListKeysFacts.listTrustedKeys_failed with (IOError dir)|].
      auto.
Qed.

Lemma stored_key_is_listed_witness :
  exists ids, KeyStore.listKeys sampleDisk = (Ret ids, sampleDisk) /\ "k" ∈ ids.
Proof.
  apply (stored_key_is_listed demo "k"
           {| privateKey := Hex.bytesToHex samplePrivateKey;
              kp_publicKey := Hex.bytesToHex (x02 :: samplePrivateKey) |}
           None "2025-01-01" emptyDisk sampleDisk); reflexivity.
Defined.

(** X26. [importKey] stores the pair of a private key, and replaces what
    was there.  For the hex text of a 32-byte scalar from which the curve
    derives a 33-byte public key, and with the three files writable,
    [importKey] returns the pair of the scalar and the derived key, whatever
    the store held under [keyId] before, and [getKey] reads that pair
    back. *)
Theorem importKey_replaces (P : Platform) (keyId : string) (k pub : list byte)
    (description : option string) (now : string) (fs : FileSystem) :
  reads_base64 P -> length k = 32 -> length pub = 33 ->
  secp256k1_getPublicKey P k = Ret pub ->
  (forall p, p ∈ keyPaths keyId -> p ∉ readOnly fs) ->
  let keyPair :=
    {| privateKey := Hex.bytesToHex k; kp_publicKey := Hex.bytesToHex pub |} in
  exists fs',
    KeyManager.importKey P keyId (Hex.bytesToHex k) description now fs
    = (Ret keyPair, fs')
    /\ KeyStore.getKey P keyId fs' = (Ret (Some keyPair), fs').
Proof.
  intros Hread Hk Hpub Hcurve Hall keyPair.
  destruct (StoreFacts.hexToPem_public P pub) as (pem1 & Hpem1).
  destruct (StoreFacts.hexToPem_private P k pub Hcurve) as (pem2 & Hpem2).
  destruct (StoreMoreFacts.storeKey_succeeds P keyId keyPair description now fs
              pem1 pem2 Hpem1 Hpem2
              (Hall _ (RemoveFacts.public_in keyId))
              (Hall _ (RemoveFacts.private_in keyId))
              (Hall _ (RemoveFacts.metadata_in keyId))) as (fs' & Hstore).
  exists fs'. split.
  - unfold KeyManager.importKey, io_bind at 1, io_lift,
      CryptoUtils.getPublicKeyFromPrivate.
    rewrite HexFacts.hexToBytes_bytesToHex, PemRoundTrip.bind_Ret, Hcurve,
      PemRoundTrip.bind_Ret.
    unfold io_bind, io_ret. fold keyPair. now rewrite Hstore.
  - now apply StoreMoreFacts.getKey_stored with description now fs.
Qed.

Lemma importKey_replaces_witness :
  exists fs',
    KeyManager.importKey demo "k" (Hex.bytesToHex samplePrivateKey) None
      "2025-03-03" importedOnly
    = (Ret {| privateKey := Hex.bytesToHex samplePrivateKey;
              kp_publicKey := Hex.bytesToHex (x02 :: samplePrivateKey) |}, fs')
    /\ KeyStore.getKey demo "k" fs'
       = (Ret (Some {| privateKey := Hex.bytesToHex samplePrivateKey;
                       kp_publicKey := Hex.bytesToHex (x02 :: samplePrivateKey) |}),
          fs').
Proof.
  apply (importKey_replaces demo "k" samplePrivateKey (x02 :: samplePrivateKey) None
           "2025-03-03" importedOnly demo_reads_base64 eq_refl eq_refl eq_refl).
  intros p Hp. apply (bool_decide_unpack _). vm_compute. exact I.
Defined.

(** ** Telling PEM from hex *)

Module FormatFacts.
Import JsString StringFacts.

Lemma includes_prefix (p r : string) : includes (p +:+ r) p = true.
Proof. unfold includes. now rewrite index_from_eq, startsWith_app. Qed.

Lemma includes_app_r (a b p : string) :
  includes b p = true -> includes (a +:+ b) p = true.
Proof.
  unfold includes. intros Hb. induction a as [|c a IH]; [now rewrite app_nil_l|].
  rewrite app_cons, index_from_eq.
  destruct (startsWith (String c (a +:+ b)) p); [reflexivity|].
  now destruct (index_from p (a +:+ b)).
Qed.

Lemma includes_without_first (c : ascii) (p s : string) :
  every (fun d => negb (Ascii.eqb d c)) s = true ->
  includes s (String c p) = false.
Proof.
  unfold includes. induction s as [|d s IH]; intros Hs; [reflexivity|].
  cbn [every] in Hs. apply andb_true_iff in Hs as [Hd Hs].
  rewrite index_from_eq. cbn [startsWith].
  rewrite Ascii.eqb_sym. apply negb_true_iff in Hd. rewrite Hd. cbn [andb].
  specialize (IH Hs). now destruct (index_from (String c p) s).
Qed.

Lemma hex_digit_no_dash (c : ascii) :
  isHexDigit c = true -> negb (Ascii.eqb c "-") = true.
Proof.
  intros H. destruct (Ascii.eqb c "-") eqn:E; [|reflexivity].
  apply Ascii.eqb_eq in E. subst c. discriminate.
Qed.

Lemma isPemFormat_formatPem (base64Key : string) (type : KeyType) :
  CryptoUtils.isPemFormat (formatPem base64Key type) = true.
Proof.
  unfold CryptoUtils.isPemFormat, formatPem.
  change ([beginMarker type] ++ match_1_64 base64Key ++ [endMarker type])
    with (beginMarker type :: (match_1_64 base64Key ++ [endMarker type])).
  rewrite join_cons by now destruct (match_1_64 base64Key).
  apply andb_true_iff. split.
  - assert (Hb : beginMarker type
                 = "-----BEGIN" +:+ (" " +:+ keyTypeLabel type +:+ "-----"))
      by now destruct type.
    rewrite Hb, app_assoc. apply includes_prefix.
  - rewrite join_snoc. do 3 apply includes_app_r.
    assert (He : endMarker type
                 = "-----END" +:+ (" " +:+ keyTypeLabel type +:+ "-----"))
      by now destruct type.
    rewrite He. apply includes_prefix.
Qed.

Lemma web_hexToPem_shape (P : Platform) (hexKey : string) (type : KeyType)
    (pem : string) :
  WebCryptoUtils.hexToPem P hexKey type = Ret pem ->
  exists base64Key, pem = formatPem base64Key type.
Proof.
  unfold WebCryptoUtils.hexToPem.
  destruct (match type with PUBLIC => _ | PRIVATE => _ end) as [derKey|e];
    [|discriminate].
  cbn. destruct (Hex.hexToBytes derKey) as [derBytes|e]; [|discriminate].
  cbn. intros [= <-]. eauto.
Qed.

End FormatFacts.

(** X27. [isPemFormat] tells the two forms of a key apart: it accepts
    every text that either [hexToPem] returns, and rejects the hex text of
    any bytes. *)
Theorem isPemFormat_separates (P : Platform) :
  (forall hexKey type pem,
     CryptoUtils.hexToPem P hexKey type = Ret pem ->
     CryptoUtils.isPemFormat pem = true)
  /\ (forall hexKey type pem,
        WebCryptoUtils.hexToPem P hexKey type = Ret pem ->
        CryptoUtils.isPemFormat pem = true)
  /\ (forall bytes, CryptoUtils.isPemFormat (Hex.bytesToHex bytes) = false).
Proof.
  split; [|split].
  - intros hexKey type pem H.
    destruct (TrimFacts.hexToPem_shape P _ _ _ H) as (b & ->).
    apply FormatFacts.isPemFormat_formatPem.
  - intros hexKey type pem H.
    destruct (FormatFacts.web_hexToPem_shape P _ _ _ H) as (b & ->).
    apply FormatFacts.isPemFormat_formatPem.
  - intros bytes. unfold CryptoUtils.isPemFormat.
    rewrite (FormatFacts.includes_without_first "-" "----BEGIN"); [reflexivity|].
    apply (StringFacts.every_weaken isHexDigit);
      [exact FormatFacts.hex_digit_no_dash | apply ShapeFacts.every_bytesToHex].
Qed.
